(** * The password game: requirement generation and password validation

    A shallow embedding of the two logic functions of the game, as they are
    written in the terminal front-end ([pw.c]: [generate_requirements],
    [validate_password]) and in the browser front-end
    ([generateRequirements], [validatePassword], [isSymbol]), and the
    properties of them that the specification states.

    Conventions.
    - A C [int] is a [Z].  Signed overflow is undefined in C, so the
      arithmetic of [generate_requirements] is _checked_: a value of type
      [cint] is [None] as soon as an intermediate result leaves
      [INT_MIN .. INT_MAX] or a divisor is zero.  Lemma
      [c_generate_defined] shows that this does not happen up to round
      858993457.  [C.validate_password] keeps the counters of the
      validator in [Z], which is what the program computes as long as they
      fit an [int]; [C.validate_password_int] is the validator with every
      [int] operation checked, and lemma [validate_password_int_exact]
      shows that the two agree on passwords of up to 238609294 characters.
    - A JavaScript number is a [Z] where the code only ever holds integers
      (exact below 2^53).  The one number that is no integer, the value of
      [Math.random()], is a double, given as the rational it is; its
      product with an integer is the double nearest to the exact product
      ([JS.times]).
    - A C string is the list of the bytes in front of the first NUL of its
      array; a read outside of the array is a [Fault].
    - A JavaScript string is the list of its UTF-16 code units; a read
      outside of the string is a [Fault].
    - What the validators print or return as text is kept as a [Failure]:
      one constructor per message, carrying the values the message shows. *)

From Stdlib Require Import ZArith NArith List Bool Ascii Lia QArith Qround Lqa.
Import ListNotations.
Local Open Scope Z_scope.

(** ** Verdicts *)

(** One constructor per failure message of the validators; the arguments are
    the numbers (and the character) that the message interpolates. *)
Inductive Failure : Type :=
| TooShort (len required : Z)                (* "Too short (Length: %d, Required: %d)" *)
| NotEnoughUppercase (found required : Z)    (* "Not enough uppercase (Found: .., Required: ..)" *)
| NotEnoughLowercase (found required : Z)    (* "Not enough lowercase (..)" *)
| NotEnoughDigits (found required : Z)       (* "Not enough digits (..)" *)
| NotEnoughSymbols (found required : Z)      (* "Not enough symbols (..)" *)
| EmptyStartEnd                              (* "Cannot check start/end on empty password." *)
| MustStartUppercase                         (* "Must start with an uppercase letter." *)
| MustEndSymbol                              (* "Must end with a symbol." *)
| ConsecutiveChars (ch : N) (position : Z)   (* "Found consecutive identical characters ('cc') at position i." *)
| NotPalindrome                              (* "Password is not a palindrome." *)
| DigitSumMismatch (actual target : Z)       (* "Sum of digits is .., but required sum is ..." *)
| ImpossibleDigitSum.                        (* C: "Internal Logic Warning: Digit sum required, but min digits is 0!"
                                                JS: "Impossible Rule - Digit sum required (..), but 0 digits allowed?" *)

(** [Valid] is the C result 1 and the JavaScript result [true]; [Invalid f]
    is the C result 0 after printing message [f], and the JavaScript result
    that is the message [f]. *)
Inductive Verdict : Type :=
| Valid
| Invalid (f : Failure).

(** ** Control flow shared by both validators

    A block of a validator either falls through to the next statement
    ([Continue]), leaves the function with a verdict ([Return]), or reads
    memory it must not read ([Fault]). *)
Inductive outcome (A : Type) : Type :=
| Continue (a : A)
| Return (v : Verdict)
| Fault.
Arguments Continue {A} a.
Arguments Return {A} v.
Arguments Fault {A}.

Definition obind {A B} (m : outcome A) (k : A -> outcome B) : outcome B :=
  match m with
  | Continue a => k a
  | Return v => Return v
  | Fault => Fault
  end.

Declare Scope outcome_scope.
Delimit Scope outcome_scope with outcome.
Notation "x <- m ;; k" := (obind m (fun x => k))
  (at level 61, m at next level, right associativity) : outcome_scope.
Notation "m ;; k" := (obind m (fun _ => k))
  (at level 61, right associativity) : outcome_scope.

(** [if (c) return f;] *)
Definition fail_if (c : bool) (f : Failure) : outcome unit :=
  if c then Return (Invalid f) else Continue tt.

(** [if (c) { body }] *)
Definition when (c : bool) (body : outcome unit) : outcome unit :=
  if c then body else Continue tt.

(** A counting loop with [n] iterations left and loop variable [i]; a
    [Return] inside the body leaves the loop and the function. *)
Fixpoint for_loop (n : nat) (i : Z) (body : Z -> outcome unit) : outcome unit :=
  match n with
  | O => Continue tt
  | S n' => obind (body i) (fun _ => for_loop n' (i + 1) body)
  end.

(** [for (i = lo; i < hi; i++) { body i }] *)
Definition for_range (lo hi : Z) (body : Z -> outcome unit) : outcome unit :=
  for_loop (Z.to_nat (hi - lo)) lo body.

(** The end of a validator: [return 1] / [return true] when no check left
    the function before. *)
Definition finish (m : outcome unit) : option Verdict :=
  match m with
  | Continue _ => Some Valid
  | Return v => Some v
  | Fault => None
  end.

(** ** The requirements of a round, as the specification and the browser
    front-end have them *)
Record Requirements : Type := {
  minLength : Z;
  minUppercase : Z;
  minLowercase : Z;
  minDigits : Z;
  minSymbols : Z;
  reqStartUpperEndSymbol : bool;
  reqNoConsecutiveChars : bool;
  reqPalindrome : bool;
  reqDigitSum : bool;
  digitSumTarget : Z
}.

(** Invariants I1, I2 and I3 of the data model. *)
Definition I1 (q : Requirements) : Prop :=
  minLength q >= minUppercase q + minLowercase q + minDigits q + minSymbols q.
Definition I2 (q : Requirements) : Prop :=
  reqStartUpperEndSymbol q = true ->
  minUppercase q >= 1 /\ minSymbols q >= 1 /\ minLength q >= 2.
Definition I3 (q : Requirements) : Prop :=
  reqDigitSum q = true -> minDigits q >= 1.

(** ** C integers with undefined overflow *)
Module CInt.

Definition INT_MAX : Z := 2147483647.
Definition INT_MIN : Z := -2147483648.

Definition in_int (z : Z) : bool := (INT_MIN <=? z) && (z <=? INT_MAX).

(** The value of an [int] expression; [None] when evaluating it is
    undefined. *)
Definition cint : Type := option Z.

Definition of_Z (z : Z) : cint := if in_int z then Some z else None.

Definition lift2 (f : Z -> Z -> cint) (a b : cint) : cint :=
  match a, b with
  | Some x, Some y => f x y
  | _, _ => None
  end.

Definition add : cint -> cint -> cint := lift2 (fun x y => of_Z (x + y)).
Definition sub : cint -> cint -> cint := lift2 (fun x y => of_Z (x - y)).
Definition mul : cint -> cint -> cint := lift2 (fun x y => of_Z (x * y)).
(** [/] and [%] truncate towards zero. *)
Definition div : cint -> cint -> cint :=
  lift2 (fun x y => if y =? 0 then None else of_Z (Z.quot x y)).
Definition rem : cint -> cint -> cint :=
  lift2 (fun x y => if y =? 0 then None
                    else if in_int (Z.quot x y) then Some (Z.rem x y) else None).

Definition bind {B} (m : cint) (k : Z -> option B) : option B :=
  match m with
  | Some a => k a
  | None => None
  end.

End CInt.

Declare Scope cint_scope.
Delimit Scope cint_scope with cint.
Bind Scope cint_scope with CInt.cint.
Coercion CInt.of_Z : Z >-> CInt.cint.
Notation "a + b" := (CInt.add a b) : cint_scope.
Notation "a - b" := (CInt.sub a b) : cint_scope.
Notation "a * b" := (CInt.mul a b) : cint_scope.
Notation "a / b" := (CInt.div a b) : cint_scope.
Notation "a % b" := (CInt.rem a b) (at level 40, left associativity) : cint_scope.
Notation "x <- m ;; k" := (CInt.bind m%cint (fun x => k))
  (at level 61, m at next level, right associativity) : cint_scope.

(** ** The terminal front-end, [pw.c] *)
Module C.

Definition BASE_MIN_LEN : Z := 6.

(** [PasswordRequirements]; the four flags are [int]s, 0 for false. *)
Record PasswordRequirements : Type := {
  min_length : Z;
  min_uppercase : Z;
  min_lowercase : Z;
  min_digits : Z;
  min_symbols : Z;
  req_start_upper_end_symbol : Z;
  req_no_consecutive_chars : Z;
  req_palindrome : Z;
  req_digit_sum : Z;
  digit_sum_target : Z
}.

(** [memset(reqs, 0, sizeof(PasswordRequirements))] *)
Definition zeroed : PasswordRequirements :=
  {| min_length := 0; min_uppercase := 0; min_lowercase := 0;
     min_digits := 0; min_symbols := 0;
     req_start_upper_end_symbol := 0; req_no_consecutive_chars := 0;
     req_palindrome := 0; req_digit_sum := 0; digit_sum_target := 0 |}.

(** Assignments [reqs->field = v]. *)
Definition set_min_length (v : Z) (q : PasswordRequirements) :=
  {| min_length := v; min_uppercase := min_uppercase q;
     min_lowercase := min_lowercase q; min_digits := min_digits q;
     min_symbols := min_symbols q;
     req_start_upper_end_symbol := req_start_upper_end_symbol q;
     req_no_consecutive_chars := req_no_consecutive_chars q;
     req_palindrome := req_palindrome q; req_digit_sum := req_digit_sum q;
     digit_sum_target := digit_sum_target q |}.
Definition set_min_uppercase (v : Z) (q : PasswordRequirements) :=
  {| min_length := min_length q; min_uppercase := v;
     min_lowercase := min_lowercase q; min_digits := min_digits q;
     min_symbols := min_symbols q;
     req_start_upper_end_symbol := req_start_upper_end_symbol q;
     req_no_consecutive_chars := req_no_consecutive_chars q;
     req_palindrome := req_palindrome q; req_digit_sum := req_digit_sum q;
     digit_sum_target := digit_sum_target q |}.
Definition set_min_lowercase (v : Z) (q : PasswordRequirements) :=
  {| min_length := min_length q; min_uppercase := min_uppercase q;
     min_lowercase := v; min_digits := min_digits q;
     min_symbols := min_symbols q;
     req_start_upper_end_symbol := req_start_upper_end_symbol q;
     req_no_consecutive_chars := req_no_consecutive_chars q;
     req_palindrome := req_palindrome q; req_digit_sum := req_digit_sum q;
     digit_sum_target := digit_sum_target q |}.
Definition set_min_digits (v : Z) (q : PasswordRequirements) :=
  {| min_length := min_length q; min_uppercase := min_uppercase q;
     min_lowercase := min_lowercase q; min_digits := v;
     min_symbols := min_symbols q;
     req_start_upper_end_symbol := req_start_upper_end_symbol q;
     req_no_consecutive_chars := req_no_consecutive_chars q;
     req_palindrome := req_palindrome q; req_digit_sum := req_digit_sum q;
     digit_sum_target := digit_sum_target q |}.
Definition set_min_symbols (v : Z) (q : PasswordRequirements) :=
  {| min_length := min_length q; min_uppercase := min_uppercase q;
     min_lowercase := min_lowercase q; min_digits := min_digits q;
     min_symbols := v;
     req_start_upper_end_symbol := req_start_upper_end_symbol q;
     req_no_consecutive_chars := req_no_consecutive_chars q;
     req_palindrome := req_palindrome q; req_digit_sum := req_digit_sum q;
     digit_sum_target := digit_sum_target q |}.
Definition set_req_start_upper_end_symbol (v : Z) (q : PasswordRequirements) :=
  {| min_length := min_length q; min_uppercase := min_uppercase q;
     min_lowercase := min_lowercase q; min_digits := min_digits q;
     min_symbols := min_symbols q;
     req_start_upper_end_symbol := v;
     req_no_consecutive_chars := req_no_consecutive_chars q;
     req_palindrome := req_palindrome q; req_digit_sum := req_digit_sum q;
     digit_sum_target := digit_sum_target q |}.
Definition set_req_no_consecutive_chars (v : Z) (q : PasswordRequirements) :=
  {| min_length := min_length q; min_uppercase := min_uppercase q;
     min_lowercase := min_lowercase q; min_digits := min_digits q;
     min_symbols := min_symbols q;
     req_start_upper_end_symbol := req_start_upper_end_symbol q;
     req_no_consecutive_chars := v;
     req_palindrome := req_palindrome q; req_digit_sum := req_digit_sum q;
     digit_sum_target := digit_sum_target q |}.
Definition set_req_palindrome (v : Z) (q : PasswordRequirements) :=
  {| min_length := min_length q; min_uppercase := min_uppercase q;
     min_lowercase := min_lowercase q; min_digits := min_digits q;
     min_symbols := min_symbols q;
     req_start_upper_end_symbol := req_start_upper_end_symbol q;
     req_no_consecutive_chars := req_no_consecutive_chars q;
     req_palindrome := v; req_digit_sum := req_digit_sum q;
     digit_sum_target := digit_sum_target q |}.
Definition set_req_digit_sum (v : Z) (q : PasswordRequirements) :=
  {| min_length := min_length q; min_uppercase := min_uppercase q;
     min_lowercase := min_lowercase q; min_digits := min_digits q;
     min_symbols := min_symbols q;
     req_start_upper_end_symbol := req_start_upper_end_symbol q;
     req_no_consecutive_chars := req_no_consecutive_chars q;
     req_palindrome := req_palindrome q; req_digit_sum := v;
     digit_sum_target := digit_sum_target q |}.
Definition set_digit_sum_target (v : Z) (q : PasswordRequirements) :=
  {| min_length := min_length q; min_uppercase := min_uppercase q;
     min_lowercase := min_lowercase q; min_digits := min_digits q;
     min_symbols := min_symbols q;
     req_start_upper_end_symbol := req_start_upper_end_symbol q;
     req_no_consecutive_chars := req_no_consecutive_chars q;
     req_palindrome := req_palindrome q; req_digit_sum := req_digit_sum q;
     digit_sum_target := v |}.

(** [min_char_sum = reqs->min_uppercase + reqs->min_lowercase
                    + reqs->min_digits + reqs->min_symbols] *)
Definition min_char_sum (q : PasswordRequirements) : CInt.cint :=
  (min_uppercase q + min_lowercase q + min_digits q + min_symbols q)%cint.

(** [if (reqs->min_length < min_char_sum) reqs->min_length = min_char_sum;] *)
Definition clamp_min_length (q : PasswordRequirements) : option PasswordRequirements :=
  (sum <- min_char_sum q ;;
   Some (if min_length q <? sum then set_min_length sum q else q))%cint.

(** "Basic Requirements": the five minimums of a round. *)
Definition basic_requirements (round : Z) (q : PasswordRequirements)
  : option PasswordRequirements :=
  (len <- BASE_MIN_LEN + round + (round / 2) ;;
   let q := set_min_length len q in
   up <- 1 + (round / 2) ;;
   let q := set_min_uppercase up q in
   lo <- 1 + (round / 2) ;;
   let q := set_min_lowercase lo q in
   di <- 1 + (round / 3) ;;
   let q := set_min_digits di q in
   sy <- (if round >? 1 then 1 + (round - 1) / 3 else 0) ;;
   let q := set_min_symbols sy q in
   Some q)%cint.

(** "Ridiculous Requirements": the special rules of rounds 3, 4, 5 and 7.
    [rnd] is the value the call [rand()] returns. *)
Definition ridiculous_requirements (rnd : Z) (round : Z) (q : PasswordRequirements)
  : option PasswordRequirements :=
  let q :=
    if round >=? 3 then
      let q := set_req_start_upper_end_symbol 1 q in
      let q := if min_length q <? 2 then set_min_length 2 q else q in
      let q := if min_uppercase q <? 1 then set_min_uppercase 1 q else q in
      let q := if min_symbols q <? 1 then set_min_symbols 1 q else q in
      q
    else q in
  let q := if round >=? 4 then set_req_no_consecutive_chars 1 q else q in
  let q := if round =? 5 then set_req_palindrome 1 q else q in
  if round >=? 7 then
    let q := set_req_digit_sum 1 q in
    let q := if min_digits q <? 1 then set_min_digits 1 q else q in
    (target <- 5 + (round / 2) + (rnd % (round * 2 + 1)) ;;
     Some (set_digit_sum_target target q))%cint
  else Some q.

(** [void generate_requirements(PasswordRequirements *reqs, int round)]:
    the record it leaves in [*reqs].  The last statement of the C function
    compares against [min_char_sum * 1.5] and has an empty body; it
    changes nothing and is left out. *)
Definition generate_requirements (rnd : Z) (round : Z) : option PasswordRequirements :=
  match basic_requirements round zeroed with
  | None => None
  | Some q =>
    match clamp_min_length q with
    | None => None
    | Some q =>
      match ridiculous_requirements rnd round q with
      | None => None
      | Some q => clamp_min_length q
      end
    end
  end.

(** The record as the data model has it: a flag is true when its [int] is
    not 0. *)
Definition requirements_of (q : PasswordRequirements) : Requirements :=
  {| minLength := min_length q; minUppercase := min_uppercase q;
     minLowercase := min_lowercase q; minDigits := min_digits q;
     minSymbols := min_symbols q;
     reqStartUpperEndSymbol := negb (req_start_upper_end_symbol q =? 0);
     reqNoConsecutiveChars := negb (req_no_consecutive_chars q =? 0);
     reqPalindrome := negb (req_palindrome q =? 0);
     reqDigitSum := negb (req_digit_sum q =? 0);
     digitSumTarget := digit_sum_target q |}.

(** *** Characters and strings *)

(** The code of a byte, 0 to 255; for an ASCII character, the value of the
    [char] that holds it. *)
Definition code (c : ascii) : Z := Z.of_N (N_of_ascii c).

(** [<ctype.h>] in the "C" locale, the one in force as the program never
    calls [setlocale]: only ASCII characters are in a class. *)
Definition isupper (c : ascii) : bool := (65 <=? code c) && (code c <=? 90).
Definition islower (c : ascii) : bool := (97 <=? code c) && (code c <=? 122).
Definition isdigit (c : ascii) : bool := (48 <=? code c) && (code c <=? 57).
Definition isalnum (c : ascii) : bool := isupper c || islower c || isdigit c.
Definition isspace (c : ascii) : bool :=
  (code c =? 32) || ((9 <=? code c) && (code c <=? 13)).
Definition isgraph (c : ascii) : bool := (33 <=? code c) && (code c <=? 126).
Definition isprint (c : ascii) : bool := (32 <=? code c) && (code c <=? 126).
Definition ispunct (c : ascii) : bool := isgraph c && negb (isalnum c).

Definition is_nul (c : ascii) : bool := code c =? 0.

(** [strlen(password)]: the number of bytes in front of the first NUL. *)
Fixpoint strlen (password : list ascii) : nat :=
  match password with
  | [] => O
  | ch :: rest => if is_nul ch then O else S (strlen rest)
  end.

(** [password[i]]: the array holds the bytes of the list and a final NUL. *)
Definition read (password : list ascii) (i : Z) : outcome ascii :=
  if (0 <=? i) && (i <? Z.of_nat (length password))
  then Continue (nth (Z.to_nat i) password zero)
  else if i =? Z.of_nat (length password) then Continue zero
  else Fault.

(** *** The validator

    The length, the loop indices and the counters are kept in [Z] here,
    which is what the program computes as long as they fit an [int];
    [validate_password_int] below checks every operation on them. *)

Record counters : Type := {
  upper_count : Z;
  lower_count : Z;
  digit_count : Z;
  symbol_count : Z;
  current_digit_sum : Z
}.

Definition no_counts : counters :=
  {| upper_count := 0; lower_count := 0; digit_count := 0; symbol_count := 0;
     current_digit_sum := 0 |}.

(** The body of the counting loop. *)
Definition count_char (ch : ascii) (c : counters) : counters :=
  if isupper ch then
    {| upper_count := upper_count c + 1; lower_count := lower_count c;
       digit_count := digit_count c; symbol_count := symbol_count c;
       current_digit_sum := current_digit_sum c |}
  else if islower ch then
    {| upper_count := upper_count c; lower_count := lower_count c + 1;
       digit_count := digit_count c; symbol_count := symbol_count c;
       current_digit_sum := current_digit_sum c |}
  else if isdigit ch then
    {| upper_count := upper_count c; lower_count := lower_count c;
       digit_count := digit_count c + 1; symbol_count := symbol_count c;
       current_digit_sum := current_digit_sum c + (code ch - code "0"%char) |}
  else if ispunct ch then
    {| upper_count := upper_count c; lower_count := lower_count c;
       digit_count := digit_count c; symbol_count := symbol_count c + 1;
       current_digit_sum := current_digit_sum c |}
  else c.

(** [for (int i = 0; password[i] != 0; i++) { ... }] *)
Fixpoint count_loop (password : list ascii) (c : counters) : counters :=
  match password with
  | [] => c
  | ch :: rest => if is_nul ch then c else count_loop rest (count_char ch c)
  end.

(** The loop of the palindrome check, with [n] iterations left; its result
    is the value of [is_palindrome] after the loop. *)
Fixpoint palindrome_loop (password : list ascii) (len : Z) (n : nat) (i : Z)
  : outcome bool :=
  match n with
  | O => Continue true
  | S n' =>
    (a <- read password i ;;
     b <- read password (len - 1 - i) ;;
     if negb (Ascii.eqb a b) then Continue false
     else palindrome_loop password len n' (i + 1))%outcome
  end.

(** [int validate_password(const char *password,
                           const PasswordRequirements *reqs)] *)
Definition validate_password (password : list ascii) (reqs : PasswordRequirements)
  : option Verdict :=
  finish (
    let len := Z.of_nat (strlen password) in
    fail_if (len <? min_length reqs) (TooShort len (min_length reqs)) ;;
    let c := count_loop password no_counts in
    fail_if (upper_count c <? min_uppercase reqs)
            (NotEnoughUppercase (upper_count c) (min_uppercase reqs)) ;;
    fail_if (lower_count c <? min_lowercase reqs)
            (NotEnoughLowercase (lower_count c) (min_lowercase reqs)) ;;
    fail_if (digit_count c <? min_digits reqs)
            (NotEnoughDigits (digit_count c) (min_digits reqs)) ;;
    fail_if (symbol_count c <? min_symbols reqs)
            (NotEnoughSymbols (symbol_count c) (min_symbols reqs)) ;;
    when (negb (req_start_upper_end_symbol reqs =? 0)) (
      fail_if (len =? 0) EmptyStartEnd ;;
      first <- read password 0 ;;
      fail_if (negb (isupper first)) MustStartUppercase ;;
      last <- read password (len - 1) ;;
      fail_if (negb (ispunct last)) MustEndSymbol) ;;
    when (negb (req_no_consecutive_chars reqs =? 0)) (
      for_range 0 (len - 1) (fun i =>
        a <- read password i ;;
        b <- read password (i + 1) ;;
        fail_if (Ascii.eqb a b) (ConsecutiveChars (N_of_ascii a) i))) ;;
    when (negb (req_palindrome reqs =? 0)) (
      is_palindrome <- palindrome_loop password len (Z.to_nat (Z.quot len 2)) 0 ;;
      fail_if (negb is_palindrome) NotPalindrome) ;;
    when (negb (req_digit_sum reqs =? 0)) (
      fail_if (negb (current_digit_sum c =? digit_sum_target reqs))
              (DigitSumMismatch (current_digit_sum c) (digit_sum_target reqs)) ;;
      fail_if ((min_digits reqs =? 0) && negb (digit_sum_target reqs =? 0))
              ImpossibleDigitSum) ;;
    Continue tt)%outcome.

(** The characters of the C string held by an array. *)
Definition chars (password : list ascii) : list ascii :=
  firstn (strlen password) password.

(** *** The validator with its [int] variables

    In [pw.c] the length, the loop indices, the counters and the digit sum
    are [int]s.  Here every operation on them is checked: a result outside
    of [INT_MIN .. INT_MAX] is a [Fault], as signed overflow is undefined
    (and as the value that the conversion of the [size_t] result of
    [strlen] to [int] gives is not defined by the language). *)
Definition checked (z : Z) : outcome Z :=
  if CInt.in_int z then Continue z else Fault.

(** The body of the counting loop. *)
Definition count_char_int (ch : ascii) (c : counters) : outcome counters :=
  if isupper ch then
    (n <- checked (upper_count c + 1) ;;
     Continue
       {| upper_count := n; lower_count := lower_count c;
          digit_count := digit_count c; symbol_count := symbol_count c;
          current_digit_sum := current_digit_sum c |})%outcome
  else if islower ch then
    (n <- checked (lower_count c + 1) ;;
     Continue
       {| upper_count := upper_count c; lower_count := n;
          digit_count := digit_count c; symbol_count := symbol_count c;
          current_digit_sum := current_digit_sum c |})%outcome
  else if isdigit ch then
    (n <- checked (digit_count c + 1) ;;
     d <- checked (code ch - code "0"%char) ;;
     sum <- checked (current_digit_sum c + d) ;;
     Continue
       {| upper_count := upper_count c; lower_count := lower_count c;
          digit_count := n; symbol_count := symbol_count c;
          current_digit_sum := sum |})%outcome
  else if ispunct ch then
    (n <- checked (symbol_count c + 1) ;;
     Continue
       {| upper_count := upper_count c; lower_count := lower_count c;
          digit_count := digit_count c; symbol_count := n;
          current_digit_sum := current_digit_sum c |})%outcome
  else Continue c.

(** [for (int i = 0; password[i] != 0; i++) { ... }], from index [i] on;
    [password] is what is left of the array from there. *)
Fixpoint count_loop_int (password : list ascii) (i : Z) (c : counters)
  : outcome counters :=
  match password with
  | [] => Continue c
  | ch :: rest =>
    if is_nul ch then Continue c
    else
      (c <- count_char_int ch c ;;
       i <- checked (i + 1) ;;
       count_loop_int rest i c)%outcome
  end.

(** A counting loop with [n] iterations left and the [int] loop variable
    [i]. *)
Fixpoint for_loop_int (n : nat) (i : Z) (body : Z -> outcome unit)
  : outcome unit :=
  match n with
  | O => Continue tt
  | S n' =>
    (body i ;;
     i <- checked (i + 1) ;;
     for_loop_int n' i body)%outcome
  end.

(** [for (int i = lo; i < hi; i++) { body i }] *)
Definition for_range_int (lo hi : Z) (body : Z -> outcome unit) : outcome unit :=
  for_loop_int (Z.to_nat (hi - lo)) lo body.

(** The loop of the palindrome check, with [n] iterations left. *)
Fixpoint palindrome_loop_int (password : list ascii) (len : Z) (n : nat) (i : Z)
  : outcome bool :=
  match n with
  | O => Continue true
  | S n' =>
    (a <- read password i ;;
     k <- checked (len - 1) ;;
     k <- checked (k - i) ;;
     b <- read password k ;;
     if negb (Ascii.eqb a b) then Continue false
     else
       i <- checked (i + 1) ;;
       palindrome_loop_int password len n' i)%outcome
  end.

(** [int validate_password(const char *password,
                           const PasswordRequirements *reqs)] *)
Definition validate_password_int (password : list ascii)
           (reqs : PasswordRequirements) : option Verdict :=
  finish (
    len <- checked (Z.of_nat (strlen password)) ;;
    fail_if (len <? min_length reqs) (TooShort len (min_length reqs)) ;;
    c <- count_loop_int password 0 no_counts ;;
    fail_if (upper_count c <? min_uppercase reqs)
            (NotEnoughUppercase (upper_count c) (min_uppercase reqs)) ;;
    fail_if (lower_count c <? min_lowercase reqs)
            (NotEnoughLowercase (lower_count c) (min_lowercase reqs)) ;;
    fail_if (digit_count c <? min_digits reqs)
            (NotEnoughDigits (digit_count c) (min_digits reqs)) ;;
    fail_if (symbol_count c <? min_symbols reqs)
            (NotEnoughSymbols (symbol_count c) (min_symbols reqs)) ;;
    when (negb (req_start_upper_end_symbol reqs =? 0)) (
      fail_if (len =? 0) EmptyStartEnd ;;
      first <- read password 0 ;;
      fail_if (negb (isupper first)) MustStartUppercase ;;
      k <- checked (len - 1) ;;
      last <- read password k ;;
      fail_if (negb (ispunct last)) MustEndSymbol) ;;
    when (negb (req_no_consecutive_chars reqs =? 0)) (
      hi <- checked (len - 1) ;;
      for_range_int 0 hi (fun i =>
        a <- read password i ;;
        k <- checked (i + 1) ;;
        b <- read password k ;;
        fail_if (Ascii.eqb a b) (ConsecutiveChars (N_of_ascii a) i))) ;;
    when (negb (req_palindrome reqs =? 0)) (
      half <- checked (Z.quot len 2) ;;
      is_palindrome <- palindrome_loop_int password len (Z.to_nat half) 0 ;;
      fail_if (negb is_palindrome) NotPalindrome) ;;
    when (negb (req_digit_sum reqs =? 0)) (
      fail_if (negb (current_digit_sum c =? digit_sum_target reqs))
              (DigitSumMismatch (current_digit_sum c) (digit_sum_target reqs)) ;;
      fail_if ((min_digits reqs =? 0) && negb (digit_sum_target reqs =? 0))
              ImpossibleDigitSum) ;;
    Continue tt)%outcome.

End C.

(** ** The browser front-end *)
Module JS.

Definition BASE_MIN_LEN : Z := 6.

(** Assignments [reqs.field = v]. *)
Definition set_minLength (v : Z) (q : Requirements) : Requirements :=
  {| minLength := v; minUppercase := minUppercase q;
     minLowercase := minLowercase q; minDigits := minDigits q;
     minSymbols := minSymbols q;
     reqStartUpperEndSymbol := reqStartUpperEndSymbol q;
     reqNoConsecutiveChars := reqNoConsecutiveChars q;
     reqPalindrome := reqPalindrome q; reqDigitSum := reqDigitSum q;
     digitSumTarget := digitSumTarget q |}.
Definition set_minUppercase (v : Z) (q : Requirements) : Requirements :=
  {| minLength := minLength q; minUppercase := v;
     minLowercase := minLowercase q; minDigits := minDigits q;
     minSymbols := minSymbols q;
     reqStartUpperEndSymbol := reqStartUpperEndSymbol q;
     reqNoConsecutiveChars := reqNoConsecutiveChars q;
     reqPalindrome := reqPalindrome q; reqDigitSum := reqDigitSum q;
     digitSumTarget := digitSumTarget q |}.
Definition set_minLowercase (v : Z) (q : Requirements) : Requirements :=
  {| minLength := minLength q; minUppercase := minUppercase q;
     minLowercase := v; minDigits := minDigits q;
     minSymbols := minSymbols q;
     reqStartUpperEndSymbol := reqStartUpperEndSymbol q;
     reqNoConsecutiveChars := reqNoConsecutiveChars q;
     reqPalindrome := reqPalindrome q; reqDigitSum := reqDigitSum q;
     digitSumTarget := digitSumTarget q |}.
Definition set_minDigits (v : Z) (q : Requirements) : Requirements :=
  {| minLength := minLength q; minUppercase := minUppercase q;
     minLowercase := minLowercase q; minDigits := v;
     minSymbols := minSymbols q;
     reqStartUpperEndSymbol := reqStartUpperEndSymbol q;
     reqNoConsecutiveChars := reqNoConsecutiveChars q;
     reqPalindrome := reqPalindrome q; reqDigitSum := reqDigitSum q;
     digitSumTarget := digitSumTarget q |}.
Definition set_minSymbols (v : Z) (q : Requirements) : Requirements :=
  {| minLength := minLength q; minUppercase := minUppercase q;
     minLowercase := minLowercase q; minDigits := minDigits q;
     minSymbols := v; reqStartUpperEndSymbol := reqStartUpperEndSymbol q;
     reqNoConsecutiveChars := reqNoConsecutiveChars q;
     reqPalindrome := reqPalindrome q; reqDigitSum := reqDigitSum q;
     digitSumTarget := digitSumTarget q |}.
Definition set_reqStartUpperEndSymbol (v : bool) (q : Requirements) : Requirements :=
  {| minLength := minLength q; minUppercase := minUppercase q;
     minLowercase := minLowercase q; minDigits := minDigits q;
     minSymbols := minSymbols q; reqStartUpperEndSymbol := v;
     reqNoConsecutiveChars := reqNoConsecutiveChars q;
     reqPalindrome := reqPalindrome q; reqDigitSum := reqDigitSum q;
     digitSumTarget := digitSumTarget q |}.
Definition set_reqNoConsecutiveChars (v : bool) (q : Requirements) : Requirements :=
  {| minLength := minLength q; minUppercase := minUppercase q;
     minLowercase := minLowercase q; minDigits := minDigits q;
     minSymbols := minSymbols q;
     reqStartUpperEndSymbol := reqStartUpperEndSymbol q;
     reqNoConsecutiveChars := v; reqPalindrome := reqPalindrome q;
     reqDigitSum := reqDigitSum q; digitSumTarget := digitSumTarget q |}.
Definition set_reqPalindrome (v : bool) (q : Requirements) : Requirements :=
  {| minLength := minLength q; minUppercase := minUppercase q;
     minLowercase := minLowercase q; minDigits := minDigits q;
     minSymbols := minSymbols q;
     reqStartUpperEndSymbol := reqStartUpperEndSymbol q;
     reqNoConsecutiveChars := reqNoConsecutiveChars q; reqPalindrome := v;
     reqDigitSum := reqDigitSum q; digitSumTarget := digitSumTarget q |}.
Definition set_reqDigitSum (v : bool) (q : Requirements) : Requirements :=
  {| minLength := minLength q; minUppercase := minUppercase q;
     minLowercase := minLowercase q; minDigits := minDigits q;
     minSymbols := minSymbols q;
     reqStartUpperEndSymbol := reqStartUpperEndSymbol q;
     reqNoConsecutiveChars := reqNoConsecutiveChars q;
     reqPalindrome := reqPalindrome q; reqDigitSum := v;
     digitSumTarget := digitSumTarget q |}.
Definition set_digitSumTarget (v : Z) (q : Requirements) : Requirements :=
  {| minLength := minLength q; minUppercase := minUppercase q;
     minLowercase := minLowercase q; minDigits := minDigits q;
     minSymbols := minSymbols q;
     reqStartUpperEndSymbol := reqStartUpperEndSymbol q;
     reqNoConsecutiveChars := reqNoConsecutiveChars q;
     reqPalindrome := reqPalindrome q; reqDigitSum := reqDigitSum q;
     digitSumTarget := v |}.

(** The object literal [reqs] starts from. *)
Definition initial : Requirements :=
  {| minLength := 0; minUppercase := 0; minLowercase := 0; minDigits := 0;
     minSymbols := 0;
     reqStartUpperEndSymbol := false; reqNoConsecutiveChars := false;
     reqPalindrome := false; reqDigitSum := false; digitSumTarget := 0 |}.

(** "Basic Requirements"; [Math.floor(round / 2)] is the floor division
    of [Z]. *)
Definition basicRequirements (round : Z) (reqs : Requirements) : Requirements :=
  let reqs := set_minLength (BASE_MIN_LEN + round + round / 2) reqs in
  let reqs := set_minUppercase (1 + round / 2) reqs in
  let reqs := set_minLowercase (1 + round / 2) reqs in
  let reqs := set_minDigits (1 + round / 3) reqs in
  let reqs := set_minSymbols (if round >? 1 then 1 + (round - 1) / 3 else 0) reqs in
  reqs.

(** [minCharSum = ...; if (reqs.minLength < minCharSum) reqs.minLength = minCharSum;] *)
Definition clampMinLength (reqs : Requirements) : Requirements :=
  let minCharSum :=
    minUppercase reqs + minLowercase reqs + minDigits reqs + minSymbols reqs in
  if minLength reqs <? minCharSum then set_minLength minCharSum reqs else reqs.

(** Numbers that are no integers.  A Number is an IEEE 754 double: a
    multiple [m * 2^e] of a power of two with [|m| < 2^53] and
    [-1074 <= e <= 971].  The result of an arithmetic operation is the
    double nearest to the exact result, the one with the even [m] of two
    that are as near.

    [round_ties_even y] is the integer nearest to [y], the even one of two
    that are as near. *)
Definition round_ties_even (y : Q) : Z :=
  let f := Qfloor y in
  match (y - inject_Z f ?= 1 # 2)%Q with
  | Lt => f
  | Gt => f + 1
  | Eq => if Z.even f then f else f + 1
  end.

(** The double nearest to [x], for [0 <= x] below the largest double.  In
    units of the smallest positive double, [2^-1074], [x] is [y]; the
    doubles from [2^k] to [2^(k+1)] units are the multiples of
    [2^(k-52)] units, and up to [2^53] units every integer is one. *)
Definition nearest_double (x : Q) : Q :=
  let y := (x * inject_Z (2 ^ 1074))%Q in
  let j := Z.max 0 (Z.log2 (Qfloor y) - 52) in
  (inject_Z (round_ties_even (y / inject_Z (2 ^ j)) * 2 ^ j)
   / inject_Z (2 ^ 1074))%Q.

Definition to_double (x : Q) : Q :=
  if Qle_bool 0 x then nearest_double x else (- nearest_double (- x))%Q.

(** [x * y] for two doubles. *)
Definition times (x y : Q) : Q := to_double (x * y).

(** [Math.floor(x)] *)
Definition Math_floor (x : Q) : Z := Qfloor x.

(** "Ridiculous Requirements".  [random] is the double that the call
    [Math.random()] returns. *)
Definition ridiculousRequirements (random : Q) (round : Z) (reqs : Requirements)
  : Requirements :=
  let reqs :=
    if round >=? 3 then
      let reqs := set_reqStartUpperEndSymbol true reqs in
      let reqs := if minLength reqs <? 2 then set_minLength 2 reqs else reqs in
      let reqs := if minUppercase reqs <? 1 then set_minUppercase 1 reqs else reqs in
      let reqs := if minSymbols reqs <? 1 then set_minSymbols 1 reqs else reqs in
      reqs
    else reqs in
  let reqs := if round >=? 4 then set_reqNoConsecutiveChars true reqs else reqs in
  let reqs := if round =? 5 then set_reqPalindrome true reqs else reqs in
  let reqs :=
    if round >=? 7 then
      let reqs := set_reqDigitSum true reqs in
      let reqs := if minDigits reqs <? 1 then set_minDigits 1 reqs else reqs in
      set_digitSumTarget
        (5 + round / 2
         + Math_floor (times random (inject_Z (round * 2 + 1)))) reqs
    else reqs in
  reqs.

(** [function generateRequirements(round)], section by section; the
    [console.log] line is left out. *)
Definition generateRequirements (random : Q) (round : Z) : Requirements :=
  let reqs := initial in
  let reqs := basicRequirements round reqs in
  let reqs := clampMinLength reqs in
  let reqs := ridiculousRequirements random round reqs in
  let reqs := clampMinLength reqs in
  reqs.

(** *** Characters and strings: a string is the list of its code units *)

(** The character classes of the regular expressions [/[A-Z]/], [/[a-z]/],
    [/[0-9]/] and [\s]. *)
Definition re_upper (c : N) : bool := ((65 <=? c) && (c <=? 90))%N.
Definition re_lower (c : N) : bool := ((97 <=? c) && (c <=? 122))%N.
Definition re_digit (c : N) : bool := ((48 <=? c) && (c <=? 57))%N.
Definition re_space (c : N) : bool :=
  (((9 <=? c) && (c <=? 13)) || (c =? 32) || (c =? 160) || (c =? 5760)
   || ((8192 <=? c) && (c <=? 8202)) || (c =? 8232) || (c =? 8233)
   || (c =? 8239) || (c =? 8287) || (c =? 12288) || (c =? 65279))%N.

(** [function isSymbol(char) { return !/[a-zA-Z0-9\s]/.test(char); }] *)
Definition isSymbol (char : N) : bool :=
  negb (re_lower char || re_upper char || re_digit char || re_space char).

(** [password[i]] inside the string; outside of it JavaScript yields
    [undefined], which the model does not follow: a [Fault]. *)
Definition char_at (password : list N) (i : Z) : outcome N :=
  if (0 <=? i) && (i <? Z.of_nat (length password))
  then Continue (nth (Z.to_nat i) password 0%N)
  else Fault.

(** [/^[A-Z]/.test(password)] *)
Definition starts_upper (password : list N) : bool :=
  match password with
  | [] => false
  | c :: _ => re_upper c
  end.

(** [a === b] on strings. *)
Fixpoint str_eqb (a b : list N) : bool :=
  match a, b with
  | [], [] => true
  | x :: a', y :: b' => (x =? y)%N && str_eqb a' b'
  | _, _ => false
  end.

(** *** The validator *)

Record counters : Type := {
  upperCount : Z;
  lowerCount : Z;
  digitCount : Z;
  symbolCount : Z;
  currentDigitSum : Z
}.

Definition no_counts : counters :=
  {| upperCount := 0; lowerCount := 0; digitCount := 0; symbolCount := 0;
     currentDigitSum := 0 |}.

(** The body of the counting loop; [parseInt(char, 10)] of a digit is its
    code minus the code of "0". *)
Definition count_char (c : counters) (char : N) : counters :=
  if re_upper char then
    {| upperCount := upperCount c + 1; lowerCount := lowerCount c;
       digitCount := digitCount c; symbolCount := symbolCount c;
       currentDigitSum := currentDigitSum c |}
  else if re_lower char then
    {| upperCount := upperCount c; lowerCount := lowerCount c + 1;
       digitCount := digitCount c; symbolCount := symbolCount c;
       currentDigitSum := currentDigitSum c |}
  else if re_digit char then
    {| upperCount := upperCount c; lowerCount := lowerCount c;
       digitCount := digitCount c + 1; symbolCount := symbolCount c;
       currentDigitSum := currentDigitSum c + (Z.of_N char - 48) |}
  else if isSymbol char then
    {| upperCount := upperCount c; lowerCount := lowerCount c;
       digitCount := digitCount c; symbolCount := symbolCount c + 1;
       currentDigitSum := currentDigitSum c |}
  else c.

(** [function validatePassword(password, reqs)] *)
Definition validatePassword (password : list N) (reqs : Requirements)
  : option Verdict :=
  finish (
    let len := Z.of_nat (length password) in
    (* for (let i = 0; i < len; i++) { const char = password[i]; ... } *)
    let c := fold_left count_char password no_counts in
    fail_if (len <? minLength reqs) (TooShort len (minLength reqs)) ;;
    fail_if (upperCount c <? minUppercase reqs)
            (NotEnoughUppercase (upperCount c) (minUppercase reqs)) ;;
    fail_if (lowerCount c <? minLowercase reqs)
            (NotEnoughLowercase (lowerCount c) (minLowercase reqs)) ;;
    fail_if (digitCount c <? minDigits reqs)
            (NotEnoughDigits (digitCount c) (minDigits reqs)) ;;
    fail_if (symbolCount c <? minSymbols reqs)
            (NotEnoughSymbols (symbolCount c) (minSymbols reqs)) ;;
    when (reqStartUpperEndSymbol reqs) (
      fail_if (len =? 0) EmptyStartEnd ;;
      fail_if (negb (starts_upper password)) MustStartUppercase ;;
      last <- char_at password (len - 1) ;;
      fail_if (negb (isSymbol last)) MustEndSymbol) ;;
    when (reqNoConsecutiveChars reqs) (
      for_range 0 (len - 1) (fun i =>
        a <- char_at password i ;;
        b <- char_at password (i + 1) ;;
        fail_if (a =? b)%N (ConsecutiveChars a i))) ;;
    when (reqPalindrome reqs) (
      let reversedPassword := rev password in
      fail_if (negb (str_eqb password reversedPassword)) NotPalindrome) ;;
    when (reqDigitSum reqs) (
      fail_if (negb (currentDigitSum c =? digitSumTarget reqs))
              (DigitSumMismatch (currentDigitSum c) (digitSumTarget reqs)) ;;
      fail_if ((minDigits reqs =? 0) && negb (digitSumTarget reqs =? 0))
              ImpossibleDigitSum) ;;
    Continue tt)%outcome.

End JS.

(** ** The validator as section 4.2 of the specification words it

    Nine checks, tried in the order of the list [checks]; the verdict is the
    first failure, or [Valid] when no check fails.  A check is [None] when it
    passes.  The character classes are a parameter: the two front-ends do
    not use the same ones. *)
Module Checks.

Record classes : Type := {
  is_upper : N -> bool;
  is_lower : N -> bool;
  is_digit : N -> bool;
  is_symbol : N -> bool
}.

(** First position [i] with [password[i] = password[i+1]], positions
    counted from [i]. *)
Fixpoint first_repeat (i : Z) (password : list N) : option Failure :=
  match password with
  | [] => None
  | a :: rest =>
    match rest with
    | [] => None
    | b :: _ =>
      if (a =? b)%N then Some (ConsecutiveChars a i)
      else first_repeat (i + 1) rest
    end
  end.

Fixpoint first_failure (results : list (option Failure)) : Verdict :=
  match results with
  | [] => Valid
  | Some f :: _ => Invalid f
  | None :: rest => first_failure rest
  end.

Section Validate.
Variable k : classes.
Variable password : list N.
Variable reqs : Requirements.

Definition len : Z := Z.of_nat (length password).

(** Number of characters of a class. *)
Definition count (p : N -> bool) : Z := Z.of_nat (length (filter p password)).

(** Sum of the values of the decimal digits. *)
Definition digit_sum : Z :=
  fold_right Z.add 0 (map (fun c => Z.of_N c - 48) (filter (is_digit k) password)).

Definition check_length : option Failure :=
  if len <? minLength reqs then Some (TooShort len (minLength reqs)) else None.

Definition check_uppercase : option Failure :=
  if count (is_upper k) <? minUppercase reqs
  then Some (NotEnoughUppercase (count (is_upper k)) (minUppercase reqs)) else None.

Definition check_lowercase : option Failure :=
  if count (is_lower k) <? minLowercase reqs
  then Some (NotEnoughLowercase (count (is_lower k)) (minLowercase reqs)) else None.

Definition check_digits : option Failure :=
  if count (is_digit k) <? minDigits reqs
  then Some (NotEnoughDigits (count (is_digit k)) (minDigits reqs)) else None.

Definition check_symbols : option Failure :=
  if count (is_symbol k) <? minSymbols reqs
  then Some (NotEnoughSymbols (count (is_symbol k)) (minSymbols reqs)) else None.

Definition check_start_end : option Failure :=
  if reqStartUpperEndSymbol reqs then
    match password with
    | [] => Some EmptyStartEnd
    | first :: _ =>
      if negb (is_upper k first) then Some MustStartUppercase
      else if negb (is_symbol k (last password first)) then Some MustEndSymbol
      else None
    end
  else None.

Definition check_no_consecutive : option Failure :=
  if reqNoConsecutiveChars reqs then first_repeat 0 password else None.

Definition check_palindrome : option Failure :=
  if reqPalindrome reqs then
    if list_eq_dec N.eq_dec password (rev password) then None
    else Some NotPalindrome
  else None.

(** The mismatch is tested before the unsatisfiable configuration, as
    both front-ends do. *)
Definition check_digit_sum : option Failure :=
  if reqDigitSum reqs then
    if negb (digit_sum =? digitSumTarget reqs)
    then Some (DigitSumMismatch digit_sum (digitSumTarget reqs))
    else if (minDigits reqs =? 0) && negb (digitSumTarget reqs =? 0)
    then Some ImpossibleDigitSum
    else None
  else None.

Definition checks : list (option Failure) :=
  [ check_length; check_uppercase; check_lowercase; check_digits;
    check_symbols; check_start_end; check_no_consecutive;
    check_palindrome; check_digit_sum ].

Definition validate : Verdict := first_failure checks.

End Validate.

(** The classes of [<ctype.h>] and of the browser front-end, on character
    codes. *)
Definition c_classes : classes :=
  {| is_upper := fun n => C.isupper (ascii_of_N n);
     is_lower := fun n => C.islower (ascii_of_N n);
     is_digit := fun n => C.isdigit (ascii_of_N n);
     is_symbol := fun n => C.ispunct (ascii_of_N n) |}.

Definition js_classes : classes :=
  {| is_upper := JS.re_upper; is_lower := JS.re_lower;
     is_digit := JS.re_digit; is_symbol := JS.isSymbol |}.

End Checks.

(** The code units of the JavaScript string that holds the same text as a C
    string of ASCII characters. *)
Definition codes (s : list ascii) : list N := map N_of_ascii s.

(** ** Definitions used in the statements and proofs below *)

(** The requirements of round [r >= 1] in closed form; [target] is the digit
    sum target of a round with that rule. *)
Definition round_requirements (r target : Z) : Requirements :=
  let up := 1 + r / 2 in
  let lo := 1 + r / 2 in
  let di := 1 + r / 3 in
  let sy := if r =? 1 then 0 else 1 + (r - 1) / 3 in
  {| minLength := Z.max (6 + r + r / 2) (up + lo + di + sy);
     minUppercase := up; minLowercase := lo; minDigits := di; minSymbols := sy;
     reqStartUpperEndSymbol := 3 <=? r;
     reqNoConsecutiveChars := 4 <=? r;
     reqPalindrome := r =? 5;
     reqDigitSum := 7 <=? r;
     digitSumTarget := if 7 <=? r then target else 0 |}.

(** The special rules of [JS.ridiculousRequirements] one by one: the
    start/end rule of round 3 and later. *)
Definition js_start_end_rule (round : Z) (reqs : Requirements) : Requirements :=
  if round >=? 3 then
    let reqs := JS.set_reqStartUpperEndSymbol true reqs in
    let reqs := if minLength reqs <? 2 then JS.set_minLength 2 reqs else reqs in
    let reqs := if minUppercase reqs <? 1 then JS.set_minUppercase 1 reqs else reqs in
    let reqs := if minSymbols reqs <? 1 then JS.set_minSymbols 1 reqs else reqs in
    reqs
  else reqs.

(** The digit sum rule of round 7 and later, in the browser front-end. *)
Definition js_digit_sum_rule (random : Q) (round : Z) (reqs : Requirements)
  : Requirements :=
  if round >=? 7 then
    let reqs := JS.set_reqDigitSum true reqs in
    let reqs := if minDigits reqs <? 1 then JS.set_minDigits 1 reqs else reqs in
    JS.set_digitSumTarget
      (5 + round / 2
       + JS.Math_floor (JS.times random (inject_Z (round * 2 + 1)))) reqs
  else reqs.

(** The special rules of [C.ridiculous_requirements] one by one: the
    start/end rule of round 3 and later. *)
Definition c_start_end_rule (round : Z) (q : C.PasswordRequirements)
  : C.PasswordRequirements :=
  if round >=? 3 then
    let q := C.set_req_start_upper_end_symbol 1 q in
    let q := if C.min_length q <? 2 then C.set_min_length 2 q else q in
    let q := if C.min_uppercase q <? 1 then C.set_min_uppercase 1 q else q in
    let q := if C.min_symbols q <? 1 then C.set_min_symbols 1 q else q in
    q
  else q.

(** The digit sum rule of round 7 and later, in [pw.c]. *)
Definition c_digit_sum_rule (rnd round : Z) (q : C.PasswordRequirements)
  : option C.PasswordRequirements :=
  if round >=? 7 then
    let q := C.set_req_digit_sum 1 q in
    let q := if C.min_digits q <? 1 then C.set_min_digits 1 q else q in
    (target <- 5 + (round / 2) + (rnd % (round * 2 + 1)) ;;
     Some (C.set_digit_sum_target target q))%cint
  else Some q.

(** The largest round whose requirements [C.generate_requirements] can
    compute whatever [rand()] returns: [5 + r/2 + 2r] must fit an [int]. *)
Definition c_max_round : Z := 858993457.

(** The draw of the browser front-end for the digit sum target of round
    [r]: [Math.floor(Math.random() * (round * 2 + 1))]. *)
Definition js_draw (u : Q) (r : Z) : Z :=
  JS.Math_floor (JS.times u (inject_Z (r * 2 + 1))).

(** The rational [x] is a double: [m * 2^e] with [|m| < 2^53] and
    [-1074 <= e <= 971], the exponent [e] being [j - 1074]. *)
Definition is_double (x : Q) : Prop :=
  exists m j : Z,
    Z.abs m < 2 ^ 53 /\ 0 <= j <= 2045
    /\ (x * inject_Z (2 ^ 1074) == inject_Z (m * 2 ^ j))%Q.

(** The largest round for which [round * 2 + 1] is below [2^53], where
    every integer is a double. *)
Definition js_max_round : Z := 4503599627370495.

(** The largest number of characters of a C string for which no [int] of
    [validate_password] can overflow: nine times as much is the largest
    digit sum, and [9 * 238609294 <= INT_MAX < 9 * 238609295]. *)
Definition c_max_strlen : Z := 238609294.

(** A string of [n] digits 9. *)
Definition nines (n : Z) : list ascii := repeat "9"%char (Z.to_nat n).

(** The counters after [i] characters: each is at most [i], and the digit
    sum at most [9 * i]. *)
Definition counted (c : C.counters) (i : Z) : Prop :=
  0 <= C.upper_count c <= i /\ 0 <= C.lower_count c <= i
  /\ 0 <= C.digit_count c <= i /\ 0 <= C.symbol_count c <= i
  /\ 0 <= C.current_digit_sum c <= 9 * i.

(** A value of [Math.random()] just below [16/17]: the double
    [4238682002231055 * 2^-52]. *)
Definition near_sixteen_seventeenths : Q :=
  4238682002231055 # 4503599627370496.

(** The block that a check stands for: leave with the failure, or go on. *)
Definition of_check (c : option Failure) : outcome unit :=
  match c with
  | Some f => Return (Invalid f)
  | None => Continue tt
  end.

(** Two families of classes agree on the character [c]. *)
Definition same_classes (k k' : Checks.classes) (c : N) : Prop :=
  Checks.is_upper k c = Checks.is_upper k' c
  /\ Checks.is_lower k c = Checks.is_lower k' c
  /\ Checks.is_digit k c = Checks.is_digit k' c
  /\ Checks.is_symbol k c = Checks.is_symbol k' c.

(** The requirements [generate_requirements] leaves for round 7 when
    [rand()] returns 3. *)
Definition c_round7 : C.PasswordRequirements :=
  {| C.min_length := 16; C.min_uppercase := 4; C.min_lowercase := 4;
     C.min_digits := 3; C.min_symbols := 3;
     C.req_start_upper_end_symbol := 1; C.req_no_consecutive_chars := 1;
     C.req_palindrome := 0; C.req_digit_sum := 1; C.digit_sum_target := 11 |}.

(** The requirements of round 1. *)
Definition c_round1 : C.PasswordRequirements :=
  {| C.min_length := 7; C.min_uppercase := 1; C.min_lowercase := 1;
     C.min_digits := 1; C.min_symbols := 0;
     C.req_start_upper_end_symbol := 0; C.req_no_consecutive_chars := 0;
     C.req_palindrome := 0; C.req_digit_sum := 0; C.digit_sum_target := 0 |}.

(** Requirements with only the digit sum rule: a target of 5 and no digit
    required. *)
Definition digit_sum_only : C.PasswordRequirements :=
  {| C.min_length := 0; C.min_uppercase := 0; C.min_lowercase := 0;
     C.min_digits := 0; C.min_symbols := 0;
     C.req_start_upper_end_symbol := 0; C.req_no_consecutive_chars := 0;
     C.req_palindrome := 0; C.req_digit_sum := 1; C.digit_sum_target := 5 |}.

(** Requirements that ask for one symbol and nothing else. *)
Definition one_symbol : C.PasswordRequirements :=
  {| C.min_length := 0; C.min_uppercase := 0; C.min_lowercase := 0;
     C.min_digits := 0; C.min_symbols := 1;
     C.req_start_upper_end_symbol := 0; C.req_no_consecutive_chars := 0;
     C.req_palindrome := 0; C.req_digit_sum := 0; C.digit_sum_target := 0 |}.

(** Requirements that ask for four characters, one of them an uppercase
    letter. *)
Definition four_chars_one_upper : C.PasswordRequirements :=
  {| C.min_length := 4; C.min_uppercase := 1; C.min_lowercase := 0;
     C.min_digits := 0; C.min_symbols := 0;
     C.req_start_upper_end_symbol := 0; C.req_no_consecutive_chars := 0;
     C.req_palindrome := 0; C.req_digit_sum := 0; C.digit_sum_target := 0 |}.

(** The control character SOH, code 1. *)
Definition soh : ascii := ascii_of_N 1.

(** * The games around the generators and the validators *)

(** ** What the requirements ask of a password *)

(** The sum of the values of the digits of a C string and of a JavaScript
    string. *)
Definition c_digit_total (s : list ascii) : Z :=
  fold_right Z.add 0 (map (fun ch => C.code ch - 48) (filter C.isdigit s)).

Definition js_digit_total (s : list N) : Z :=
  fold_right Z.add 0 (map (fun ch => Z.of_N ch - 48) (filter JS.re_digit s)).

(** A C string meets the requirements [q]: what a player reads off the
    displayed rules. *)
Definition c_meets (s : list ascii) (q : C.PasswordRequirements) : Prop :=
  C.min_length q <= Z.of_nat (length s)
  /\ C.min_uppercase q <= Z.of_nat (length (filter C.isupper s))
  /\ C.min_lowercase q <= Z.of_nat (length (filter C.islower s))
  /\ C.min_digits q <= Z.of_nat (length (filter C.isdigit s))
  /\ C.min_symbols q <= Z.of_nat (length (filter C.ispunct s))
  /\ (C.req_start_upper_end_symbol q <> 0 ->
      exists first rest, s = first :: rest /\ C.isupper first = true
                         /\ C.ispunct (last s first) = true)
  /\ (C.req_no_consecutive_chars q <> 0 ->
      forall j : nat, (S j < length s)%nat -> nth j s zero <> nth (S j) s zero)
  /\ (C.req_palindrome q <> 0 -> s = rev s)
  /\ (C.req_digit_sum q <> 0 ->
      c_digit_total s = C.digit_sum_target q
      /\ (C.min_digits q = 0 -> C.digit_sum_target q = 0)).

(** A JavaScript string meets the requirements [q]. *)
Definition js_meets (s : list N) (q : Requirements) : Prop :=
  minLength q <= Z.of_nat (length s)
  /\ minUppercase q <= Z.of_nat (length (filter JS.re_upper s))
  /\ minLowercase q <= Z.of_nat (length (filter JS.re_lower s))
  /\ minDigits q <= Z.of_nat (length (filter JS.re_digit s))
  /\ minSymbols q <= Z.of_nat (length (filter JS.isSymbol s))
  /\ (reqStartUpperEndSymbol q = true ->
      exists first rest, s = first :: rest /\ JS.re_upper first = true
                         /\ JS.isSymbol (last s first) = true)
  /\ (reqNoConsecutiveChars q = true ->
      forall j : nat, (S j < length s)%nat -> nth j s 0%N <> nth (S j) s 0%N)
  /\ (reqPalindrome q = true -> s = rev s)
  /\ (reqDigitSum q = true ->
      js_digit_total s = digitSumTarget q
      /\ (minDigits q = 0 -> digitSumTarget q = 0)).

(** The requirements of round 5 in [pw.c]. *)
Definition c_round5 : C.PasswordRequirements :=
  {| C.min_length := 13; C.min_uppercase := 3; C.min_lowercase := 3;
     C.min_digits := 2; C.min_symbols := 2;
     C.req_start_upper_end_symbol := 1; C.req_no_consecutive_chars := 1;
     C.req_palindrome := 1; C.req_digit_sum := 0; C.digit_sum_target := 0 |}.

(** A password for each of the rounds 1 to 4. *)
Definition winning_password (round : Z) : list ascii :=
  if round =? 1 then
    ["A"; "b"; "c"; "d"; "e"; "f"; "1"]%char
  else if round =? 2 then
    ["A"; "B"; "c"; "d"; "1"; "!"; "x"; "y"; "z"]%char
  else if round =? 3 then
    ["A"; "B"; "c"; "d"; "1"; "2"; "x"; "y"; "z"; "!"]%char
  else
    ["A"; "B"; "C"; "d"; "e"; "f"; "1"; "2"; "x"; "y"; "@"; "!"]%char.

(** ** The rest of the terminal front-end: input, terminal flags, game loop

    - The calls [read(STDIN_FILENO, &ch, 1)] of a run are a list of
      [read_result]s, in the order of the calls; after the end of the list
      [read] returns 0 (end of input).  [Alarm] stands for a call by whose
      return SIGALRM has been delivered: [handle_timeout] has set
      [timed_out], which is tested before the result of the call.
    - [tcgetattr] and [tcsetattr] read and write the local flags of the
      terminal, a [tcflag_t] of 32 bits; the constant [ECHO] of
      [<termios.h>] is a parameter.
    - [rand] is the sequence of values that the calls of [rand()] return.
    - [int] arithmetic is checked as in the generator: [None] on overflow.
    - Of what is printed, the lines of [display_requirements] and the
      reason given at the end of the game are modelled; [sleep] and the
      arming of the alarm are left out. *)
Module Terminal.

Definition INITIAL_TIME : Z := 60.
Definition TIME_DECREMENT : Z := 5.
Definition MIN_TIME : Z := 10.
Definition MAX_PASSWORD_LEN : Z := 100.

Inductive read_result : Type :=
| Byte (ch : ascii)   (* one byte read *)
| Eof                 (* bytes_read == 0 *)
| Failed              (* bytes_read < 0 *)
| Alarm.              (* SIGALRM delivered, timed_out set *)

(** [void handle_timeout(int sig)]: the new value of [timed_out]. *)
Definition handle_timeout (timed_out : bool) : bool := true.

(** [buffer[i] = ch]; [None] outside of the array. *)
Fixpoint store (buffer : list ascii) (i : nat) (ch : ascii) : option (list ascii) :=
  match buffer, i with
  | [], _ => None
  | _ :: rest, O => Some (ch :: rest)
  | b :: rest, S i' => option_map (cons b) (store rest i' ch)
  end.

Definition store_at (buffer : list ascii) (i : Z) (ch : ascii) : option (list ascii) :=
  if i <? 0 then None else store buffer (Z.to_nat i) ch.

(** [memset(buffer, 0, n)]; [None] when the array has less than [n] bytes. *)
Fixpoint memset (buffer : list ascii) (n : nat) : option (list ascii) :=
  match n, buffer with
  | O, _ => Some buffer
  | S _, [] => None
  | S n', _ :: rest => option_map (cons zero) (memset rest n')
  end.

(** The lines that [display_requirements] prints, with the numbers they
    are formatted from. *)
Inductive line : Type :=
| TimeLimit (seconds : Z)
| RequirementsHeader
| MinimumLength (n : Z)
| MinimumUppercase (n : Z)
| MinimumLowercase (n : Z)
| MinimumDigits (n : Z)
| MinimumSymbols (n : Z)
| SpecialRulesHeader
| MustStartUppercase
| MustEndSymbol
| NoConsecutive
| MustBePalindrome
| DigitSum (n : Z)
| NoneThisRound.

(** [void display_requirements(const PasswordRequirements *reqs,
    int time_limit)]: the lines printed, in order. *)
Definition display_requirements (reqs : C.PasswordRequirements) (time_limit : Z)
  : list line :=
  [TimeLimit time_limit]
  ++ [RequirementsHeader]
  ++ [MinimumLength (C.min_length reqs)]
  ++ (if C.min_uppercase reqs >? 0
      then [MinimumUppercase (C.min_uppercase reqs)] else [])
  ++ (if C.min_lowercase reqs >? 0
      then [MinimumLowercase (C.min_lowercase reqs)] else [])
  ++ (if C.min_digits reqs >? 0
      then [MinimumDigits (C.min_digits reqs)] else [])
  ++ (if C.min_symbols reqs >? 0
      then [MinimumSymbols (C.min_symbols reqs)] else [])
  ++ [SpecialRulesHeader]
  ++ (if negb (C.req_start_upper_end_symbol reqs =? 0)
      then [MustStartUppercase; MustEndSymbol] else [])
  ++ (if negb (C.req_no_consecutive_chars reqs =? 0)
      then [NoConsecutive] else [])
  ++ (if negb (C.req_palindrome reqs =? 0) then [MustBePalindrome] else [])
  ++ (if negb (C.req_digit_sum reqs =? 0)
      then [DigitSum (C.digit_sum_target reqs)] else [])
  ++ (if (C.req_start_upper_end_symbol reqs =? 0)
         && (C.req_no_consecutive_chars reqs =? 0)
         && (C.req_palindrome reqs =? 0)
         && (C.req_digit_sum reqs =? 0)
      then [NoneThisRound] else []).

(** A value converted to [tcflag_t]. *)
Definition to_tcflag (z : Z) : Z := z mod 2 ^ 32.

(** What [get_hidden_input] returns and leaves behind. *)
Record input_outcome : Type := {
  result : Z;
  buffer_out : list ascii;
  c_lflag_out : Z;
  timed_out_out : bool;
  stdin_out : list read_result
}.

Section Termios.
Variable ECHO : Z.

(** [void set_terminal_echo(int enable)]: the new local flags. *)
Definition set_terminal_echo (enable : Z) (c_lflag : Z) : Z :=
  if enable =? 0
  then Z.land c_lflag (to_tcflag (Z.lnot ECHO))
  else Z.lor c_lflag (to_tcflag ECHO).

(** The three ways out of [get_hidden_input] once the echo is off. *)
Definition timeout_exit (stdin : list read_result) (buffer : list ascii) (i : Z)
           (c_lflag : Z) (timed_out : bool) : option input_outcome :=
  let c_lflag := set_terminal_echo 1 c_lflag in
  match store_at buffer i zero with
  | None => None
  | Some buffer =>
    Some {| result := 0; buffer_out := buffer; c_lflag_out := c_lflag;
            timed_out_out := timed_out; stdin_out := stdin |}
  end.

Definition error_exit (stdin : list read_result) (buffer : list ascii)
           (c_lflag : Z) (timed_out : bool) : option input_outcome :=
  let c_lflag := set_terminal_echo 1 c_lflag in
  Some {| result := -1; buffer_out := buffer; c_lflag_out := c_lflag;
          timed_out_out := timed_out; stdin_out := stdin |}.

Definition normal_exit (stdin : list read_result) (buffer : list ascii) (i : Z)
           (c_lflag : Z) (timed_out : bool) : option input_outcome :=
  match store_at buffer i zero with
  | None => None
  | Some buffer =>
    let c_lflag := set_terminal_echo 1 c_lflag in
    Some {| result := i; buffer_out := buffer; c_lflag_out := c_lflag;
            timed_out_out := timed_out; stdin_out := stdin |}
  end.

(** [while (i < max_len - 1) { ... }] and what follows it. *)
Fixpoint input_loop (max_len : Z) (stdin : list read_result) (buffer : list ascii)
         (i : Z) (c_lflag : Z) (timed_out : bool) : option input_outcome :=
  if i <? max_len - 1 then
    match stdin with
    | [] =>
      if timed_out then timeout_exit [] buffer i c_lflag timed_out
      else normal_exit [] buffer i c_lflag timed_out
    | r :: rest =>
      let timed_out :=
        match r with Alarm => handle_timeout timed_out | _ => timed_out end in
      if timed_out then timeout_exit rest buffer i c_lflag timed_out
      else
        match r with
        | Alarm => timeout_exit rest buffer i c_lflag timed_out
        | Failed => error_exit rest buffer c_lflag timed_out
        | Eof => normal_exit rest buffer i c_lflag timed_out
        | Byte ch =>
          if Ascii.eqb ch "010" || Ascii.eqb ch "013" then
            normal_exit rest buffer i c_lflag timed_out
          else if (C.code ch =? 127) || (C.code ch =? 8) then
            input_loop max_len rest buffer (if i >? 0 then i - 1 else i)
                       c_lflag timed_out
          else if C.isprint ch then
            match store_at buffer i ch with
            | None => None
            | Some buffer =>
              input_loop max_len rest buffer (i + 1) c_lflag timed_out
            end
          else input_loop max_len rest buffer i c_lflag timed_out
        end
    end
  else normal_exit stdin buffer i c_lflag timed_out.

(** [int get_hidden_input(char *buffer, int max_len)], for a [buffer] that
    is not NULL. *)
Definition get_hidden_input (buffer : list ascii) (max_len : Z) (c_lflag : Z)
           (timed_out : bool) (stdin : list read_result) : option input_outcome :=
  if max_len <=? 0 then
    Some {| result := -1; buffer_out := buffer; c_lflag_out := c_lflag;
            timed_out_out := timed_out; stdin_out := stdin |}
  else
    let c_lflag := set_terminal_echo 0 c_lflag in
    match memset buffer (Z.to_nat max_len) with
    | None => None
    | Some buffer => input_loop max_len stdin buffer 0 c_lflag timed_out
    end.

(** The variables of [main] and the world around it. *)
Record game : Type := {
  round : Z;
  current_time_limit : Z;
  successful_round : bool;
  timed_out : bool;
  password_buffer : list ascii;
  c_lflag : Z;
  stdin : list read_result;
  rand_calls : nat
}.

Variable rand : nat -> Z.
Variable late_alarm : Z -> bool.

(** The body of the loop of [main]; [None] when the behaviour of the C
    program is undefined.  [late_alarm r] tells whether, in round [r],
    SIGALRM is delivered after the last [read] has returned and before
    [alarm(0)] cancels it. *)
Definition play_round (g : game) : option game :=
  match C.generate_requirements (rand (rand_calls g)) (round g) with
  | None => None
  | Some current_reqs =>
    let rand_calls := if round g >=? 7 then S (rand_calls g) else rand_calls g in
    match get_hidden_input (password_buffer g) MAX_PASSWORD_LEN (c_lflag g)
                           false (stdin g) with
    | None => None
    | Some input =>
      let timed_out :=
        if late_alarm (round g) then handle_timeout (timed_out_out input)
        else timed_out_out input in
      let quit :=
        Some {| round := round g; current_time_limit := current_time_limit g;
                successful_round := false; timed_out := timed_out;
                password_buffer := buffer_out input;
                c_lflag := c_lflag_out input; stdin := stdin_out input;
                rand_calls := rand_calls |} in
      if timed_out then quit
      else if result input <=? 0 then quit
      else
        match C.validate_password (buffer_out input) current_reqs with
        | None => None
        | Some Valid =>
          (next_round <- round g + 1 ;;
           decreased <- current_time_limit g - TIME_DECREMENT ;;
           Some {| round := next_round;
                   current_time_limit :=
                     if decreased >? MIN_TIME then decreased else MIN_TIME;
                   successful_round := true; timed_out := timed_out;
                   password_buffer := buffer_out input;
                   c_lflag := c_lflag_out input; stdin := stdin_out input;
                   rand_calls := rand_calls |})%cint
        | Some (Invalid _) => quit
        end
    end
  end.

(** [while (successful_round) { ... }], for at most [n] rounds: the state
    after the loop, or, when [n] rounds do not end the game, nothing. *)
Fixpoint game_loop (n : nat) (g : game) : option game :=
  if successful_round g then
    match n with
    | O => None
    | S n' =>
      match play_round g with
      | None => None
      | Some g => game_loop n' g
      end
    end
  else Some g.

(** The state in which [main] enters its loop. *)
Definition start (password_buffer : list ascii) (c_lflag : Z)
           (stdin : list read_result) : game :=
  {| round := 1; current_time_limit := INITIAL_TIME; successful_round := true;
     timed_out := false; password_buffer := password_buffer;
     c_lflag := c_lflag; stdin := stdin; rand_calls := O |}.

End Termios.

(** What [main] prints after the loop: the reason, if any, and the number
    in "You completed %d round(s)". *)
Inductive reason : Type :=
| FailedRequirements (round : Z)
| RanOutOfTime (round : Z)
| NoReason.

Definition game_over (g : game) : reason :=
  if negb (successful_round g) && negb (timed_out g)
  then FailedRequirements (round g)
  else if timed_out g then RanOutOfTime (round g)
  else NoReason.

Definition completed (g : game) : Z := round g - 1.

End Terminal.

(** What [get_hidden_input] guarantees once it is past its argument check,
    for a buffer [buffer] and local flags [c_lflag] at the start. *)
Definition input_post (ECHO max_len : Z) (buffer : list ascii) (c_lflag : Z)
           (o : Terminal.input_outcome) : Prop :=
  length (Terminal.buffer_out o) = length buffer
  /\ skipn (Z.to_nat max_len) (Terminal.buffer_out o)
     = skipn (Z.to_nat max_len) buffer
  /\ Terminal.c_lflag_out o = Terminal.set_terminal_echo ECHO 1 c_lflag
  /\ (Terminal.timed_out_out o = true -> Terminal.result o = 0)
  /\ (Terminal.result o = -1
      \/ (0 <= Terminal.result o < max_len
          /\ (Terminal.timed_out_out o = false ->
              exists s tail,
                Terminal.buffer_out o = s ++ zero :: tail
                /\ Z.of_nat (length s) = Terminal.result o
                /\ Forall (fun ch => C.isprint ch = true) s))).

(** What a line editor makes of the keys typed so far: backspace and
    delete drop the last character, a printable character is appended, any
    other key is ignored. *)
Definition edit_key (typed : list ascii) (key : ascii) : list ascii :=
  if (C.code key =? 127) || (C.code key =? 8) then removelast typed
  else if C.isprint key then typed ++ [key]
  else typed.

Definition edit_line (keys : list ascii) : list ascii :=
  fold_left edit_key keys [].

Definition is_enter (key : ascii) : bool :=
  Ascii.eqb key "010" || Ascii.eqb key "013".

(** ** Rounds and time limits *)

(** The time limit of a round, as [startRound] of the browser front-end
    computes it from the number of the round. *)
Definition time_limit_of_round (round : Z) : Z :=
  Z.max Terminal.MIN_TIME
        (Terminal.INITIAL_TIME - (round - 1) * Terminal.TIME_DECREMENT).

(** What one round of [main] does to the state [g]: the game is over with
    round and time limit as they were, or the next round is reached with
    a password that was typed and accepted. *)
Definition round_played (rand : nat -> Z) (g g' : Terminal.game) : Prop :=
  length (Terminal.password_buffer g') = length (Terminal.password_buffer g)
  /\ ((Terminal.successful_round g' = false
       /\ Terminal.round g' = Terminal.round g
       /\ Terminal.current_time_limit g' = Terminal.current_time_limit g)
      \/ (Terminal.successful_round g' = true
          /\ Terminal.timed_out g' = false
          /\ Terminal.round g' = Terminal.round g + 1
          /\ Terminal.current_time_limit g'
             = Z.max Terminal.MIN_TIME
                     (Terminal.current_time_limit g - Terminal.TIME_DECREMENT)
          /\ exists q,
               C.generate_requirements (rand (Terminal.rand_calls g))
                                       (Terminal.round g) = Some q
               /\ C.validate_password (Terminal.password_buffer g') q
                  = Some Valid)).

(** ** The rest of the browser front-end: the page and its event handlers

    - The page is a record of the game state variables of the script, the
      pending timers of the window and what the script reads and writes of
      the seven elements it looks up.
    - Texts are constructors, with the numbers they are built from.
    - An event is what the browser dispatches: a click, a key, an edit of
      the password field, a timer that fires.  The browser dispatches no
      click to a disabled button and no key or edit to a disabled field,
      and a timer fires only while it is pending.
    - [console.log] and [focus()] are left out. *)
Module Browser.

Definition INITIAL_TIME : Z := 60.
Definition TIME_DECREMENT : Z := 5.
Definition MIN_TIME : Z := 10.

(** The texts of the start button. *)
Inductive label : Type :=
| StartGame        (* "Start Game" *)
| StartNextRound   (* "Start Next Round" *)
| PlayAgain.       (* "Play Again?" *)

(** The texts of the feedback line. *)
Inductive message : Type :=
| NoMessage                   (* the empty string *)
| ClickToBegin                (* "Click 'Start Game' to begin!" *)
| RoundComplete (round : Z)   (* "Success! Round ... complete! ..." *)
| TimesUp (round : Z)         (* "Time's up on Round ...! Game Over." *)
| Rejected (reason : Failure). (* the text [validatePassword] returned *)

(** The [type] argument of [displayFeedback] and the class it leaves on
    the feedback line. *)
Inductive message_type : Type := type_info | type_success | type_error.
Inductive message_class : Type := no_class | success_message | error_message.

(** The items of the requirements list; a number is [None] where the
    template prints [undefined]. *)
Inductive item : Type :=
| SpecialRulesTitle
| MinimumLength (n : option Z)
| MinimumUppercase (n : option Z)
| MinimumLowercase (n : option Z)
| MinimumDigits (n : option Z)
| MinimumSymbols (n : option Z)
| StartUpperEndSymbol
| NoConsecutive
| Palindrome
| DigitSum (n : option Z)
| NoSpecialRules
| ClickStartGame.

Record page : Type := {
  currentRound : Z;
  currentTimeLimit : Z;
  timerId : option nat;
  intervalId : option nat;
  currentRequirements : option Requirements;
  gameActive : bool;
  timeLeft : Z;
  nextId : nat;
  timeouts : list nat;
  intervals : list nat;
  roundNumberEl : Z;
  timerDisplayEl : option Z;
  timerDisplayEl_red : bool;
  requirementsListEl : list item;
  passwordInputEl : list N;
  passwordInputEl_disabled : bool;
  submitButtonEl_disabled : bool;
  feedbackMessageEl : message;
  feedbackMessageEl_class : message_class;
  startGameButtonEl : label;
  startGameButtonEl_disabled : bool
}.

Definition set_currentRound (v : Z) (p : page) : page :=
  {| currentRound := v; currentTimeLimit := currentTimeLimit p;
     timerId := timerId p; intervalId := intervalId p;
     currentRequirements := currentRequirements p;
     gameActive := gameActive p; timeLeft := timeLeft p; nextId := nextId p;
     timeouts := timeouts p; intervals := intervals p;
     roundNumberEl := roundNumberEl p; timerDisplayEl := timerDisplayEl p;
     timerDisplayEl_red := timerDisplayEl_red p;
     requirementsListEl := requirementsListEl p;
     passwordInputEl := passwordInputEl p;
     passwordInputEl_disabled := passwordInputEl_disabled p;
     submitButtonEl_disabled := submitButtonEl_disabled p;
     feedbackMessageEl := feedbackMessageEl p;
     feedbackMessageEl_class := feedbackMessageEl_class p;
     startGameButtonEl := startGameButtonEl p;
     startGameButtonEl_disabled := startGameButtonEl_disabled p |}.

Definition set_currentTimeLimit (v : Z) (p : page) : page :=
  {| currentRound := currentRound p; currentTimeLimit := v;
     timerId := timerId p; intervalId := intervalId p;
     currentRequirements := currentRequirements p;
     gameActive := gameActive p; timeLeft := timeLeft p; nextId := nextId p;
     timeouts := timeouts p; intervals := intervals p;
     roundNumberEl := roundNumberEl p; timerDisplayEl := timerDisplayEl p;
     timerDisplayEl_red := timerDisplayEl_red p;
     requirementsListEl := requirementsListEl p;
     passwordInputEl := passwordInputEl p;
     passwordInputEl_disabled := passwordInputEl_disabled p;
     submitButtonEl_disabled := submitButtonEl_disabled p;
     feedbackMessageEl := feedbackMessageEl p;
     feedbackMessageEl_class := feedbackMessageEl_class p;
     startGameButtonEl := startGameButtonEl p;
     startGameButtonEl_disabled := startGameButtonEl_disabled p |}.

Definition set_timerId (v : option nat) (p : page) : page :=
  {| currentRound := currentRound p; currentTimeLimit := currentTimeLimit p;
     timerId := v; intervalId := intervalId p;
     currentRequirements := currentRequirements p;
     gameActive := gameActive p; timeLeft := timeLeft p; nextId := nextId p;
     timeouts := timeouts p; intervals := intervals p;
     roundNumberEl := roundNumberEl p; timerDisplayEl := timerDisplayEl p;
     timerDisplayEl_red := timerDisplayEl_red p;
     requirementsListEl := requirementsListEl p;
     passwordInputEl := passwordInputEl p;
     passwordInputEl_disabled := passwordInputEl_disabled p;
     submitButtonEl_disabled := submitButtonEl_disabled p;
     feedbackMessageEl := feedbackMessageEl p;
     feedbackMessageEl_class := feedbackMessageEl_class p;
     startGameButtonEl := startGameButtonEl p;
     startGameButtonEl_disabled := startGameButtonEl_disabled p |}.

Definition set_intervalId (v : option nat) (p : page) : page :=
  {| currentRound := currentRound p; currentTimeLimit := currentTimeLimit p;
     timerId := timerId p; intervalId := v;
     currentRequirements := currentRequirements p;
     gameActive := gameActive p; timeLeft := timeLeft p; nextId := nextId p;
     timeouts := timeouts p; intervals := intervals p;
     roundNumberEl := roundNumberEl p; timerDisplayEl := timerDisplayEl p;
     timerDisplayEl_red := timerDisplayEl_red p;
     requirementsListEl := requirementsListEl p;
     passwordInputEl := passwordInputEl p;
     passwordInputEl_disabled := passwordInputEl_disabled p;
     submitButtonEl_disabled := submitButtonEl_disabled p;
     feedbackMessageEl := feedbackMessageEl p;
     feedbackMessageEl_class := feedbackMessageEl_class p;
     startGameButtonEl := startGameButtonEl p;
     startGameButtonEl_disabled := startGameButtonEl_disabled p |}.

Definition set_currentRequirements (v : option Requirements) (p : page) : page :=
  {| currentRound := currentRound p; currentTimeLimit := currentTimeLimit p;
     timerId := timerId p; intervalId := intervalId p;
     currentRequirements := v; gameActive := gameActive p;
     timeLeft := timeLeft p; nextId := nextId p; timeouts := timeouts p;
     intervals := intervals p; roundNumberEl := roundNumberEl p;
     timerDisplayEl := timerDisplayEl p;
     timerDisplayEl_red := timerDisplayEl_red p;
     requirementsListEl := requirementsListEl p;
     passwordInputEl := passwordInputEl p;
     passwordInputEl_disabled := passwordInputEl_disabled p;
     submitButtonEl_disabled := submitButtonEl_disabled p;
     feedbackMessageEl := feedbackMessageEl p;
     feedbackMessageEl_class := feedbackMessageEl_class p;
     startGameButtonEl := startGameButtonEl p;
     startGameButtonEl_disabled := startGameButtonEl_disabled p |}.

Definition set_gameActive (v : bool) (p : page) : page :=
  {| currentRound := currentRound p; currentTimeLimit := currentTimeLimit p;
     timerId := timerId p; intervalId := intervalId p;
     currentRequirements := currentRequirements p; gameActive := v;
     timeLeft := timeLeft p; nextId := nextId p; timeouts := timeouts p;
     intervals := intervals p; roundNumberEl := roundNumberEl p;
     timerDisplayEl := timerDisplayEl p;
     timerDisplayEl_red := timerDisplayEl_red p;
     requirementsListEl := requirementsListEl p;
     passwordInputEl := passwordInputEl p;
     passwordInputEl_disabled := passwordInputEl_disabled p;
     submitButtonEl_disabled := submitButtonEl_disabled p;
     feedbackMessageEl := feedbackMessageEl p;
     feedbackMessageEl_class := feedbackMessageEl_class p;
     startGameButtonEl := startGameButtonEl p;
     startGameButtonEl_disabled := startGameButtonEl_disabled p |}.

Definition set_timeLeft (v : Z) (p : page) : page :=
  {| currentRound := currentRound p; currentTimeLimit := currentTimeLimit p;
     timerId := timerId p; intervalId := intervalId p;
     currentRequirements := currentRequirements p;
     gameActive := gameActive p; timeLeft := v; nextId := nextId p;
     timeouts := timeouts p; intervals := intervals p;
     roundNumberEl := roundNumberEl p; timerDisplayEl := timerDisplayEl p;
     timerDisplayEl_red := timerDisplayEl_red p;
     requirementsListEl := requirementsListEl p;
     passwordInputEl := passwordInputEl p;
     passwordInputEl_disabled := passwordInputEl_disabled p;
     submitButtonEl_disabled := submitButtonEl_disabled p;
     feedbackMessageEl := feedbackMessageEl p;
     feedbackMessageEl_class := feedbackMessageEl_class p;
     startGameButtonEl := startGameButtonEl p;
     startGameButtonEl_disabled := startGameButtonEl_disabled p |}.

Definition set_nextId (v : nat) (p : page) : page :=
  {| currentRound := currentRound p; currentTimeLimit := currentTimeLimit p;
     timerId := timerId p; intervalId := intervalId p;
     currentRequirements := currentRequirements p;
     gameActive := gameActive p; timeLeft := timeLeft p; nextId := v;
     timeouts := timeouts p; intervals := intervals p;
     roundNumberEl := roundNumberEl p; timerDisplayEl := timerDisplayEl p;
     timerDisplayEl_red := timerDisplayEl_red p;
     requirementsListEl := requirementsListEl p;
     passwordInputEl := passwordInputEl p;
     passwordInputEl_disabled := passwordInputEl_disabled p;
     submitButtonEl_disabled := submitButtonEl_disabled p;
     feedbackMessageEl := feedbackMessageEl p;
     feedbackMessageEl_class := feedbackMessageEl_class p;
     startGameButtonEl := startGameButtonEl p;
     startGameButtonEl_disabled := startGameButtonEl_disabled p |}.

Definition set_timeouts (v : list nat) (p : page) : page :=
  {| currentRound := currentRound p; currentTimeLimit := currentTimeLimit p;
     timerId := timerId p; intervalId := intervalId p;
     currentRequirements := currentRequirements p;
     gameActive := gameActive p; timeLeft := timeLeft p; nextId := nextId p;
     timeouts := v; intervals := intervals p;
     roundNumberEl := roundNumberEl p; timerDisplayEl := timerDisplayEl p;
     timerDisplayEl_red := timerDisplayEl_red p;
     requirementsListEl := requirementsListEl p;
     passwordInputEl := passwordInputEl p;
     passwordInputEl_disabled := passwordInputEl_disabled p;
     submitButtonEl_disabled := submitButtonEl_disabled p;
     feedbackMessageEl := feedbackMessageEl p;
     feedbackMessageEl_class := feedbackMessageEl_class p;
     startGameButtonEl := startGameButtonEl p;
     startGameButtonEl_disabled := startGameButtonEl_disabled p |}.

Definition set_intervals (v : list nat) (p : page) : page :=
  {| currentRound := currentRound p; currentTimeLimit := currentTimeLimit p;
     timerId := timerId p; intervalId := intervalId p;
     currentRequirements := currentRequirements p;
     gameActive := gameActive p; timeLeft := timeLeft p; nextId := nextId p;
     timeouts := timeouts p; intervals := v;
     roundNumberEl := roundNumberEl p; timerDisplayEl := timerDisplayEl p;
     timerDisplayEl_red := timerDisplayEl_red p;
     requirementsListEl := requirementsListEl p;
     passwordInputEl := passwordInputEl p;
     passwordInputEl_disabled := passwordInputEl_disabled p;
     submitButtonEl_disabled := submitButtonEl_disabled p;
     feedbackMessageEl := feedbackMessageEl p;
     feedbackMessageEl_class := feedbackMessageEl_class p;
     startGameButtonEl := startGameButtonEl p;
     startGameButtonEl_disabled := startGameButtonEl_disabled p |}.

Definition set_roundNumberEl (v : Z) (p : page) : page :=
  {| currentRound := currentRound p; currentTimeLimit := currentTimeLimit p;
     timerId := timerId p; intervalId := intervalId p;
     currentRequirements := currentRequirements p;
     gameActive := gameActive p; timeLeft := timeLeft p; nextId := nextId p;
     timeouts := timeouts p; intervals := intervals p; roundNumberEl := v;
     timerDisplayEl := timerDisplayEl p;
     timerDisplayEl_red := timerDisplayEl_red p;
     requirementsListEl := requirementsListEl p;
     passwordInputEl := passwordInputEl p;
     passwordInputEl_disabled := passwordInputEl_disabled p;
     submitButtonEl_disabled := submitButtonEl_disabled p;
     feedbackMessageEl := feedbackMessageEl p;
     feedbackMessageEl_class := feedbackMessageEl_class p;
     startGameButtonEl := startGameButtonEl p;
     startGameButtonEl_disabled := startGameButtonEl_disabled p |}.

Definition set_timerDisplayEl (v : option Z) (p : page) : page :=
  {| currentRound := currentRound p; currentTimeLimit := currentTimeLimit p;
     timerId := timerId p; intervalId := intervalId p;
     currentRequirements := currentRequirements p;
     gameActive := gameActive p; timeLeft := timeLeft p; nextId := nextId p;
     timeouts := timeouts p; intervals := intervals p;
     roundNumberEl := roundNumberEl p; timerDisplayEl := v;
     timerDisplayEl_red := timerDisplayEl_red p;
     requirementsListEl := requirementsListEl p;
     passwordInputEl := passwordInputEl p;
     passwordInputEl_disabled := passwordInputEl_disabled p;
     submitButtonEl_disabled := submitButtonEl_disabled p;
     feedbackMessageEl := feedbackMessageEl p;
     feedbackMessageEl_class := feedbackMessageEl_class p;
     startGameButtonEl := startGameButtonEl p;
     startGameButtonEl_disabled := startGameButtonEl_disabled p |}.

Definition set_timerDisplayEl_red (v : bool) (p : page) : page :=
  {| currentRound := currentRound p; currentTimeLimit := currentTimeLimit p;
     timerId := timerId p; intervalId := intervalId p;
     currentRequirements := currentRequirements p;
     gameActive := gameActive p; timeLeft := timeLeft p; nextId := nextId p;
     timeouts := timeouts p; intervals := intervals p;
     roundNumberEl := roundNumberEl p; timerDisplayEl := timerDisplayEl p;
     timerDisplayEl_red := v; requirementsListEl := requirementsListEl p;
     passwordInputEl := passwordInputEl p;
     passwordInputEl_disabled := passwordInputEl_disabled p;
     submitButtonEl_disabled := submitButtonEl_disabled p;
     feedbackMessageEl := feedbackMessageEl p;
     feedbackMessageEl_class := feedbackMessageEl_class p;
     startGameButtonEl := startGameButtonEl p;
     startGameButtonEl_disabled := startGameButtonEl_disabled p |}.

Definition set_requirementsListEl (v : list item) (p : page) : page :=
  {| currentRound := currentRound p; currentTimeLimit := currentTimeLimit p;
     timerId := timerId p; intervalId := intervalId p;
     currentRequirements := currentRequirements p;
     gameActive := gameActive p; timeLeft := timeLeft p; nextId := nextId p;
     timeouts := timeouts p; intervals := intervals p;
     roundNumberEl := roundNumberEl p; timerDisplayEl := timerDisplayEl p;
     timerDisplayEl_red := timerDisplayEl_red p; requirementsListEl := v;
     passwordInputEl := passwordInputEl p;
     passwordInputEl_disabled := passwordInputEl_disabled p;
     submitButtonEl_disabled := submitButtonEl_disabled p;
     feedbackMessageEl := feedbackMessageEl p;
     feedbackMessageEl_class := feedbackMessageEl_class p;
     startGameButtonEl := startGameButtonEl p;
     startGameButtonEl_disabled := startGameButtonEl_disabled p |}.

Definition set_passwordInputEl (v : list N) (p : page) : page :=
  {| currentRound := currentRound p; currentTimeLimit := currentTimeLimit p;
     timerId := timerId p; intervalId := intervalId p;
     currentRequirements := currentRequirements p;
     gameActive := gameActive p; timeLeft := timeLeft p; nextId := nextId p;
     timeouts := timeouts p; intervals := intervals p;
     roundNumberEl := roundNumberEl p; timerDisplayEl := timerDisplayEl p;
     timerDisplayEl_red := timerDisplayEl_red p;
     requirementsListEl := requirementsListEl p; passwordInputEl := v;
     passwordInputEl_disabled := passwordInputEl_disabled p;
     submitButtonEl_disabled := submitButtonEl_disabled p;
     feedbackMessageEl := feedbackMessageEl p;
     feedbackMessageEl_class := feedbackMessageEl_class p;
     startGameButtonEl := startGameButtonEl p;
     startGameButtonEl_disabled := startGameButtonEl_disabled p |}.

Definition set_passwordInputEl_disabled (v : bool) (p : page) : page :=
  {| currentRound := currentRound p; currentTimeLimit := currentTimeLimit p;
     timerId := timerId p; intervalId := intervalId p;
     currentRequirements := currentRequirements p;
     gameActive := gameActive p; timeLeft := timeLeft p; nextId := nextId p;
     timeouts := timeouts p; intervals := intervals p;
     roundNumberEl := roundNumberEl p; timerDisplayEl := timerDisplayEl p;
     timerDisplayEl_red := timerDisplayEl_red p;
     requirementsListEl := requirementsListEl p;
     passwordInputEl := passwordInputEl p; passwordInputEl_disabled := v;
     submitButtonEl_disabled := submitButtonEl_disabled p;
     feedbackMessageEl := feedbackMessageEl p;
     feedbackMessageEl_class := feedbackMessageEl_class p;
     startGameButtonEl := startGameButtonEl p;
     startGameButtonEl_disabled := startGameButtonEl_disabled p |}.

Definition set_submitButtonEl_disabled (v : bool) (p : page) : page :=
  {| currentRound := currentRound p; currentTimeLimit := currentTimeLimit p;
     timerId := timerId p; intervalId := intervalId p;
     currentRequirements := currentRequirements p;
     gameActive := gameActive p; timeLeft := timeLeft p; nextId := nextId p;
     timeouts := timeouts p; intervals := intervals p;
     roundNumberEl := roundNumberEl p; timerDisplayEl := timerDisplayEl p;
     timerDisplayEl_red := timerDisplayEl_red p;
     requirementsListEl := requirementsListEl p;
     passwordInputEl := passwordInputEl p;
     passwordInputEl_disabled := passwordInputEl_disabled p;
     submitButtonEl_disabled := v; feedbackMessageEl := feedbackMessageEl p;
     feedbackMessageEl_class := feedbackMessageEl_class p;
     startGameButtonEl := startGameButtonEl p;
     startGameButtonEl_disabled := startGameButtonEl_disabled p |}.

Definition set_feedbackMessageEl (v : message) (p : page) : page :=
  {| currentRound := currentRound p; currentTimeLimit := currentTimeLimit p;
     timerId := timerId p; intervalId := intervalId p;
     currentRequirements := currentRequirements p;
     gameActive := gameActive p; timeLeft := timeLeft p; nextId := nextId p;
     timeouts := timeouts p; intervals := intervals p;
     roundNumberEl := roundNumberEl p; timerDisplayEl := timerDisplayEl p;
     timerDisplayEl_red := timerDisplayEl_red p;
     requirementsListEl := requirementsListEl p;
     passwordInputEl := passwordInputEl p;
     passwordInputEl_disabled := passwordInputEl_disabled p;
     submitButtonEl_disabled := submitButtonEl_disabled p;
     feedbackMessageEl := v;
     feedbackMessageEl_class := feedbackMessageEl_class p;
     startGameButtonEl := startGameButtonEl p;
     startGameButtonEl_disabled := startGameButtonEl_disabled p |}.

Definition set_feedbackMessageEl_class (v : message_class) (p : page) : page :=
  {| currentRound := currentRound p; currentTimeLimit := currentTimeLimit p;
     timerId := timerId p; intervalId := intervalId p;
     currentRequirements := currentRequirements p;
     gameActive := gameActive p; timeLeft := timeLeft p; nextId := nextId p;
     timeouts := timeouts p; intervals := intervals p;
     roundNumberEl := roundNumberEl p; timerDisplayEl := timerDisplayEl p;
     timerDisplayEl_red := timerDisplayEl_red p;
     requirementsListEl := requirementsListEl p;
     passwordInputEl := passwordInputEl p;
     passwordInputEl_disabled := passwordInputEl_disabled p;
     submitButtonEl_disabled := submitButtonEl_disabled p;
     feedbackMessageEl := feedbackMessageEl p; feedbackMessageEl_class := v;
     startGameButtonEl := startGameButtonEl p;
     startGameButtonEl_disabled := startGameButtonEl_disabled p |}.

Definition set_startGameButtonEl (v : label) (p : page) : page :=
  {| currentRound := currentRound p; currentTimeLimit := currentTimeLimit p;
     timerId := timerId p; intervalId := intervalId p;
     currentRequirements := currentRequirements p;
     gameActive := gameActive p; timeLeft := timeLeft p; nextId := nextId p;
     timeouts := timeouts p; intervals := intervals p;
     roundNumberEl := roundNumberEl p; timerDisplayEl := timerDisplayEl p;
     timerDisplayEl_red := timerDisplayEl_red p;
     requirementsListEl := requirementsListEl p;
     passwordInputEl := passwordInputEl p;
     passwordInputEl_disabled := passwordInputEl_disabled p;
     submitButtonEl_disabled := submitButtonEl_disabled p;
     feedbackMessageEl := feedbackMessageEl p;
     feedbackMessageEl_class := feedbackMessageEl_class p;
     startGameButtonEl := v;
     startGameButtonEl_disabled := startGameButtonEl_disabled p |}.

Definition set_startGameButtonEl_disabled (v : bool) (p : page) : page :=
  {| currentRound := currentRound p; currentTimeLimit := currentTimeLimit p;
     timerId := timerId p; intervalId := intervalId p;
     currentRequirements := currentRequirements p;
     gameActive := gameActive p; timeLeft := timeLeft p; nextId := nextId p;
     timeouts := timeouts p; intervals := intervals p;
     roundNumberEl := roundNumberEl p; timerDisplayEl := timerDisplayEl p;
     timerDisplayEl_red := timerDisplayEl_red p;
     requirementsListEl := requirementsListEl p;
     passwordInputEl := passwordInputEl p;
     passwordInputEl_disabled := passwordInputEl_disabled p;
     submitButtonEl_disabled := submitButtonEl_disabled p;
     feedbackMessageEl := feedbackMessageEl p;
     feedbackMessageEl_class := feedbackMessageEl_class p;
     startGameButtonEl := startGameButtonEl p;
     startGameButtonEl_disabled := v |}.

(** *** Reading an object that may be the empty object *)

(** [reqs.field]: [None] is [undefined]. *)
Definition field {A} (get : Requirements -> A) (reqs : option Requirements)
  : option A :=
  option_map get reqs.

(** [v > 0]; false for [undefined]. *)
Definition positive (v : option Z) : bool :=
  match v with Some n => n >? 0 | None => false end.

(** [v] as a condition; [undefined] is falsy. *)
Definition truthy (v : option bool) : bool :=
  match v with Some b => b | None => false end.

(** *** Display *)

(** The inner function [addItem(text)], on the children of the list. *)
Definition addItem (text : item) (children : list item) : list item :=
  children ++ [text].

(** The children that [displayRequirements(reqs)] leaves in the
    requirements list, statement by statement. *)
Definition requirement_items (reqs : option Requirements) (currentRound : Z)
  : list item :=
  let children := [] in
  let children := addItem (MinimumLength (field minLength reqs)) children in
  let children :=
    if positive (field minUppercase reqs)
    then addItem (MinimumUppercase (field minUppercase reqs)) children
    else children in
  let children :=
    if positive (field minLowercase reqs)
    then addItem (MinimumLowercase (field minLowercase reqs)) children
    else children in
  let children :=
    if positive (field minDigits reqs)
    then addItem (MinimumDigits (field minDigits reqs)) children
    else children in
  let children :=
    if positive (field minSymbols reqs)
    then addItem (MinimumSymbols (field minSymbols reqs)) children
    else children in
  let specialRules := false in
  let '(children, specialRules) :=
    if truthy (field reqStartUpperEndSymbol reqs)
       || truthy (field reqNoConsecutiveChars reqs)
       || truthy (field reqPalindrome reqs)
       || truthy (field reqDigitSum reqs)
    then
      let children :=
        match children with
        | firstChild :: rest => SpecialRulesTitle :: firstChild :: rest
        | [] => [SpecialRulesTitle]
        end in
      (children, true)
    else (children, specialRules) in
  let children :=
    if truthy (field reqStartUpperEndSymbol reqs)
    then addItem StartUpperEndSymbol children else children in
  let children :=
    if truthy (field reqNoConsecutiveChars reqs)
    then addItem NoConsecutive children else children in
  let children :=
    if truthy (field reqPalindrome reqs)
    then addItem Palindrome children else children in
  let children :=
    if truthy (field reqDigitSum reqs)
    then addItem (DigitSum (field digitSumTarget reqs)) children
    else children in
  if negb specialRules && (currentRound >? 0)
  then addItem NoSpecialRules children
  else if currentRound =? 0 then addItem ClickStartGame children
  else children.

(** [function displayRequirements(reqs)] *)
Definition displayRequirements (reqs : option Requirements) (p : page) : page :=
  set_requirementsListEl (requirement_items reqs (currentRound p)) p.

(** [function updateTimerDisplay()]; the timer is red and bold exactly
    when the condition of the [if] holds. *)
Definition updateTimerDisplay (p : page) : page :=
  let p := set_timerDisplayEl
             (Some (if timeLeft p >=? 0 then timeLeft p else 0)) p in
  set_timerDisplayEl_red ((timeLeft p <=? 5) && (timeLeft p >? 0)) p.

(** [function displayFeedback(message, type = "info")] *)
Definition displayFeedback (text : message) (type : message_type) (p : page)
  : page :=
  let p := set_feedbackMessageEl text p in
  let p := set_feedbackMessageEl_class no_class p in
  match type with
  | type_error => set_feedbackMessageEl_class error_message p
  | type_success => set_feedbackMessageEl_class success_message p
  | type_info => p
  end.

(** *** Timers *)

(** A timer is cancelled by its identifier, whichever of [clearTimeout]
    and [clearInterval] is called; [null] is the identifier of no timer. *)
Definition cancel (id : option nat) (ids : list nat) : list nat :=
  match id with
  | Some i => filter (fun j => negb (Nat.eqb j i)) ids
  | None => ids
  end.

Definition clearTimeout (id : option nat) (p : page) : page :=
  let p := set_timeouts (cancel id (timeouts p)) p in
  set_intervals (cancel id (intervals p)) p.

Definition clearInterval (id : option nat) (p : page) : page :=
  clearTimeout id p.

(** [setInterval(callback, 1000)] and [setTimeout(handleTimeout, ...)]: the
    identifier and the page with the new timer. *)
Definition setInterval (p : page) : nat * page :=
  let id := nextId p in
  (id, set_nextId (S id) (set_intervals (id :: intervals p) p)).

Definition setTimeout (p : page) : nat * page :=
  let id := nextId p in
  (id, set_nextId (S id) (set_timeouts (id :: timeouts p) p)).

(** [function handleTimeout()] *)
Definition handleTimeout (p : page) : page :=
  let p := set_gameActive false p in
  let p := set_passwordInputEl_disabled true p in
  let p := set_submitButtonEl_disabled true p in
  let p := clearInterval (intervalId p) p in
  let p := set_timeLeft 0 p in
  let p := updateTimerDisplay p in
  let p := displayFeedback (TimesUp (currentRound p)) type_error p in
  let p := set_startGameButtonEl PlayAgain p in
  set_startGameButtonEl_disabled false p.

(** The callback of the interval timer in [startTimer]. *)
Definition tick (p : page) : page :=
  let p := set_timeLeft (timeLeft p - 1) p in
  let p := updateTimerDisplay p in
  if timeLeft p <=? 0 then clearInterval (intervalId p) p else p.

(** [function startTimer(seconds)] *)
Definition startTimer (seconds : Z) (p : page) : page :=
  let p := clearTimeout (timerId p) p in
  let p := clearInterval (intervalId p) p in
  let p := set_timeLeft seconds p in
  let p := updateTimerDisplay p in
  let '(id, p) := setInterval p in
  let p := set_intervalId (Some id) p in
  let '(id, p) := setTimeout p in
  set_timerId (Some id) p.

(** *** Rounds *)

(** [function startRound()]; [random] is what [Math.random()] returns if
    [generateRequirements] calls it. *)
Definition startRound (random : Q) (p : page) : page :=
  let p := set_gameActive true p in
  let p := set_passwordInputEl_disabled false p in
  let p := set_submitButtonEl_disabled false p in
  let p := set_passwordInputEl [] p in
  let p := displayFeedback NoMessage type_info p in
  let p := set_startGameButtonEl_disabled true p in
  let p := set_startGameButtonEl StartGame p in
  let p := set_currentRound (currentRound p + 1) p in
  let p := set_roundNumberEl (currentRound p) p in
  let p := set_currentTimeLimit
             (Z.max MIN_TIME
                    (INITIAL_TIME - (currentRound p - 1) * TIME_DECREMENT)) p in
  let p := set_currentRequirements
             (Some (JS.generateRequirements random (currentRound p))) p in
  let p := displayRequirements (currentRequirements p) p in
  startTimer (currentTimeLimit p) p.

(** [validatePassword(password, currentRequirements)]: on the empty object
    every comparison with a field is false and every flag is falsy, so the
    function returns [true]. *)
Definition validate (password : list N) (reqs : option Requirements)
  : option Verdict :=
  match reqs with
  | Some reqs => JS.validatePassword password reqs
  | None => Some Valid
  end.

(** [function handleSubmit()]; [None] when the validator faults. *)
Definition handleSubmit (p : page) : option page :=
  if negb (gameActive p) then Some p
  else
    let p := clearTimeout (timerId p) p in
    let p := clearInterval (intervalId p) p in
    let password := passwordInputEl p in
    match validate password (currentRequirements p) with
    | None => None
    | Some Valid =>
      let p := displayFeedback (RoundComplete (currentRound p)) type_success p in
      let p := set_passwordInputEl_disabled true p in
      let p := set_submitButtonEl_disabled true p in
      let p := set_startGameButtonEl StartNextRound p in
      Some (set_startGameButtonEl_disabled false p)
    | Some (Invalid validationResult) =>
      let p := set_gameActive false p in
      let p := displayFeedback (Rejected validationResult) type_error p in
      let p := set_passwordInputEl_disabled true p in
      let p := set_submitButtonEl_disabled true p in
      let p := set_startGameButtonEl PlayAgain p in
      Some (set_startGameButtonEl_disabled false p)
    end.

(** *** Event listeners *)

(** The [click] listener of the start button. *)
Definition start_click (random : Q) (p : page) : page :=
  let p := match startGameButtonEl p with
           | StartNextRound => p
           | _ => set_currentRound 0 p
           end in
  startRound random p.

(** The [keypress] listener of the password field; [enter] is
    [e.key === 'Enter']. *)
Definition keypress (enter : bool) (p : page) : option page :=
  if enter && gameActive p && negb (submitButtonEl_disabled p)
  then handleSubmit p
  else Some p.

(** [function initializeGame()] *)
Definition initializeGame (p : page) : page :=
  let p := set_roundNumberEl 0 p in
  let p := set_timerDisplayEl None p in
  let p := displayFeedback ClickToBegin type_info p in
  let p := displayRequirements None p in
  let p := set_passwordInputEl_disabled true p in
  let p := set_submitButtonEl_disabled true p in
  let p := set_startGameButtonEl StartGame p in
  set_startGameButtonEl_disabled false p.

(** The page once the script has run: the declarations of the game state
    variables, no timer, and [initializeGame()] on the elements as the
    document [html] has them. *)
Definition load (html : page) : page :=
  let p := set_currentRound 0 html in
  let p := set_currentTimeLimit 60 p in
  let p := set_timerId None p in
  let p := set_intervalId None p in
  let p := set_currentRequirements None p in
  let p := set_gameActive false p in
  let p := set_timeLeft 0 p in
  let p := set_nextId 1%nat p in
  let p := set_timeouts [] p in
  let p := set_intervals [] p in
  initializeGame p.

(** *** The events and what they run *)

Inductive event : Type :=
| ClickStart (random : Q)
| ClickSubmit
| Keypress (enter : bool)
| Edit (value : list N)
| TimeoutFires (id : nat)
| IntervalFires (id : nat).

Definition dispatch (p : page) (e : event) : option page :=
  match e with
  | ClickStart random =>
    if startGameButtonEl_disabled p then Some p
    else Some (start_click random p)
  | ClickSubmit =>
    if submitButtonEl_disabled p then Some p else handleSubmit p
  | Keypress enter =>
    if passwordInputEl_disabled p then Some p else keypress enter p
  | Edit value =>
    if passwordInputEl_disabled p then Some p
    else Some (set_passwordInputEl value p)
  | TimeoutFires id =>
    if existsb (Nat.eqb id) (timeouts p)
    then Some (handleTimeout (set_timeouts (cancel (Some id) (timeouts p)) p))
    else Some p
  | IntervalFires id =>
    if existsb (Nat.eqb id) (intervals p) then Some (tick p) else Some p
  end.

Fixpoint run (events : list event) (p : page) : option page :=
  match events with
  | [] => Some p
  | e :: rest =>
    match dispatch p e with
    | Some p => run rest p
    | None => None
    end
  end.

End Browser.

(** What holds of the page after any sequence of events. *)
Definition page_ok (p : Browser.page) : Prop :=
  0 <= Browser.currentRound p <= 5
  /\ Browser.roundNumberEl p = Browser.currentRound p
  /\ Browser.submitButtonEl_disabled p = Browser.passwordInputEl_disabled p
  /\ Browser.startGameButtonEl_disabled p
     = negb (Browser.passwordInputEl_disabled p)
  /\ (Browser.passwordInputEl_disabled p = false ->
      Browser.gameActive p = true
      /\ Browser.startGameButtonEl p = Browser.StartGame)
  /\ (Browser.gameActive p = true -> 1 <= Browser.currentRound p)
  /\ (Browser.startGameButtonEl p = Browser.StartNextRound ->
      1 <= Browser.currentRound p <= 4)
  /\ (1 <= Browser.currentRound p ->
      Browser.currentTimeLimit p = time_limit_of_round (Browser.currentRound p)
      /\ exists random,
           Browser.currentRequirements p
           = Some (JS.generateRequirements random (Browser.currentRound p)))
  /\ (Browser.currentRound p = 0 -> Browser.currentRequirements p = None)
  /\ (Browser.timeouts p = []
      \/ exists id, Browser.timeouts p = [id] /\ Browser.timerId p = Some id)
  /\ (Browser.intervals p = []
      \/ exists id, Browser.intervals p = [id] /\ Browser.intervalId p = Some id)
  /\ (forall id, Browser.timerId p = Some id -> Browser.intervalId p <> Some id)
  /\ (Browser.passwordInputEl_disabled p = true ->
      Browser.timeouts p = [] /\ Browser.intervals p = [])
  /\ Browser.requirementsListEl p
     = Browser.requirement_items (Browser.currentRequirements p)
                                 (Browser.currentRound p)
  /\ 0 <= Browser.timeLeft p
  /\ (Browser.intervals p <> [] -> 1 <= Browser.timeLeft p)
  /\ (1 <= Browser.currentRound p ->
      Browser.timerDisplayEl p = Some (Browser.timeLeft p)
      /\ Browser.timeLeft p <= Browser.currentTimeLimit p)
  /\ (Browser.currentRound p = 0 -> Browser.timerDisplayEl p = None)
  /\ (1 <= Browser.currentRound p ->
      Browser.timerDisplayEl_red p
      = (Browser.timeLeft p <=? 5) && (Browser.timeLeft p >? 0)).

(** A document whose elements are empty and enabled, for examples. *)
Definition blank_page : Browser.page :=
  {| Browser.currentRound := 0; Browser.currentTimeLimit := 0;
     Browser.timerId := None; Browser.intervalId := None;
     Browser.currentRequirements := None; Browser.gameActive := false;
     Browser.timeLeft := 0; Browser.nextId := 1;
     Browser.timeouts := []; Browser.intervals := [];
     Browser.roundNumberEl := 0; Browser.timerDisplayEl := None;
     Browser.timerDisplayEl_red := false; Browser.requirementsListEl := [];
     Browser.passwordInputEl := []; Browser.passwordInputEl_disabled := false;
     Browser.submitButtonEl_disabled := false;
     Browser.feedbackMessageEl := Browser.NoMessage;
     Browser.feedbackMessageEl_class := Browser.no_class;
     Browser.startGameButtonEl := Browser.StartGame;
     Browser.startGameButtonEl_disabled := false |}.

(** ** What the displayed requirements ask *)

(** What a line of [display_requirements] asks of the password [s]; the
    headers, the time limit and "(None this round)" ask nothing. *)
Definition c_line_holds (s : list ascii) (l : Terminal.line) : Prop :=
  match l with
  | Terminal.MinimumLength n => n <= Z.of_nat (length s)
  | Terminal.MinimumUppercase n => n <= Z.of_nat (length (filter C.isupper s))
  | Terminal.MinimumLowercase n => n <= Z.of_nat (length (filter C.islower s))
  | Terminal.MinimumDigits n => n <= Z.of_nat (length (filter C.isdigit s))
  | Terminal.MinimumSymbols n => n <= Z.of_nat (length (filter C.ispunct s))
  | Terminal.MustStartUppercase =>
    exists first rest, s = first :: rest /\ C.isupper first = true
  | Terminal.MustEndSymbol =>
    exists first rest, s = first :: rest /\ C.ispunct (last s first) = true
  | Terminal.NoConsecutive =>
    forall j : nat, (S j < length s)%nat -> nth j s zero <> nth (S j) s zero
  | Terminal.MustBePalindrome => s = rev s
  | Terminal.DigitSum n => c_digit_total s = n
  | _ => True
  end.

(** The same for an item of the requirements list of the page; a number
    that is [undefined] asks nothing. *)
Definition at_least (n : option Z) (count : nat) : Prop :=
  match n with Some n => n <= Z.of_nat count | None => True end.

Definition js_item_holds (s : list N) (i : Browser.item) : Prop :=
  match i with
  | Browser.MinimumLength n => at_least n (length s)
  | Browser.MinimumUppercase n => at_least n (length (filter JS.re_upper s))
  | Browser.MinimumLowercase n => at_least n (length (filter JS.re_lower s))
  | Browser.MinimumDigits n => at_least n (length (filter JS.re_digit s))
  | Browser.MinimumSymbols n => at_least n (length (filter JS.isSymbol s))
  | Browser.StartUpperEndSymbol =>
    exists first rest, s = first :: rest /\ JS.re_upper first = true
                       /\ JS.isSymbol (last s first) = true
  | Browser.NoConsecutive =>
    forall j : nat, (S j < length s)%nat -> nth j s 0%N <> nth (S j) s 0%N
  | Browser.Palindrome => s = rev s
  | Browser.DigitSum n =>
    match n with Some n => js_digit_total s = n | None => True end
  | _ => True
  end.

(** ** Typed lines and page events of a player *)

(** The results of [read] that end a line: Enter, the end of the input, a
    failure, or the alarm. *)
Definition ends_line (r : Terminal.read_result) : bool :=
  match r with
  | Terminal.Byte ch => is_enter ch
  | _ => true
  end.

(** The four lines of a player who wins the rounds 1 to 4 of the terminal
    game, and the events of one who wins them on the page. *)
Definition typed_line (password : list ascii) : list Terminal.read_result :=
  map Terminal.Byte password ++ [Terminal.Byte "010"].

Definition winning_lines : list Terminal.read_result :=
  typed_line (winning_password 1) ++ typed_line (winning_password 2)
  ++ typed_line (winning_password 3) ++ typed_line (winning_password 4).

Definition winning_round (round : Z) : list Browser.event :=
  [Browser.ClickStart 0; Browser.Edit (codes (winning_password round));
   Browser.ClickSubmit].

Definition winning_events : list Browser.event :=
  winning_round 1 ++ winning_round 2 ++ winning_round 3 ++ winning_round 4.

(** The call of [read] that ends the line is the one the alarm went off
    in. *)
Definition is_alarm (r : Terminal.read_result) : bool :=
  match r with
  | Terminal.Alarm => true
  | _ => false
  end.

(** ** Comparing requirements *)

(** One record of requirements asks at least as much as another. *)
Definition no_easier (q q' : Requirements) : Prop :=
  minLength q <= minLength q'
  /\ minUppercase q <= minUppercase q'
  /\ minLowercase q <= minLowercase q'
  /\ minDigits q <= minDigits q'
  /\ minSymbols q <= minSymbols q'
  /\ (reqStartUpperEndSymbol q = true -> reqStartUpperEndSymbol q' = true)
  /\ (reqNoConsecutiveChars q = true -> reqNoConsecutiveChars q' = true)
  /\ (reqDigitSum q = true -> reqDigitSum q' = true).

(** * Properties of the generators *)

Ltac div_lia := Z.to_euclidean_division_equations; lia.

Ltac js_fields :=
  unfold JS.set_minLength, JS.set_minUppercase, JS.set_minLowercase,
    JS.set_minDigits, JS.set_minSymbols, JS.set_reqStartUpperEndSymbol,
    JS.set_reqNoConsecutiveChars, JS.set_reqPalindrome, JS.set_reqDigitSum,
    JS.set_digitSumTarget;
  cbn [minLength minUppercase minLowercase minDigits minSymbols
       reqStartUpperEndSymbol reqNoConsecutiveChars reqPalindrome reqDigitSum
       digitSumTarget].

(** Decide a comparison of the goal from the hypotheses. *)
Ltac decide_test :=
  match goal with
  | |- context [?a <? ?b] =>
    first [ replace (a <? b) with true by (symmetry; apply Z.ltb_lt; lia)
          | replace (a <? b) with false by (symmetry; apply Z.ltb_ge; lia) ]
  | |- context [?a <=? ?b] =>
    first [ replace (a <=? b) with true by (symmetry; apply Z.leb_le; lia)
          | replace (a <=? b) with false by (symmetry; apply Z.leb_gt; lia) ]
  | |- context [?a =? ?b] =>
    first [ replace (a =? b) with true by (symmetry; apply Z.eqb_eq; lia)
          | replace (a =? b) with false by (symmetry; apply Z.eqb_neq; lia) ]
  end.

Lemma round_cases (r : Z) :
  1 <= r -> r = 1 \/ r = 2 \/ r = 3 \/ r = 4 \/ r = 5 \/ r = 6 \/ 7 <= r.
Proof. lia. Qed.

Lemma js_clamp (q : Requirements) :
  JS.clampMinLength q =
  JS.set_minLength
    (Z.max (minLength q)
           (minUppercase q + minLowercase q + minDigits q + minSymbols q)) q.
Proof.
  unfold JS.clampMinLength. cbv zeta. destruct q; js_fields.
  match goal with |- context [?a <? ?b] => destruct (Z.ltb_spec a b) end;
    unfold JS.set_minLength; js_fields; f_equal; lia.
Qed.

Lemma js_ridiculous_rules (u : Q) (r : Z) (q : Requirements) :
  JS.ridiculousRequirements u r q =
  js_digit_sum_rule u r
    ((fun q => if r =? 5 then JS.set_reqPalindrome true q else q)
       ((fun q => if r >=? 4 then JS.set_reqNoConsecutiveChars true q else q)
          (js_start_end_rule r q))).
Proof. reflexivity. Qed.

Lemma js_start_end_rule_eq (r : Z) (q : Requirements) :
  2 <= minLength q -> 1 <= minUppercase q -> (3 <= r -> 1 <= minSymbols q) ->
  js_start_end_rule r q =
  if 3 <=? r then JS.set_reqStartUpperEndSymbol true q else q.
Proof.
  destruct q; js_fields; intros HL HU HS.
  unfold js_start_end_rule. rewrite Z.geb_leb.
  destruct (Z.leb_spec 3 r); [|reflexivity].
  cbv zeta. js_fields. repeat (decide_test; js_fields). reflexivity.
Qed.

Lemma js_digit_sum_rule_eq (u : Q) (r : Z) (q : Requirements) :
  1 <= minDigits q ->
  js_digit_sum_rule u r q =
  if 7 <=? r
  then JS.set_digitSumTarget (5 + r / 2 + js_draw u r)
         (JS.set_reqDigitSum true q)
  else q.
Proof.
  destruct q; js_fields; intros HD.
  unfold js_digit_sum_rule. rewrite Z.geb_leb.
  destruct (Z.leb_spec 7 r); [|reflexivity].
  cbv zeta. js_fields. repeat (decide_test; js_fields). reflexivity.
Qed.

Lemma js_ridiculous (u : Q) (r : Z) (q : Requirements) :
  2 <= minLength q -> 1 <= minUppercase q -> 1 <= minDigits q ->
  (3 <= r -> 1 <= minSymbols q) ->
  JS.ridiculousRequirements u r q =
  {| minLength := minLength q; minUppercase := minUppercase q;
     minLowercase := minLowercase q; minDigits := minDigits q;
     minSymbols := minSymbols q;
     reqStartUpperEndSymbol := if 3 <=? r then true else reqStartUpperEndSymbol q;
     reqNoConsecutiveChars := if 4 <=? r then true else reqNoConsecutiveChars q;
     reqPalindrome := if r =? 5 then true else reqPalindrome q;
     reqDigitSum := if 7 <=? r then true else reqDigitSum q;
     digitSumTarget :=
       if 7 <=? r then 5 + r / 2 + js_draw u r
       else digitSumTarget q |}.
Proof.
  intros HL HU HD HS.
  rewrite js_ridiculous_rules, js_start_end_rule_eq by assumption.
  cbv beta. rewrite js_digit_sum_rule_eq.
  - rewrite Z.geb_leb.
    destruct q, (3 <=? r), (4 <=? r), (7 <=? r), (r =? 5); reflexivity.
  - destruct q, (3 <=? r), (r >=? 4), (r =? 5); exact HD.
Qed.

Lemma js_generate_closed (u : Q) (r : Z) :
  1 <= r ->
  JS.generateRequirements u r =
  round_requirements r (5 + r / 2 + js_draw u r).
Proof.
  intros Hr.
  unfold JS.generateRequirements, round_requirements.
  cbv zeta.
  unfold JS.basicRequirements, JS.initial, JS.BASE_MIN_LEN. cbv zeta. js_fields.
  rewrite !js_clamp. js_fields.
  rewrite Z.gtb_ltb.
  rewrite js_ridiculous; js_fields.
  - generalize (5 + r / 2 + js_draw u r); intros t.
    destruct (Z.ltb_spec 1 r), (Z.eqb_spec r 1); try (exfalso; lia);
      cbv iota; f_equal; try lia;
      match goal with |- (if ?b then true else false) = _ => destruct b; reflexivity end.
  - destruct (Z.ltb_spec 1 r); cbv iota; div_lia.
  - div_lia.
  - div_lia.
  - intros. destruct (Z.ltb_spec 1 r); cbv iota; div_lia.
Qed.

(** ** The C generator: where it is defined, it computes the same record *)

Lemma in_int_iff (z : Z) :
  CInt.in_int z = true <-> CInt.INT_MIN <= z <= CInt.INT_MAX.
Proof. unfold CInt.in_int. rewrite andb_true_iff, !Z.leb_le. tauto. Qed.

Lemma of_Z_Some (z v : Z) :
  CInt.of_Z z = Some v <-> v = z /\ CInt.INT_MIN <= z <= CInt.INT_MAX.
Proof.
  unfold CInt.of_Z. destruct (CInt.in_int z) eqn:E.
  - apply in_int_iff in E. split; [intros [= <-]; auto | intros [-> _]; auto].
  - split; [discriminate|]. intros [_ H]. apply in_int_iff in H. congruence.
Qed.

Lemma add_Some (a b : CInt.cint) (v : Z) :
  (a + b)%cint = Some v <->
  exists x y, a = Some x /\ b = Some y /\ v = x + y
              /\ CInt.INT_MIN <= x + y <= CInt.INT_MAX.
Proof.
  unfold CInt.add, CInt.lift2. destruct a as [x|], b as [y|];
    try (split; [discriminate | intros (? & ? & ? & ? & _); discriminate]).
  rewrite of_Z_Some. split.
  - intros []. eauto 6.
  - intros (? & ? & [= <-] & [= <-] & ? & ?). auto.
Qed.

Lemma sub_Some (a b : CInt.cint) (v : Z) :
  (a - b)%cint = Some v <->
  exists x y, a = Some x /\ b = Some y /\ v = x - y
              /\ CInt.INT_MIN <= x - y <= CInt.INT_MAX.
Proof.
  unfold CInt.sub, CInt.lift2. destruct a as [x|], b as [y|];
    try (split; [discriminate | intros (? & ? & ? & ? & _); discriminate]).
  rewrite of_Z_Some. split.
  - intros []. eauto 6.
  - intros (? & ? & [= <-] & [= <-] & ? & ?). auto.
Qed.

Lemma mul_Some (a b : CInt.cint) (v : Z) :
  (a * b)%cint = Some v <->
  exists x y, a = Some x /\ b = Some y /\ v = x * y
              /\ CInt.INT_MIN <= x * y <= CInt.INT_MAX.
Proof.
  unfold CInt.mul, CInt.lift2. destruct a as [x|], b as [y|];
    try (split; [discriminate | intros (? & ? & ? & ? & _); discriminate]).
  rewrite of_Z_Some. split.
  - intros []. eauto 6.
  - intros (? & ? & [= <-] & [= <-] & ? & ?). auto.
Qed.

Lemma div_Some (a b : CInt.cint) (v : Z) :
  (a / b)%cint = Some v <->
  exists x y, a = Some x /\ b = Some y /\ y <> 0 /\ v = Z.quot x y
              /\ CInt.INT_MIN <= Z.quot x y <= CInt.INT_MAX.
Proof.
  unfold CInt.div, CInt.lift2. destruct a as [x|], b as [y|];
    try (split; [discriminate | intros (? & ? & ? & ? & _); discriminate]).
  destruct (Z.eqb_spec y 0) as [-> | Hy].
  - split; [discriminate | intros (? & ? & _ & [= <-] & ? & _); congruence].
  - rewrite of_Z_Some. split.
    + intros []. eauto 8.
    + intros (? & ? & [= <-] & [= <-] & ? & ? & ?). auto.
Qed.

Lemma rem_Some (a b : CInt.cint) (v : Z) :
  CInt.rem a b = Some v <->
  exists x y, a = Some x /\ b = Some y /\ y <> 0 /\ v = Z.rem x y
              /\ CInt.INT_MIN <= Z.quot x y <= CInt.INT_MAX.
Proof.
  unfold CInt.rem, CInt.lift2. destruct a as [x|], b as [y|];
    try (split; [discriminate | intros (? & ? & ? & ? & _); discriminate]).
  destruct (Z.eqb_spec y 0) as [-> | Hy].
  - split; [discriminate | intros (? & ? & _ & [= <-] & ? & _); congruence].
  - destruct (CInt.in_int (Z.quot x y)) eqn:E.
    + apply in_int_iff in E. split.
      * intros [= <-]. eauto 8.
      * intros (? & ? & [= <-] & [= <-] & ? & ? & ?). congruence.
    + split; [discriminate|].
      intros (? & ? & [= <-] & [= <-] & ? & ? & H). apply in_int_iff in H. congruence.
Qed.

Lemma bind_Some {B} (m : CInt.cint) (k : Z -> option B) (b : B) :
  CInt.bind m k = Some b <-> exists x, m = Some x /\ k x = Some b.
Proof.
  destruct m as [x|]; cbn.
  - split; [eauto | intros (? & [= <-] & ?); auto].
  - split; [discriminate | intros (? & ? & _); discriminate].
Qed.

Lemma Some_inj {A} (a b : A) : Some a = Some b -> a = b.
Proof. congruence. Qed.

Ltac c_fields :=
  unfold C.set_min_length, C.set_min_uppercase, C.set_min_lowercase,
    C.set_min_digits, C.set_min_symbols, C.set_req_start_upper_end_symbol,
    C.set_req_no_consecutive_chars, C.set_req_palindrome, C.set_req_digit_sum,
    C.set_digit_sum_target;
  cbn [C.min_length C.min_uppercase C.min_lowercase C.min_digits C.min_symbols
       C.req_start_upper_end_symbol C.req_no_consecutive_chars C.req_palindrome
       C.req_digit_sum C.digit_sum_target].

(** Read a defined [int] expression back: its value and the ranges its
    evaluation went through. *)
Ltac cint_inv :=
  repeat match goal with
  | H : CInt.bind _ _ = Some _ |- _ =>
    apply bind_Some in H; destruct H as (? & ? & H); cbv beta in H
  | H : CInt.add _ _ = Some _ |- _ =>
    apply add_Some in H; destruct H as (? & ? & ? & ? & -> & ?)
  | H : CInt.sub _ _ = Some _ |- _ =>
    apply sub_Some in H; destruct H as (? & ? & ? & ? & -> & ?)
  | H : CInt.mul _ _ = Some _ |- _ =>
    apply mul_Some in H; destruct H as (? & ? & ? & ? & -> & ?)
  | H : CInt.div _ _ = Some _ |- _ =>
    apply div_Some in H; destruct H as (? & ? & ? & ? & ? & -> & ?)
  | H : CInt.rem _ _ = Some _ |- _ =>
    apply rem_Some in H; destruct H as (? & ? & ? & ? & ? & -> & ?)
  | H : CInt.of_Z _ = Some _ |- _ =>
    apply of_Z_Some in H; destruct H as [-> ?]
  end.

Lemma c_basic (r : Z) (q : C.PasswordRequirements) :
  1 <= r ->
  C.basic_requirements r C.zeroed = Some q ->
  q = {| C.min_length := 6 + r + r / 2;
         C.min_uppercase := 1 + r / 2;
         C.min_lowercase := 1 + r / 2;
         C.min_digits := 1 + r / 3;
         C.min_symbols := if r =? 1 then 0 else 1 + (r - 1) / 3;
         C.req_start_upper_end_symbol := 0; C.req_no_consecutive_chars := 0;
         C.req_palindrome := 0; C.req_digit_sum := 0; C.digit_sum_target := 0 |}.
Proof.
  intros Hr H. unfold C.basic_requirements, C.BASE_MIN_LEN in H.
  cint_inv. apply Some_inj in H; subst q.
  rewrite Z.gtb_ltb in *.
  destruct (Z.ltb_spec 1 r), (Z.eqb_spec r 1); try (exfalso; lia);
    cint_inv; unfold C.zeroed; c_fields; f_equal; div_lia.
Qed.

Lemma c_clamp (q q' : C.PasswordRequirements) :
  C.clamp_min_length q = Some q' ->
  q' = C.set_min_length
         (Z.max (C.min_length q)
                (C.min_uppercase q + C.min_lowercase q + C.min_digits q
                 + C.min_symbols q)) q.
Proof.
  unfold C.clamp_min_length, C.min_char_sum. intros H. cint_inv.
  apply Some_inj in H; subst q'. destruct q; c_fields.
  match goal with |- context [?a <? ?b] => destruct (Z.ltb_spec a b) end;
    c_fields; f_equal; lia.
Qed.

Lemma c_ridiculous_rules (rnd r : Z) (q : C.PasswordRequirements) :
  C.ridiculous_requirements rnd r q =
  c_digit_sum_rule rnd r
    ((fun q => if r =? 5 then C.set_req_palindrome 1 q else q)
       ((fun q => if r >=? 4 then C.set_req_no_consecutive_chars 1 q else q)
          (c_start_end_rule r q))).
Proof. reflexivity. Qed.

Lemma c_start_end_rule_eq (r : Z) (q : C.PasswordRequirements) :
  2 <= C.min_length q -> 1 <= C.min_uppercase q ->
  (3 <= r -> 1 <= C.min_symbols q) ->
  c_start_end_rule r q =
  if 3 <=? r then C.set_req_start_upper_end_symbol 1 q else q.
Proof.
  destruct q; c_fields; intros HL HU HS.
  unfold c_start_end_rule. rewrite Z.geb_leb.
  destruct (Z.leb_spec 3 r); [|reflexivity].
  cbv zeta. c_fields. repeat (decide_test; c_fields). reflexivity.
Qed.

Lemma c_digit_sum_rule_eq (rnd r : Z) (q q' : C.PasswordRequirements) :
  1 <= r -> 1 <= C.min_digits q ->
  c_digit_sum_rule rnd r q = Some q' ->
  q' = if 7 <=? r
       then C.set_digit_sum_target (5 + r / 2 + Z.rem rnd (r * 2 + 1))
              (C.set_req_digit_sum 1 q)
       else q.
Proof.
  destruct q; c_fields; intros Hr HD.
  unfold c_digit_sum_rule. rewrite Z.geb_leb.
  destruct (Z.leb_spec 7 r) as [H7 | H7]; [|congruence].
  cbv zeta. c_fields. repeat (decide_test; c_fields).
  intros H. cint_inv. apply Some_inj in H; subst q'.
  rewrite (Z.quot_div_nonneg r 2) by lia. reflexivity.
Qed.

Lemma c_ridiculous (rnd r : Z) (q q' : C.PasswordRequirements) :
  1 <= r ->
  2 <= C.min_length q -> 1 <= C.min_uppercase q -> 1 <= C.min_digits q ->
  (3 <= r -> 1 <= C.min_symbols q) ->
  C.ridiculous_requirements rnd r q = Some q' ->
  q' =
  {| C.min_length := C.min_length q; C.min_uppercase := C.min_uppercase q;
     C.min_lowercase := C.min_lowercase q; C.min_digits := C.min_digits q;
     C.min_symbols := C.min_symbols q;
     C.req_start_upper_end_symbol :=
       if 3 <=? r then 1 else C.req_start_upper_end_symbol q;
     C.req_no_consecutive_chars :=
       if 4 <=? r then 1 else C.req_no_consecutive_chars q;
     C.req_palindrome := if r =? 5 then 1 else C.req_palindrome q;
     C.req_digit_sum := if 7 <=? r then 1 else C.req_digit_sum q;
     C.digit_sum_target :=
       if 7 <=? r then 5 + r / 2 + Z.rem rnd (r * 2 + 1)
       else C.digit_sum_target q |}.
Proof.
  intros Hr HL HU HD HS.
  rewrite c_ridiculous_rules, c_start_end_rule_eq by assumption.
  cbv beta. intros H. apply c_digit_sum_rule_eq in H; trivial.
  - subst q'. rewrite Z.geb_leb.
    destruct q, (3 <=? r), (4 <=? r), (7 <=? r), (r =? 5); reflexivity.
  - destruct q, (3 <=? r), (r >=? 4), (r =? 5); exact HD.
Qed.

(** Where [C.generate_requirements] is defined, it leaves the requirements
    of the round, with the target [5 + r/2 + rand() % (2r + 1)]. *)
Lemma c_generate_closed (rnd r : Z) (q : C.PasswordRequirements) :
  1 <= r ->
  C.generate_requirements rnd r = Some q ->
  C.requirements_of q = round_requirements r (5 + r / 2 + Z.rem rnd (r * 2 + 1)).
Proof.
  intros Hr. unfold C.generate_requirements.
  destruct (C.basic_requirements r C.zeroed) as [q1|] eqn:E1; [|discriminate].
  destruct (C.clamp_min_length q1) as [q2|] eqn:E2; [|discriminate].
  destruct (C.ridiculous_requirements rnd r q2) as [q3|] eqn:E3; [|discriminate].
  intros E4.
  apply c_basic in E1; trivial. apply c_clamp in E2. apply c_clamp in E4.
  subst q1. unfold C.set_min_length in E2; cbn [C.min_length C.min_uppercase
    C.min_lowercase C.min_digits C.min_symbols C.req_start_upper_end_symbol
    C.req_no_consecutive_chars C.req_palindrome C.req_digit_sum
    C.digit_sum_target] in E2.
  subst q2. apply c_ridiculous in E3; trivial; c_fields.
  - subst q3 q. c_fields. unfold C.requirements_of, round_requirements.
    c_fields. cbv zeta.
    generalize (5 + r / 2 + Z.rem rnd (r * 2 + 1)); intros t.
    destruct (Z.eqb_spec r 1), (Z.leb_spec 3 r), (Z.leb_spec 4 r),
      (Z.leb_spec 7 r), (Z.eqb_spec r 5); try (exfalso; lia);
      cbn [negb Z.eqb]; f_equal; lia.
  - destruct (Z.eqb_spec r 1); div_lia.
  - div_lia.
  - div_lia.
  - intros. destruct (Z.eqb_spec r 1); div_lia.
Qed.

(** Evaluation of [int] expressions that stay in range. *)
Lemma of_Z_ok (z : Z) :
  CInt.INT_MIN <= z <= CInt.INT_MAX -> CInt.of_Z z = Some z.
Proof. intros H. apply of_Z_Some. auto. Qed.

Lemma add_ok (x y : Z) :
  CInt.INT_MIN <= x + y <= CInt.INT_MAX -> CInt.add (Some x) (Some y) = Some (x + y).
Proof. intros H. apply add_Some. eauto 6. Qed.

Lemma sub_ok (x y : Z) :
  CInt.INT_MIN <= x - y <= CInt.INT_MAX -> CInt.sub (Some x) (Some y) = Some (x - y).
Proof. intros H. apply sub_Some. eauto 6. Qed.

Lemma mul_ok (x y : Z) :
  CInt.INT_MIN <= x * y <= CInt.INT_MAX -> CInt.mul (Some x) (Some y) = Some (x * y).
Proof. intros H. apply mul_Some. eauto 6. Qed.

Lemma div_ok (x y : Z) :
  0 <= x -> 0 < y -> CInt.INT_MIN <= x / y <= CInt.INT_MAX ->
  CInt.div (Some x) (Some y) = Some (x / y).
Proof.
  intros Hx Hy H. apply div_Some. exists x, y.
  rewrite Z.quot_div_nonneg by lia. repeat split; auto; lia.
Qed.

Lemma rem_ok (x y : Z) :
  0 <= x -> 0 < y -> CInt.INT_MIN <= x / y <= CInt.INT_MAX ->
  CInt.rem (Some x) (Some y) = Some (x mod y).
Proof.
  intros Hx Hy H. apply rem_Some. exists x, y.
  rewrite Z.quot_div_nonneg, Z.rem_mod_nonneg by lia. repeat split; auto; lia.
Qed.

Ltac in_range := unfold CInt.INT_MIN, CInt.INT_MAX in *; div_lia.

Ltac cint_eval :=
  repeat first
    [ rewrite of_Z_ok by in_range
    | rewrite add_ok by in_range
    | rewrite sub_ok by in_range
    | rewrite mul_ok by in_range
    | rewrite div_ok by in_range
    | progress cbn [CInt.bind] ].

(** Evaluate assignments to and reads of a record that is written out. *)
Ltac c_eval :=
  cbv beta iota delta
    [C.set_min_length C.set_min_uppercase C.set_min_lowercase
     C.set_min_digits C.set_min_symbols C.set_req_start_upper_end_symbol
     C.set_req_no_consecutive_chars C.set_req_palindrome C.set_req_digit_sum
     C.set_digit_sum_target C.zeroed
     C.min_length C.min_uppercase C.min_lowercase C.min_digits C.min_symbols
     C.req_start_upper_end_symbol C.req_no_consecutive_chars C.req_palindrome
     C.req_digit_sum C.digit_sum_target].

Lemma c_basic_defined (r : Z) :
  1 <= r <= c_max_round ->
  C.basic_requirements r C.zeroed =
  Some {| C.min_length := 6 + r + r / 2;
          C.min_uppercase := 1 + r / 2;
          C.min_lowercase := 1 + r / 2;
          C.min_digits := 1 + r / 3;
          C.min_symbols := if r =? 1 then 0 else 1 + (r - 1) / 3;
          C.req_start_upper_end_symbol := 0; C.req_no_consecutive_chars := 0;
          C.req_palindrome := 0; C.req_digit_sum := 0; C.digit_sum_target := 0 |}.
Proof.
  unfold c_max_round. intros Hr.
  unfold C.basic_requirements, C.BASE_MIN_LEN.
  cint_eval. rewrite Z.gtb_ltb.
  destruct (Z.ltb_spec 1 r), (Z.eqb_spec r 1); try (exfalso; lia);
    cint_eval; c_eval; reflexivity.
Qed.

Lemma c_clamp_defined (q : C.PasswordRequirements) :
  0 <= C.min_uppercase q < 2 ^ 29 -> 0 <= C.min_lowercase q < 2 ^ 29 ->
  0 <= C.min_digits q < 2 ^ 29 -> 0 <= C.min_symbols q < 2 ^ 29 ->
  C.clamp_min_length q =
  Some (C.set_min_length
          (Z.max (C.min_length q)
                 (C.min_uppercase q + C.min_lowercase q + C.min_digits q
                  + C.min_symbols q)) q).
Proof.
  destruct q; c_fields. change (2 ^ 29) with 536870912. intros.
  unfold C.clamp_min_length, C.min_char_sum. c_fields. cint_eval.
  f_equal.
  match goal with |- context [?a <? ?b] => destruct (Z.ltb_spec a b) end;
    c_fields; f_equal; lia.
Qed.

Lemma c_ridiculous_defined (rnd r : Z) (q : C.PasswordRequirements) :
  1 <= r <= c_max_round -> 0 <= rnd <= CInt.INT_MAX ->
  2 <= C.min_length q -> 1 <= C.min_uppercase q -> 1 <= C.min_digits q ->
  (3 <= r -> 1 <= C.min_symbols q) ->
  C.ridiculous_requirements rnd r q =
  Some
  {| C.min_length := C.min_length q; C.min_uppercase := C.min_uppercase q;
     C.min_lowercase := C.min_lowercase q; C.min_digits := C.min_digits q;
     C.min_symbols := C.min_symbols q;
     C.req_start_upper_end_symbol :=
       if 3 <=? r then 1 else C.req_start_upper_end_symbol q;
     C.req_no_consecutive_chars :=
       if 4 <=? r then 1 else C.req_no_consecutive_chars q;
     C.req_palindrome := if r =? 5 then 1 else C.req_palindrome q;
     C.req_digit_sum := if 7 <=? r then 1 else C.req_digit_sum q;
     C.digit_sum_target :=
       if 7 <=? r then 5 + r / 2 + rnd mod (r * 2 + 1)
       else C.digit_sum_target q |}.
Proof.
  unfold c_max_round. intros Hr Hrnd HL HU HD HS.
  assert (Hm : 0 <= rnd mod (r * 2 + 1) < r * 2 + 1)
    by (apply Z.mod_pos_bound; lia).
  assert (Hq : 0 <= rnd / (r * 2 + 1) <= rnd)
    by (split; [apply Z.div_pos; lia | apply Z.div_le_upper_bound; nia]).
  rewrite c_ridiculous_rules, c_start_end_rule_eq by assumption.
  cbv beta. unfold c_digit_sum_rule. rewrite !Z.geb_leb.
  destruct q;
    cbn [C.min_length C.min_uppercase C.min_digits C.min_symbols] in HL, HU, HD, HS.
  destruct (Z.leb_spec 3 r), (Z.leb_spec 4 r), (Z.leb_spec 7 r), (Z.eqb_spec r 5);
    try (exfalso; lia); cbv zeta; c_eval; trivial.
  all: decide_test; c_fields.
  all: rewrite (of_Z_ok 5), (of_Z_ok 2), (of_Z_ok 1), (of_Z_ok r), (of_Z_ok rnd)
         by in_range.
  all: rewrite div_ok, mul_ok by in_range.
  all: rewrite (add_ok (r * 2)) by in_range.
  all: rewrite rem_ok by (unfold CInt.INT_MIN, CInt.INT_MAX in *; lia).
  all: clear Hq; generalize dependent (rnd mod (r * 2 + 1)); intros m Hm.
  all: rewrite !add_ok by in_range.
  all: reflexivity.
Qed.

Lemma c_generate_defined (rnd r : Z) :
  1 <= r <= c_max_round -> 0 <= rnd <= CInt.INT_MAX ->
  exists q, C.generate_requirements rnd r = Some q.
Proof.
  intros Hr Hrnd. unfold C.generate_requirements.
  rewrite c_basic_defined by assumption.
  unfold c_max_round in Hr.
  assert (Hsy : 0 <= (if r =? 1 then 0 else 1 + (r - 1) / 3) <= 1 + r / 3
                /\ (3 <= r -> 1 <= (if r =? 1 then 0 else 1 + (r - 1) / 3)))
    by (destruct (Z.eqb_spec r 1); div_lia).
  generalize dependent (if r =? 1 then 0 else 1 + (r - 1) / 3). intros sy Hsy.
  rewrite c_clamp_defined by (change (2 ^ 29) with 536870912; c_fields; div_lia).
  c_eval.
  rewrite c_ridiculous_defined by (unfold c_max_round; c_fields; trivial; div_lia).
  c_eval.
  rewrite c_clamp_defined by (change (2 ^ 29) with 536870912; c_fields; div_lia).
  eauto.
Qed.

(** ** What the requirements of a round satisfy *)

Lemma round_requirements_invariants (r t : Z) :
  1 <= r ->
  I1 (round_requirements r t) /\ I2 (round_requirements r t)
  /\ I3 (round_requirements r t).
Proof.
  intros Hr. unfold I1, I2, I3, round_requirements. cbv zeta.
  cbn [minLength minUppercase minLowercase minDigits minSymbols
       reqStartUpperEndSymbol reqDigitSum].
  destruct (Z.eqb_spec r 1), (Z.leb_spec 3 r), (Z.leb_spec 7 r);
    repeat split; intros; try discriminate; div_lia.
Qed.

(** ** Doubles

    The integer nearest to [y] is the one below it or the one above it. *)
Lemma round_ties_even_cases (y : Q) :
  (JS.round_ties_even y = Qfloor y /\ (y - inject_Z (Qfloor y) <= 1 # 2)%Q)
  \/ (JS.round_ties_even y = Qfloor y + 1 /\ (1 # 2 <= y - inject_Z (Qfloor y))%Q).
Proof.
  unfold JS.round_ties_even. cbv zeta.
  destruct (y - inject_Z (Qfloor y) ?= 1 # 2)%Q eqn:E.
  - apply Qeq_alt in E. destruct (Z.even (Qfloor y)); [left | right];
      (split; [reflexivity | rewrite E; apply Qle_refl]).
  - apply Qlt_alt in E. left. split; [reflexivity | apply Qlt_le_weak, E].
  - apply Qgt_alt in E. right. split; [reflexivity | apply Qlt_le_weak, E].
Qed.

Lemma round_ties_even_nonneg (y : Q) : (0 <= y)%Q -> 0 <= JS.round_ties_even y.
Proof.
  intros Hy.
  assert (H0 : 0 <= Qfloor y)
    by (change 0 with (Qfloor 0); apply Qfloor_resp_le, Hy).
  destruct (round_ties_even_cases y) as [[-> _]|[-> _]]; lia.
Qed.

Lemma round_ties_even_below (y : Q) (N : Z) :
  (y < inject_Z N - (1 # 2))%Q -> JS.round_ties_even y <= N - 1.
Proof.
  intros Hy.
  pose proof (Qfloor_le y) as Hf.
  destruct (round_ties_even_cases y) as [[-> _]|[-> Hh]].
  - assert (H : (inject_Z (Qfloor y) < inject_Z N)%Q) by lra.
    rewrite <- Zlt_Qlt in H. lia.
  - assert (H : (inject_Z (Qfloor y + 1) < inject_Z N)%Q)
      by (rewrite inject_Z_plus; change (inject_Z 1) with 1%Q; lra).
    rewrite <- Zlt_Qlt in H. lia.
Qed.

(** For an integer [n] below [2^53], a number that is at most
    [n * (1 - 2^-53)] is rounded to a double below [n]: the doubles next
    to [n] are more than [n * 2^-53] apart. *)
Lemma nearest_double_below (x : Q) (n : Z) :
  0 < n < 2 ^ 53 ->
  (0 <= x)%Q -> (x <= inject_Z n * (9007199254740991 # 9007199254740992))%Q ->
  0 <= Qfloor (JS.nearest_double x) < n.
Proof.
  intros Hn H0 Hx. unfold JS.nearest_double. cbv zeta.
  set (W := 2 ^ 1074).
  set (y := (x * inject_Z W)%Q).
  set (j := Z.max 0 (Z.log2 (Qfloor y) - 52)).
  set (M := JS.round_ties_even (y / inject_Z (2 ^ j))).
  assert (HW : 0 < W) by (apply Z.pow_pos_nonneg; lia).
  assert (HWq : (0 < inject_Z W)%Q)
    by (change 0%Q with (inject_Z 0); rewrite <- Zlt_Qlt; exact HW).
  assert (Hnq : (0 < inject_Z n)%Q)
    by (change 0%Q with (inject_Z 0); rewrite <- Zlt_Qlt; lia).
  assert (Hj0 : 0 <= j) by (unfold j; lia).
  assert (HP : 0 < 2 ^ j) by (apply Z.pow_pos_nonneg; lia).
  assert (HPq : (0 < inject_Z (2 ^ j))%Q)
    by (change 0%Q with (inject_Z 0); rewrite <- Zlt_Qlt; exact HP).
  assert (Hy0 : (0 <= y)%Q) by (unfold y; apply Qmult_le_0_compat; lra).
  assert (Hxn : (x < inject_Z n)%Q) by lra.
  assert (HyW : (y < inject_Z (n * W))%Q).
  { rewrite inject_Z_mult. unfold y. apply Qmult_lt_compat_r; assumption. }
  assert (HF0 : 0 <= Qfloor y)
    by (change 0 with (Qfloor 0); apply Qfloor_resp_le, Hy0).
  assert (HF : Qfloor y < n * W).
  { rewrite Zlt_Qlt. apply Qle_lt_trans with y; [apply Qfloor_le | exact HyW]. }
  assert (Hj : j <= 1074).
  { unfold j. apply Z.max_lub; [lia|].
    destruct (Z.eq_dec (Qfloor y) 0) as [->|Hne]; [cbn; lia|].
    assert (Z.log2 (Qfloor y) < 1127); [|lia].
    apply Z.log2_lt_pow2; [lia|].
    replace (2 ^ 1127) with (2 ^ 53 * W)
      by (unfold W; rewrite <- Z.pow_add_r by lia; reflexivity).
    nia. }
  set (N := n * 2 ^ (1074 - j)).
  assert (HNP : N * 2 ^ j = n * W).
  { unfold N, W. rewrite <- Z.mul_assoc, <- Z.pow_add_r by lia.
    replace (1074 - j + j) with 1074 by lia. reflexivity. }
  assert (HN : 2 ^ 52 < N).
  { apply Z.mul_lt_mono_pos_r with (2 ^ j); [exact HP|]. rewrite HNP.
    destruct (Z.max_spec 0 (Z.log2 (Qfloor y) - 52)) as [[Hlt E]|[Hge E]];
      fold j in E.
    - rewrite E, <- Z.pow_add_r by lia.
      replace (52 + (Z.log2 (Qfloor y) - 52)) with (Z.log2 (Qfloor y)) by lia.
      assert (0 < Qfloor y).
      { destruct (Z.eq_dec (Qfloor y) 0) as [E0|Hne]; [|lia].
        rewrite E0 in Hlt. cbn in Hlt. lia. }
      pose proof (Z.log2_spec (Qfloor y)). lia.
    - rewrite E, Z.pow_0_r, Z.mul_1_r.
      assert (2 ^ 52 < W) by (unfold W; apply Z.pow_lt_mono_r; lia).
      nia. }
  assert (HNPq : (inject_Z N * inject_Z (2 ^ j) == inject_Z n * inject_Z W)%Q)
    by (rewrite <- !inject_Z_mult, HNP; reflexivity).
  assert (HNq : (inject_Z (2 ^ 52) * inject_Z (2 ^ j)
                 < inject_Z N * inject_Z (2 ^ j))%Q)
    by (apply Qmult_lt_compat_r; [exact HPq | rewrite <- Zlt_Qlt; exact HN]).
  assert (HxW : (x * inject_Z W
                 <= inject_Z n * (9007199254740991 # 9007199254740992)
                    * inject_Z W)%Q)
    by (apply Qmult_le_compat_r; [exact Hx | apply Qlt_le_weak, HWq]).
  assert (HM : M <= N - 1).
  { apply round_ties_even_below. apply Qlt_shift_div_r; [exact HPq|].
    unfold y. change (inject_Z (2 ^ 52)) with 4503599627370496%Q in HNq. lra. }
  assert (HM0 : 0 <= M).
  { apply round_ties_even_nonneg. apply Qle_shift_div_l; [exact HPq|]. lra. }
  assert (HR : (inject_Z (M * 2 ^ j) / inject_Z W < inject_Z n)%Q).
  { apply Qlt_shift_div_r; [exact HWq|].
    rewrite <- inject_Z_mult, <- Zlt_Qlt. nia. }
  split.
  - change 0 with (Qfloor 0). apply Qfloor_resp_le.
    apply Qle_shift_div_l; [exact HWq|]. rewrite Qmult_0_l.
    change 0%Q with (inject_Z 0). rewrite <- Zle_Qle. nia.
  - rewrite Zlt_Qlt. eapply Qle_lt_trans; [apply Qfloor_le | exact HR].
Qed.

(** The largest double below 1 is [1 - 2^-53]. *)
Lemma double_below_one (u : Q) :
  is_double u -> (u < 1)%Q -> (u <= 9007199254740991 # 9007199254740992)%Q.
Proof.
  intros (m & j & Hm & Hj & E) H1.
  set (W := 2 ^ 1074) in *.
  assert (HW : 0 < W) by (apply Z.pow_pos_nonneg; lia).
  assert (HWq : (0 < inject_Z W)%Q)
    by (change 0%Q with (inject_Z 0); rewrite <- Zlt_Qlt; exact HW).
  assert (HP : 0 < 2 ^ j) by (apply Z.pow_pos_nonneg; lia).
  assert (Hlt : m * 2 ^ j < W).
  { rewrite Zlt_Qlt, <- E.
    setoid_replace (inject_Z W) with (1 * inject_Z W)%Q at 2 by ring.
    apply Qmult_lt_compat_r; assumption. }
  assert (Hle : m * 2 ^ j <= W - 2 ^ 1021).
  { destruct (Z.le_gt_cases m 0) as [Hm0|Hm0].
    { assert (2 ^ 1021 < W) by (unfold W; apply Z.pow_lt_mono_r; lia). nia. }
    destruct (Z.le_gt_cases 1021 j) as [Hj1|Hj1].
    - assert (Hj2 : j <= 1074).
      { destruct (Z.le_gt_cases j 1074) as [H|H]; [exact H|].
        assert (W < 2 ^ j) by (unfold W; apply Z.pow_lt_mono_r; lia). nia. }
      assert (EW : W = 2 ^ (1074 - j) * 2 ^ j).
      { unfold W. rewrite <- Z.pow_add_r by lia. f_equal. lia. }
      assert (2 ^ 1021 <= 2 ^ j) by (apply Z.pow_le_mono_r; lia).
      assert (m < 2 ^ (1074 - j)) by nia.
      nia.
    - assert (2 ^ j <= 2 ^ 1020) by (apply Z.pow_le_mono_r; lia).
      assert (EW : W - 2 ^ 1021 = (2 ^ 53 - 1) * (2 * 2 ^ 1020)) by reflexivity.
      assert (0 < 2 ^ 1020) by (apply Z.pow_pos_nonneg; lia).
      rewrite EW.
      apply Z.le_trans with ((2 ^ 53 - 1) * 2 ^ j);
        [apply Z.mul_le_mono_nonneg_r; lia|].
      apply Z.mul_le_mono_nonneg_l; lia. }
  apply Qmult_lt_0_le_reg_r with (inject_Z W); [exact HWq|].
  rewrite E.
  assert (EW : ((9007199254740991 # 9007199254740992) * inject_Z W
                == inject_Z (W - 2 ^ 1021))%Q) by reflexivity.
  rewrite EW, <- Zle_Qle. exact Hle.
Qed.

(** The value [Math.floor(Math.random() * n)] for a value of
    [Math.random()], a double in the interval from 0 (included) to 1
    (excluded), and an integer [n] below [2^53]. *)
Lemma js_draw_range (u : Q) (n : Z) :
  is_double u -> (0 <= u)%Q -> (u < 1)%Q -> 0 < n < 2 ^ 53 ->
  0 <= JS.Math_floor (JS.times u (inject_Z n)) < n.
Proof.
  intros Hd H0 H1 Hn.
  pose proof (double_below_one u Hd H1) as Hu.
  assert (Hnq : (0 < inject_Z n)%Q)
    by (change 0%Q with (inject_Z 0); rewrite <- Zlt_Qlt; lia).
  assert (Hx : (0 <= u * inject_Z n)%Q)
    by (apply Qmult_le_0_compat; [exact H0 | apply Qlt_le_weak, Hnq]).
  unfold JS.Math_floor, JS.times, JS.to_double.
  replace (Qle_bool 0 (u * inject_Z n)) with true
    by (symmetry; apply Qle_bool_iff; exact Hx).
  apply nearest_double_below; [exact Hn | exact Hx|].
  rewrite (Qmult_comm u). apply Qmult_le_l; assumption.
Qed.

(** The value [rand() % n] for a value of [rand()] that is not negative. *)
Lemma c_draw_range (rnd n : Z) :
  0 <= rnd -> 0 < n -> 0 <= Z.rem rnd n < n.
Proof. intros. rewrite Z.rem_mod_nonneg by lia. apply Z.mod_pos_bound. lia. Qed.

(** * Properties of the validators *)

(** ** Checks as blocks of code *)

Lemma fail_if_check (c : bool) (f : Failure) :
  fail_if c f = of_check (if c then Some f else None).
Proof. destruct c; reflexivity. Qed.

(** Nine blocks in a row compute the first failure of the nine checks. *)
Lemma finish_checks (c1 c2 c3 c4 c5 c6 c7 c8 c9 : option Failure) :
  finish (of_check c1 ;; of_check c2 ;; of_check c3 ;; of_check c4 ;;
          of_check c5 ;; of_check c6 ;; of_check c7 ;; of_check c8 ;;
          of_check c9 ;; Continue tt)%outcome
  = Some (Checks.first_failure [c1; c2; c3; c4; c5; c6; c7; c8; c9]).
Proof.
  destruct c1; [reflexivity|]. destruct c2; [reflexivity|].
  destruct c3; [reflexivity|]. destruct c4; [reflexivity|].
  destruct c5; [reflexivity|]. destruct c6; [reflexivity|].
  destruct c7; [reflexivity|]. destruct c8; [reflexivity|].
  destruct c9; reflexivity.
Qed.

(** ** Loops over positions *)

(** The loop that looks for two equal neighbours, on any string whose
    reads inside the string succeed. *)
Lemma for_loop_first_repeat (s : list N) :
  forall (k : Z) (body : Z -> outcome unit),
    (forall j : nat, (S j < length s)%nat ->
       body (k + Z.of_nat j) =
       fail_if (nth j s 0 =? nth (S j) s 0)%N
               (ConsecutiveChars (nth j s 0%N) (k + Z.of_nat j))) ->
    for_loop (length s - 1) k body = of_check (Checks.first_repeat k s).
Proof.
  induction s as [|a [|b t] IH]; intros k body Hbody; try reflexivity.
  replace (length (a :: b :: t) - 1)%nat with (S (length (b :: t) - 1))
    by (cbn [length]; lia).
  cbn [for_loop Checks.first_repeat].
  pose proof (Hbody O) as H0. cbn [nth length] in H0.
  rewrite Z.add_0_r in H0. rewrite H0 by lia.
  destruct (a =? b)%N; cbn [fail_if obind]; [reflexivity|].
  apply IH. intros j Hj.
  replace (k + 1 + Z.of_nat j) with (k + Z.of_nat (S j)) by lia.
  apply (Hbody (S j)). cbn [length] in *. lia.
Qed.

(** ** C strings *)

Lemma chars_nil : C.chars [] = [].
Proof. reflexivity. Qed.

Lemma chars_cons (ch : ascii) (rest : list ascii) :
  C.chars (ch :: rest) = if C.is_nul ch then [] else ch :: C.chars rest.
Proof. unfold C.chars. cbn [C.strlen]. destruct (C.is_nul ch); reflexivity. Qed.

Lemma chars_length (password : list ascii) :
  length (C.chars password) = C.strlen password.
Proof.
  induction password as [|ch rest IH]; [reflexivity|].
  rewrite chars_cons. cbn [C.strlen]. destruct (C.is_nul ch); cbn [length]; congruence.
Qed.

Lemma strlen_le (password : list ascii) :
  (C.strlen password <= length password)%nat.
Proof.
  induction password as [|ch rest IH]; cbn [C.strlen length]; [lia|].
  destruct (C.is_nul ch); lia.
Qed.

Lemma chars_nth (password : list ascii) :
  forall i : nat, (i < C.strlen password)%nat ->
    nth i password zero = nth i (C.chars password) zero.
Proof.
  induction password as [|ch rest IH]; intros i Hi; [reflexivity|].
  rewrite chars_cons. cbn [C.strlen] in Hi.
  destruct (C.is_nul ch); [lia|].
  destruct i as [|i]; [reflexivity|]. cbn [nth]. apply IH. lia.
Qed.

(** No character of a C string is NUL. *)
Lemma chars_not_nul (password : list ascii) :
  Forall (fun ch => C.is_nul ch = false) (C.chars password).
Proof.
  induction password as [|ch rest IH]; [constructor|].
  rewrite chars_cons. destruct (C.is_nul ch) eqn:E; constructor; assumption.
Qed.

(** A list without NUL is the C string of the array that holds it. *)
Lemma chars_id (s : list ascii) :
  Forall (fun ch => C.is_nul ch = false) s -> C.chars s = s.
Proof.
  induction 1 as [|ch rest Hch _ IH]; [reflexivity|].
  rewrite chars_cons, Hch, IH. reflexivity.
Qed.

(** Reads inside the string succeed and yield its characters. *)
Lemma read_chars (password : list ascii) (i : Z) :
  0 <= i < Z.of_nat (C.strlen password) ->
  C.read password i = Continue (nth (Z.to_nat i) (C.chars password) zero).
Proof.
  intros Hi. pose proof (strlen_le password) as Hle. unfold C.read.
  replace ((0 <=? i) && (i <? Z.of_nat (length password))) with true
    by (symmetry; apply andb_true_iff; split;
        [apply Z.leb_le | apply Z.ltb_lt]; lia).
  rewrite chars_nth by lia. reflexivity.
Qed.

Lemma count_loop_chars (password : list ascii) :
  forall c, C.count_loop password c
            = fold_left (fun c ch => C.count_char ch c) (C.chars password) c.
Proof.
  induction password as [|ch rest IH]; intros c; [reflexivity|].
  rewrite chars_cons. cbn [C.count_loop]. destruct (C.is_nul ch); [reflexivity|].
  cbn [fold_left]. apply IH.
Qed.

(** ** Counting *)

Lemma count_nil (p : N -> bool) : Checks.count [] p = 0.
Proof. reflexivity. Qed.

Lemma count_cons (p : N -> bool) (c : N) (s : list N) :
  Checks.count (c :: s) p = (if p c then 1 else 0) + Checks.count s p.
Proof.
  unfold Checks.count. cbn [filter]. destruct (p c); cbn [length]; lia.
Qed.

Lemma count_bounds (p : N -> bool) (s : list N) :
  0 <= Checks.count s p <= Checks.len s.
Proof.
  unfold Checks.len. induction s as [|c s IH]; [rewrite count_nil; cbn; lia|].
  rewrite count_cons. cbn [length]. destruct (p c); lia.
Qed.

Lemma digit_sum_nil (k : Checks.classes) : Checks.digit_sum k [] = 0.
Proof. reflexivity. Qed.

Lemma digit_sum_cons (k : Checks.classes) (c : N) (s : list N) :
  Checks.digit_sum k (c :: s)
  = (if Checks.is_digit k c then Z.of_N c - 48 else 0) + Checks.digit_sum k s.
Proof.
  unfold Checks.digit_sum. cbn [filter]. destruct (Checks.is_digit k c); reflexivity.
Qed.

(** *** The classes of [<ctype.h>] *)

(** Decide facts about the classes of one character: with all hypotheses
    on the classes in the goal, compare the code with the bounds. *)
Ltac ctype :=
  unfold C.ispunct, C.isgraph, C.isalnum, C.isupper, C.islower, C.isdigit,
    C.isspace, C.isprint, C.is_nul;
  repeat match goal with
         | |- context [?a <=? ?b] =>
           destruct (Z.leb_spec a b); try (exfalso; lia)
         | |- context [?a =? ?b] =>
           destruct (Z.eqb_spec a b); try (exfalso; lia)
         end;
  cbn [andb orb negb]; intros;
  repeat match goal with |- _ /\ _ => split end;
  try reflexivity; try discriminate; try lia.

(** At most one of the four classes holds of a character. *)
Lemma c_classes_exclusive (ch : ascii) :
  (C.isupper ch = true -> C.islower ch = false /\ C.isdigit ch = false
                          /\ C.ispunct ch = false)
  /\ (C.islower ch = true -> C.isdigit ch = false /\ C.ispunct ch = false)
  /\ (C.isdigit ch = true -> C.ispunct ch = false).
Proof. ctype. Qed.

(** Whitespace is in no class. *)
Lemma c_space_no_class (ch : ascii) :
  C.isspace ch = true ->
  C.isupper ch = false /\ C.islower ch = false /\ C.isdigit ch = false
  /\ C.ispunct ch = false.
Proof. ctype. Qed.

Lemma c_classes_code (ch : ascii) :
  Checks.is_upper Checks.c_classes (N_of_ascii ch) = C.isupper ch
  /\ Checks.is_lower Checks.c_classes (N_of_ascii ch) = C.islower ch
  /\ Checks.is_digit Checks.c_classes (N_of_ascii ch) = C.isdigit ch
  /\ Checks.is_symbol Checks.c_classes (N_of_ascii ch) = C.ispunct ch.
Proof. cbn. rewrite ascii_N_embedding. auto. Qed.

Ltac c_counters :=
  cbn [C.upper_count C.lower_count C.digit_count C.symbol_count
       C.current_digit_sum].

(** The counters after the counting loop. *)
Lemma c_count_fold (s : list ascii) :
  forall c,
    let c' := fold_left (fun c ch => C.count_char ch c) s c in
    C.upper_count c'
    = C.upper_count c + Checks.count (codes s) (Checks.is_upper Checks.c_classes)
    /\ C.lower_count c'
       = C.lower_count c + Checks.count (codes s) (Checks.is_lower Checks.c_classes)
    /\ C.digit_count c'
       = C.digit_count c + Checks.count (codes s) (Checks.is_digit Checks.c_classes)
    /\ C.symbol_count c'
       = C.symbol_count c + Checks.count (codes s) (Checks.is_symbol Checks.c_classes)
    /\ C.current_digit_sum c'
       = C.current_digit_sum c + Checks.digit_sum Checks.c_classes (codes s).
Proof.
  induction s as [|ch s IH]; intros c; cbv zeta.
  - cbn [fold_left codes map]. rewrite !count_nil, digit_sum_nil. lia.
  - cbn [fold_left codes map]. fold (codes s).
    rewrite !count_cons, digit_sum_cons.
    destruct (c_classes_code ch) as (-> & -> & -> & ->).
    destruct (IH (C.count_char ch c)) as (-> & -> & -> & -> & ->).
    destruct (c_classes_exclusive ch) as (HU & HL & HD).
    unfold C.count_char. change (C.code "0") with 48. unfold C.code.
    destruct (C.isupper ch).
    { destruct (HU eq_refl) as (-> & -> & ->). c_counters. lia. }
    destruct (C.islower ch).
    { destruct (HL eq_refl) as (-> & ->). c_counters. lia. }
    destruct (C.isdigit ch).
    { rewrite (HD eq_refl). c_counters. lia. }
    destruct (C.ispunct ch); c_counters; lia.
Qed.

(** ** Lists: last element, reversal *)

Lemma nth_last {A} (l : list A) (d d' : A) :
  l <> [] -> nth (length l - 1) l d = last l d'.
Proof.
  induction l as [|a [|b t] IH]; intros Hl; [congruence | reflexivity |].
  change (last (a :: b :: t) d') with (last (b :: t) d').
  rewrite <- IH by discriminate.
  cbn [length]. replace (S (S (length t)) - 1)%nat with (S (S (length t) - 1)) by lia.
  reflexivity.
Qed.

Lemma last_map {A B} (f : A -> B) (l : list A) (d : A) :
  last (map f l) (f d) = f (last l d).
Proof.
  induction l as [|a [|b t] IH]; try reflexivity.
  change (last (map f (a :: b :: t)) (f d)) with (last (map f (b :: t)) (f d)).
  rewrite IH. reflexivity.
Qed.

(** A string read from both ends: it is its own reverse exactly when the
    characters at [j] and [length - 1 - j] agree on the first half. *)
Lemma palindrome_half {A} (l : list A) (d : A) (h : nat) :
  (2 * h <= length l <= 2 * h + 1)%nat ->
  (forall j : nat, (j < h)%nat -> nth j l d = nth (length l - 1 - j) l d) ->
  l = rev l.
Proof.
  intros Hh Hsym.
  apply (nth_ext l (rev l) d d); [rewrite length_rev; reflexivity|].
  intros j Hj. rewrite rev_nth by exact Hj.
  replace (length l - S j)%nat with (length l - 1 - j)%nat by lia.
  destruct (Nat.lt_ge_cases j h) as [Hlt | Hge]; [apply Hsym; exact Hlt|].
  destruct (Nat.lt_ge_cases (length l - 1 - j) h) as [Hlt' | Hge'].
  - rewrite (Hsym _ Hlt'). f_equal. lia.
  - f_equal. lia.
Qed.

Lemma palindrome_nth {A} (l : list A) (d : A) (j : nat) :
  l = rev l -> (j < length l)%nat -> nth j l d = nth (length l - 1 - j) l d.
Proof.
  intros Hl Hj. rewrite Hl at 1. rewrite rev_nth by exact Hj. f_equal. lia.
Qed.

(** ** The blocks of [validate_password] *)

Lemma N_of_ascii_inj (a b : ascii) : N_of_ascii a = N_of_ascii b -> a = b.
Proof.
  intros H. rewrite <- (ascii_N_embedding a), <- (ascii_N_embedding b), H.
  reflexivity.
Qed.

Lemma ascii_eqb_codes (a b : ascii) :
  Ascii.eqb a b = (N_of_ascii a =? N_of_ascii b)%N.
Proof.
  destruct (Ascii.eqb_spec a b) as [-> | Hne].
  - symmetry. apply N.eqb_refl.
  - symmetry. apply N.eqb_neq. intros H. apply Hne, N_of_ascii_inj, H.
Qed.

Lemma codes_length (s : list ascii) : length (codes s) = length s.
Proof. apply length_map. Qed.

Lemma codes_nth (s : list ascii) (j : nat) :
  nth j (codes s) 0%N = N_of_ascii (nth j s zero).
Proof. unfold codes. change 0%N with (N_of_ascii zero). apply map_nth. Qed.

Lemma codes_rev (s : list ascii) : rev (codes s) = codes (rev s).
Proof. unfold codes. symmetry. apply map_rev. Qed.

Lemma codes_inj (s t : list ascii) : codes s = codes t -> s = t.
Proof.
  revert t. induction s as [|a s IH]; intros [|b t] H; try discriminate; trivial.
  cbn in H. injection H as Hab Hst. f_equal; [apply N_of_ascii_inj, Hab | apply IH, Hst].
Qed.

(** The loop of the palindrome check reads inside the string and compares
    the characters at [j] and [len - 1 - j] for the [n] positions from [i]. *)
Lemma c_palindrome_loop (password : list ascii) (n : nat) :
  forall i : nat,
    (i + n <= C.strlen password)%nat ->
    exists b : bool,
      C.palindrome_loop password (Z.of_nat (C.strlen password)) n (Z.of_nat i)
      = Continue b
      /\ (b = true <->
          forall j : nat, (i <= j < i + n)%nat ->
            nth j (C.chars password) zero
            = nth (C.strlen password - 1 - j) (C.chars password) zero).
Proof.
  induction n as [|n IH]; intros i Hi.
  - exists true. split; [reflexivity|]. split; [intros _ j Hj; lia | trivial].
  - cbn [C.palindrome_loop]. rewrite !read_chars by lia. cbn [obind].
    rewrite Nat2Z.id.
    replace (Z.to_nat (Z.of_nat (C.strlen password) - 1 - Z.of_nat i))
      with (C.strlen password - 1 - i)%nat by lia.
    destruct (Ascii.eqb_spec (nth i (C.chars password) zero)
                (nth (C.strlen password - 1 - i) (C.chars password) zero))
      as [Heq | Hne]; cbn [negb].
    + replace (Z.of_nat i + 1) with (Z.of_nat (S i)) by lia.
      destruct (IH (S i)) as (b & Hb & Hiff); [lia|].
      exists b. split; [exact Hb|]. rewrite Hiff. split.
      * intros H j Hj. destruct (Nat.eq_dec j i) as [-> | Hji]; [exact Heq|].
        apply H. lia.
      * intros H j Hj. apply H. lia.
    + exists false. split; [reflexivity|]. split; [discriminate|].
      intros H. exfalso. apply Hne, H. lia.
Qed.

Lemma c_palindrome_block (password : list ascii) :
  exists b : bool,
    C.palindrome_loop password (Z.of_nat (C.strlen password))
      (Z.to_nat (Z.quot (Z.of_nat (C.strlen password)) 2)) 0
    = Continue b
    /\ (b = true <-> C.chars password = rev (C.chars password)).
Proof.
  set (h := Z.to_nat (Z.quot (Z.of_nat (C.strlen password)) 2)).
  assert (Hh : (2 * h <= C.strlen password <= 2 * h + 1)%nat).
  { subst h.
    assert (H := Z.quot_div_nonneg (Z.of_nat (C.strlen password)) 2).
    rewrite H by lia. clear H.
    assert (0 <= Z.of_nat (C.strlen password) / 2) by (apply Z.div_pos; lia).
    Z.to_euclidean_division_equations. lia. }
  destruct (c_palindrome_loop password h O) as (b & Hb & Hiff); [lia|].
  exists b. split; [exact Hb|]. rewrite Hiff. clear Hb Hiff.
  rewrite <- chars_length in *. split.
  - intros H. apply (palindrome_half _ zero h Hh). intros j Hj. apply H. lia.
  - intros H j Hj. apply palindrome_nth; [exact H | lia].
Qed.

Lemma c_start_end_block (password : list ascii) (q : C.PasswordRequirements) :
  let len := Z.of_nat (C.strlen password) in
  when (negb (C.req_start_upper_end_symbol q =? 0))
    (fail_if (len =? 0) EmptyStartEnd ;;
     first <- C.read password 0 ;;
     fail_if (negb (C.isupper first)) MustStartUppercase ;;
     last <- C.read password (len - 1) ;;
     fail_if (negb (C.ispunct last)) MustEndSymbol)%outcome
  = of_check (Checks.check_start_end Checks.c_classes (codes (C.chars password))
                (C.requirements_of q)).
Proof.
  cbv zeta. unfold Checks.check_start_end.
  cbn [reqStartUpperEndSymbol C.requirements_of].
  destruct (negb (C.req_start_upper_end_symbol q =? 0)); [|reflexivity].
  cbn [when]. pose proof (chars_length password) as Hlen.
  destruct (C.chars password) as [|a t] eqn:E.
  - cbn [length] in Hlen. rewrite <- Hlen. reflexivity.
  - cbn [length] in Hlen.
    replace (Z.of_nat (C.strlen password) =? 0) with false
      by (symmetry; apply Z.eqb_neq; lia).
    cbn [fail_if obind]. rewrite !read_chars by lia. cbn [obind].
    rewrite E. cbn [nth Z.to_nat codes map]. fold (codes t).
    destruct (c_classes_code a) as (-> & _).
    destruct (C.isupper a); cbn [negb fail_if obind of_check]; [|reflexivity].
    change (N_of_ascii a :: codes t) with (codes (a :: t)).
    unfold codes at 1. rewrite last_map.
    destruct (c_classes_code (last (a :: t) a)) as (_ & _ & _ & ->).
    replace (Z.to_nat (Z.of_nat (C.strlen password) - 1))
      with (length (a :: t) - 1)%nat by (cbn [length]; lia).
    change (match (length (a :: t) - 1)%nat with
            | O => a
            | S m => nth m t zero
            end) with (nth (length (a :: t) - 1) (a :: t) zero).
    rewrite (nth_last (a :: t) zero a) by discriminate.
    destruct (C.ispunct (last (a :: t) a)); reflexivity.
Qed.

Lemma c_no_consecutive_block (password : list ascii) (q : C.PasswordRequirements) :
  let len := Z.of_nat (C.strlen password) in
  when (negb (C.req_no_consecutive_chars q =? 0))
    (for_range 0 (len - 1) (fun i =>
       a <- C.read password i ;;
       b <- C.read password (i + 1) ;;
       fail_if (Ascii.eqb a b) (ConsecutiveChars (N_of_ascii a) i)))%outcome
  = of_check (Checks.check_no_consecutive (codes (C.chars password))
                (C.requirements_of q)).
Proof.
  cbv zeta. unfold Checks.check_no_consecutive.
  cbn [reqNoConsecutiveChars C.requirements_of].
  destruct (negb (C.req_no_consecutive_chars q =? 0)); [|reflexivity].
  cbn [when]. unfold for_range.
  replace (Z.to_nat (Z.of_nat (C.strlen password) - 1 - 0))
    with (length (codes (C.chars password)) - 1)%nat
    by (rewrite codes_length, chars_length; lia).
  apply for_loop_first_repeat. intros j Hj.
  rewrite codes_length, chars_length in Hj.
  rewrite !read_chars by lia. cbn [obind].
  rewrite !codes_nth, ascii_eqb_codes.
  replace (Z.to_nat (0 + Z.of_nat j)) with j by lia.
  replace (Z.to_nat (0 + Z.of_nat j + 1)) with (S j) by lia.
  reflexivity.
Qed.

Lemma c_palindrome_check (password : list ascii) (q : C.PasswordRequirements) :
  let len := Z.of_nat (C.strlen password) in
  when (negb (C.req_palindrome q =? 0))
    (is_palindrome <- C.palindrome_loop password len (Z.to_nat (Z.quot len 2)) 0 ;;
     fail_if (negb is_palindrome) NotPalindrome)%outcome
  = of_check (Checks.check_palindrome (codes (C.chars password))
                (C.requirements_of q)).
Proof.
  cbv zeta. unfold Checks.check_palindrome.
  cbn [reqPalindrome C.requirements_of].
  destruct (negb (C.req_palindrome q =? 0)); [|reflexivity].
  cbn [when]. destruct (c_palindrome_block password) as (b & -> & Hb).
  cbn [obind].
  destruct (list_eq_dec N.eq_dec (codes (C.chars password))
              (rev (codes (C.chars password)))) as [Heq | Hne].
  - rewrite codes_rev in Heq. apply codes_inj in Heq.
    apply Hb in Heq. subst b. reflexivity.
  - destruct b; [|reflexivity]. exfalso. apply Hne.
    rewrite codes_rev. f_equal. apply Hb. reflexivity.
Qed.

Lemma digit_sum_block (flag : bool) (sum target min_digits : Z) :
  when flag
    (fail_if (negb (sum =? target)) (DigitSumMismatch sum target) ;;
     fail_if ((min_digits =? 0) && negb (target =? 0)) ImpossibleDigitSum)%outcome
  = of_check
      (if flag then
         if negb (sum =? target) then Some (DigitSumMismatch sum target)
         else if (min_digits =? 0) && negb (target =? 0)
              then Some ImpossibleDigitSum else None
       else None).
Proof.
  destruct flag; [|reflexivity]. cbn [when].
  destruct (negb (sum =? target)); [reflexivity|].
  destruct ((min_digits =? 0) && negb (target =? 0)); reflexivity.
Qed.

(** [validate_password] never reads outside of the string, and its verdict
    is the first failure of the nine checks on the characters of the
    string, with the classes of [<ctype.h>]. *)
Lemma c_validate_checks (password : list ascii) (q : C.PasswordRequirements) :
  C.validate_password password q
  = Some (Checks.validate Checks.c_classes (codes (C.chars password))
            (C.requirements_of q)).
Proof.
  unfold C.validate_password, Checks.validate, Checks.checks. cbv zeta.
  rewrite c_start_end_block, c_no_consecutive_block, c_palindrome_check.
  rewrite digit_sum_block.
  rewrite count_loop_chars.
  destruct (c_count_fold (C.chars password) C.no_counts)
    as (-> & -> & -> & -> & ->).
  cbn [C.upper_count C.lower_count C.digit_count C.symbol_count
       C.current_digit_sum C.no_counts]. rewrite !Z.add_0_l.
  rewrite !fail_if_check.
  rewrite <- chars_length, <- codes_length.
  apply finish_checks.
Qed.

(** ** The blocks of [validatePassword] *)

Ltac jstype :=
  unfold JS.isSymbol, JS.re_upper, JS.re_lower, JS.re_digit, JS.re_space;
  repeat match goal with
         | |- context [(?a <=? ?b)%N] =>
           destruct (N.leb_spec a b); try (exfalso; lia)
         | |- context [(?a =? ?b)%N] =>
           destruct (N.eqb_spec a b); try (exfalso; lia)
         end;
  cbn [andb orb negb]; intros;
  repeat match goal with |- _ /\ _ => split end;
  try reflexivity; try discriminate; try lia.

Lemma js_classes_exclusive (c : N) :
  (JS.re_upper c = true -> JS.re_lower c = false /\ JS.re_digit c = false
                           /\ JS.isSymbol c = false)
  /\ (JS.re_lower c = true -> JS.re_digit c = false /\ JS.isSymbol c = false)
  /\ (JS.re_digit c = true -> JS.isSymbol c = false).
Proof. jstype. Qed.

Lemma js_space_no_class (c : N) :
  JS.re_space c = true ->
  JS.re_upper c = false /\ JS.re_lower c = false /\ JS.re_digit c = false
  /\ JS.isSymbol c = false.
Proof. jstype. Qed.

Ltac js_counters :=
  cbn [JS.upperCount JS.lowerCount JS.digitCount JS.symbolCount
       JS.currentDigitSum].

Lemma js_count_fold (s : list N) :
  forall c,
    let c' := fold_left JS.count_char s c in
    JS.upperCount c'
    = JS.upperCount c + Checks.count s (Checks.is_upper Checks.js_classes)
    /\ JS.lowerCount c'
       = JS.lowerCount c + Checks.count s (Checks.is_lower Checks.js_classes)
    /\ JS.digitCount c'
       = JS.digitCount c + Checks.count s (Checks.is_digit Checks.js_classes)
    /\ JS.symbolCount c'
       = JS.symbolCount c + Checks.count s (Checks.is_symbol Checks.js_classes)
    /\ JS.currentDigitSum c'
       = JS.currentDigitSum c + Checks.digit_sum Checks.js_classes s.
Proof.
  induction s as [|ch s IH]; intros c; cbv zeta.
  - cbn [fold_left]. rewrite !count_nil, digit_sum_nil. lia.
  - cbn [fold_left]. rewrite !count_cons, digit_sum_cons.
    destruct (IH (JS.count_char c ch)) as (-> & -> & -> & -> & ->).
    destruct (js_classes_exclusive ch) as (HU & HL & HD).
    cbn [Checks.is_upper Checks.is_lower Checks.is_digit Checks.is_symbol
         Checks.js_classes].
    unfold JS.count_char.
    destruct (JS.re_upper ch).
    { destruct (HU eq_refl) as (-> & -> & ->). js_counters. lia. }
    destruct (JS.re_lower ch).
    { destruct (HL eq_refl) as (-> & ->). js_counters. lia. }
    destruct (JS.re_digit ch).
    { rewrite (HD eq_refl). js_counters. lia. }
    destruct (JS.isSymbol ch); js_counters; lia.
Qed.

Lemma char_at_nth (password : list N) (i : Z) :
  0 <= i < Z.of_nat (length password) ->
  JS.char_at password i = Continue (nth (Z.to_nat i) password 0%N).
Proof.
  intros Hi. unfold JS.char_at.
  replace ((0 <=? i) && (i <? Z.of_nat (length password))) with true
    by (symmetry; apply andb_true_iff; split;
        [apply Z.leb_le | apply Z.ltb_lt]; lia).
  reflexivity.
Qed.

Lemma str_eqb_eq (a b : list N) : JS.str_eqb a b = true <-> a = b.
Proof.
  revert b. induction a as [|x a IH]; intros [|y b]; cbn [JS.str_eqb];
    try (split; [discriminate | congruence]); [tauto|].
  rewrite andb_true_iff, N.eqb_eq, IH. split; [intros [-> ->]; trivial | intros [= -> ->]; auto].
Qed.

Lemma js_start_end_block (password : list N) (q : Requirements) :
  let len := Z.of_nat (length password) in
  when (reqStartUpperEndSymbol q)
    (fail_if (len =? 0) EmptyStartEnd ;;
     fail_if (negb (JS.starts_upper password)) MustStartUppercase ;;
     last <- JS.char_at password (len - 1) ;;
     fail_if (negb (JS.isSymbol last)) MustEndSymbol)%outcome
  = of_check (Checks.check_start_end Checks.js_classes password q).
Proof.
  cbv zeta. unfold Checks.check_start_end.
  destruct (reqStartUpperEndSymbol q); [|reflexivity].
  cbn [when]. destruct password as [|a t]; [reflexivity|].
  replace (Z.of_nat (length (a :: t)) =? 0) with false
    by (symmetry; apply Z.eqb_neq; cbn [length]; lia).
  cbn [fail_if obind JS.starts_upper Checks.is_upper Checks.is_symbol
       Checks.js_classes].
  destruct (JS.re_upper a); cbn [negb fail_if obind of_check]; [|reflexivity].
  rewrite char_at_nth by (cbn [length]; lia). cbn [obind].
  replace (Z.to_nat (Z.of_nat (length (a :: t)) - 1))
    with (length (a :: t) - 1)%nat by lia.
  rewrite (nth_last (a :: t) 0%N a) by discriminate.
  destruct (JS.isSymbol (last (a :: t) a)); reflexivity.
Qed.

Lemma js_no_consecutive_block (password : list N) (q : Requirements) :
  let len := Z.of_nat (length password) in
  when (reqNoConsecutiveChars q)
    (for_range 0 (len - 1) (fun i =>
       a <- JS.char_at password i ;;
       b <- JS.char_at password (i + 1) ;;
       fail_if (a =? b)%N (ConsecutiveChars a i)))%outcome
  = of_check (Checks.check_no_consecutive password q).
Proof.
  cbv zeta. unfold Checks.check_no_consecutive.
  destruct (reqNoConsecutiveChars q); [|reflexivity].
  cbn [when]. unfold for_range.
  replace (Z.to_nat (Z.of_nat (length password) - 1 - 0))
    with (length password - 1)%nat by lia.
  apply for_loop_first_repeat. intros j Hj.
  rewrite !char_at_nth by lia. cbn [obind].
  replace (Z.to_nat (0 + Z.of_nat j)) with j by lia.
  replace (Z.to_nat (0 + Z.of_nat j + 1)) with (S j) by lia.
  reflexivity.
Qed.

Lemma js_palindrome_block (password : list N) (q : Requirements) :
  when (reqPalindrome q)
    (fail_if (negb (JS.str_eqb password (rev password))) NotPalindrome)
  = of_check (Checks.check_palindrome password q).
Proof.
  unfold Checks.check_palindrome.
  destruct (reqPalindrome q); [|reflexivity]. cbn [when].
  destruct (list_eq_dec N.eq_dec password (rev password)) as [Heq | Hne].
  - apply str_eqb_eq in Heq. rewrite Heq. reflexivity.
  - destruct (JS.str_eqb password (rev password)) eqn:E; [|reflexivity].
    apply str_eqb_eq in E. contradiction.
Qed.

(** [validatePassword] never reads outside of the string, and its verdict
    is the first failure of the nine checks, with the classes of its regular
    expressions. *)
Lemma js_validate_checks (password : list N) (q : Requirements) :
  JS.validatePassword password q
  = Some (Checks.validate Checks.js_classes password q).
Proof.
  unfold JS.validatePassword, Checks.validate, Checks.checks. cbv zeta.
  rewrite js_start_end_block, js_no_consecutive_block, js_palindrome_block.
  rewrite digit_sum_block.
  destruct (js_count_fold password JS.no_counts) as (-> & -> & -> & -> & ->).
  cbn [JS.upperCount JS.lowerCount JS.digitCount JS.symbolCount
       JS.currentDigitSum JS.no_counts]. rewrite !Z.add_0_l.
  rewrite !fail_if_check.
  apply finish_checks.
Qed.

(** ** The order of the checks *)

Lemma first_failure_app (l : list (option Failure)) (c : option Failure) :
  Checks.first_failure (l ++ [c])
  = match Checks.first_failure l with
    | Invalid f => Invalid f
    | Valid => match c with Some f => Invalid f | None => Valid end
    end.
Proof.
  induction l as [|[f|] l IH]; cbn [app Checks.first_failure].
  - destruct c; reflexivity.
  - reflexivity.
  - exact IH.
Qed.

(** A failing length check decides the verdict. *)
Lemma validate_too_short (k : Checks.classes) (s : list N) (q : Requirements) :
  Checks.len s < minLength q ->
  Checks.validate k s q = Invalid (TooShort (Checks.len s) (minLength q)).
Proof.
  intros H. unfold Checks.validate, Checks.checks, Checks.check_length.
  apply Z.ltb_lt in H. rewrite H. reflexivity.
Qed.

Lemma first_repeat_failure (s : list N) :
  forall (i : Z) (f : Failure),
    Checks.first_repeat i s = Some f -> exists c p, f = ConsecutiveChars c p.
Proof.
  induction s as [|a [|b t] IH]; intros i f H; try discriminate.
  cbn [Checks.first_repeat] in H. destruct (a =? b)%N.
  - injection H as <-. eauto.
  - apply (IH _ _ H).
Qed.

(** The verdict "empty password" of the start/end check needs an empty
    password that passed the length check. *)
Lemma validate_empty_start_end (k : Checks.classes) (s : list N) (q : Requirements) :
  Checks.validate k s q = Invalid EmptyStartEnd ->
  s = [] /\ minLength q <= 0.
Proof.
  unfold Checks.validate, Checks.checks, Checks.check_length,
    Checks.check_uppercase, Checks.check_lowercase, Checks.check_digits,
    Checks.check_symbols. cbn [Checks.first_failure].
  destruct (Z.ltb_spec (Checks.len s) (minLength q)) as [|Hlen]; [discriminate|].
  destruct (_ <? minUppercase q); [discriminate|].
  destruct (_ <? minLowercase q); [discriminate|].
  destruct (_ <? minDigits q); [discriminate|].
  destruct (_ <? minSymbols q); [discriminate|].
  destruct s as [|a t]; [intros _; split; [reflexivity | exact Hlen]|].
  intros H. exfalso. revert H.
  assert (Hrest :
    Checks.first_failure
      [Checks.check_no_consecutive (a :: t) q; Checks.check_palindrome (a :: t) q;
       Checks.check_digit_sum k (a :: t) q] <> Invalid EmptyStartEnd).
  { cbn [Checks.first_failure].
    destruct (Checks.check_no_consecutive (a :: t) q) as [f|] eqn:E7.
    - unfold Checks.check_no_consecutive in E7.
      destruct (reqNoConsecutiveChars q); [|discriminate].
      apply first_repeat_failure in E7. destruct E7 as (c & p & ->). discriminate.
    - unfold Checks.check_palindrome, Checks.check_digit_sum.
      destruct (reqPalindrome q);
        [destruct (list_eq_dec _ _ _); [|discriminate]|];
        (destruct (reqDigitSum q); [|discriminate];
         destruct (negb _); [discriminate|];
         destruct (_ && _); discriminate). }
  unfold Checks.check_start_end.
  destruct (reqStartUpperEndSymbol q); [|exact Hrest].
  destruct (negb (Checks.is_upper k a)); [discriminate|].
  destruct (negb (Checks.is_symbol k (last (a :: t) a))); [discriminate|].
  exact Hrest.
Qed.

(** ** Validators with different classes *)

Lemma count_ext (p p' : N -> bool) (s : list N) :
  Forall (fun c => p c = p' c) s -> Checks.count s p = Checks.count s p'.
Proof.
  induction 1 as [|c s Hc _ IH]; [reflexivity|].
  rewrite !count_cons, Hc, IH. reflexivity.
Qed.

Lemma digit_sum_ext (k k' : Checks.classes) (s : list N) :
  Forall (same_classes k k') s -> Checks.digit_sum k s = Checks.digit_sum k' s.
Proof.
  induction 1 as [|c s (_ & _ & Hd & _) _ IH]; [reflexivity|].
  rewrite !digit_sum_cons, Hd, IH. reflexivity.
Qed.

Lemma last_In {A} (a : A) (t : list A) : In (last (a :: t) a) (a :: t).
Proof.
  revert a. induction t as [|b t IH]; intros a; [left; reflexivity|].
  right. change (last (a :: b :: t) a) with (last (b :: t) a).
  destruct t as [|c t]; [left; reflexivity|].
  change (last (b :: c :: t) a) with (last (c :: t) a).
  specialize (IH b). change (last (b :: c :: t) b) with (last (c :: t) b) in IH.
  replace (last (c :: t) a) with (last (c :: t) b); [exact IH|].
  clear. revert c. induction t as [|d t IH]; intros c; [reflexivity|].
  change (last (c :: d :: t) b) with (last (d :: t) b).
  change (last (c :: d :: t) a) with (last (d :: t) a). apply IH.
Qed.

(** The verdict depends on the classes only through the characters of the
    password. *)
Lemma validate_ext (k k' : Checks.classes) (s : list N) (q : Requirements) :
  Forall (same_classes k k') s ->
  Checks.validate k s q = Checks.validate k' s q.
Proof.
  intros H. unfold Checks.validate, Checks.checks.
  assert (HU : Checks.check_uppercase k s q = Checks.check_uppercase k' s q).
  { unfold Checks.check_uppercase.
    rewrite (count_ext (Checks.is_upper k) (Checks.is_upper k')); [reflexivity|].
    eapply Forall_impl; [|exact H]. intros c Hc. apply Hc. }
  assert (HL : Checks.check_lowercase k s q = Checks.check_lowercase k' s q).
  { unfold Checks.check_lowercase.
    rewrite (count_ext (Checks.is_lower k) (Checks.is_lower k')); [reflexivity|].
    eapply Forall_impl; [|exact H]. intros c Hc. apply Hc. }
  assert (HD : Checks.check_digits k s q = Checks.check_digits k' s q).
  { unfold Checks.check_digits.
    rewrite (count_ext (Checks.is_digit k) (Checks.is_digit k')); [reflexivity|].
    eapply Forall_impl; [|exact H]. intros c Hc. apply Hc. }
  assert (HS : Checks.check_symbols k s q = Checks.check_symbols k' s q).
  { unfold Checks.check_symbols.
    rewrite (count_ext (Checks.is_symbol k) (Checks.is_symbol k')); [reflexivity|].
    eapply Forall_impl; [|exact H]. intros c Hc. apply Hc. }
  assert (HE : Checks.check_start_end k s q = Checks.check_start_end k' s q).
  { unfold Checks.check_start_end. destruct s as [|a t]; [reflexivity|].
    rewrite Forall_forall in H.
    destruct (H a (or_introl eq_refl)) as (-> & _).
    destruct (H _ (last_In a t)) as (_ & _ & _ & ->). reflexivity. }
  assert (HT : Checks.check_digit_sum k s q = Checks.check_digit_sum k' s q).
  { unfold Checks.check_digit_sum. rewrite (digit_sum_ext k k' s H). reflexivity. }
  rewrite HU, HL, HD, HS, HE, HT. reflexivity.
Qed.

(** On printable characters and on whitespace the classes of [<ctype.h>]
    and of the regular expressions are the same. *)
Lemma printable_same_classes (ch : ascii) :
  C.isprint ch || C.isspace ch = true ->
  same_classes Checks.c_classes Checks.js_classes (N_of_ascii ch).
Proof.
  unfold same_classes.
  destruct (c_classes_code ch) as (-> & -> & -> & ->).
  cbn [Checks.is_upper Checks.is_lower Checks.is_digit Checks.is_symbol
       Checks.js_classes].
  unfold C.ispunct, C.isgraph, C.isalnum, C.isupper, C.islower, C.isdigit,
    C.isspace, C.isprint, C.code.
  unfold JS.isSymbol, JS.re_upper, JS.re_lower, JS.re_digit, JS.re_space.
  generalize (N_of_ascii ch). intros n.
  repeat match goal with
         | |- context [?a <=? ?b] =>
           destruct (Z.leb_spec a b); try (exfalso; lia)
         | |- context [?a =? ?b] =>
           destruct (Z.eqb_spec a b); try (exfalso; lia)
         | |- context [(?a <=? ?b)%N] =>
           destruct (N.leb_spec a b); try (exfalso; lia)
         | |- context [(?a =? ?b)%N] =>
           destruct (N.eqb_spec a b); try (exfalso; lia)
         end;
  cbn [andb orb negb]; intros; repeat split; try reflexivity; try discriminate.
Qed.

(** ** The digit sum check comes last *)

Lemma validate_digit_sum_last (k : Checks.classes) (s : list N) (q : Requirements) :
  Checks.validate k s q
  = match Checks.validate k s (JS.set_reqDigitSum false q) with
    | Invalid f => Invalid f
    | Valid =>
      match Checks.check_digit_sum k s q with
      | Some f => Invalid f
      | None => Valid
      end
    end.
Proof.
  unfold Checks.validate, Checks.checks.
  change [Checks.check_length s q; Checks.check_uppercase k s q;
          Checks.check_lowercase k s q; Checks.check_digits k s q;
          Checks.check_symbols k s q; Checks.check_start_end k s q;
          Checks.check_no_consecutive s q; Checks.check_palindrome s q;
          Checks.check_digit_sum k s q]
    with ([Checks.check_length s q; Checks.check_uppercase k s q;
           Checks.check_lowercase k s q; Checks.check_digits k s q;
           Checks.check_symbols k s q; Checks.check_start_end k s q;
           Checks.check_no_consecutive s q; Checks.check_palindrome s q]
          ++ [Checks.check_digit_sum k s q]).
  rewrite first_failure_app.
  set (q' := JS.set_reqDigitSum false q).
  change (Checks.check_length s q') with (Checks.check_length s q).
  change (Checks.check_uppercase k s q') with (Checks.check_uppercase k s q).
  change (Checks.check_lowercase k s q') with (Checks.check_lowercase k s q).
  change (Checks.check_digits k s q') with (Checks.check_digits k s q).
  change (Checks.check_symbols k s q') with (Checks.check_symbols k s q).
  change (Checks.check_start_end k s q') with (Checks.check_start_end k s q).
  change (Checks.check_no_consecutive s q')
    with (Checks.check_no_consecutive s q).
  change (Checks.check_palindrome s q') with (Checks.check_palindrome s q).
  change (Checks.check_digit_sum k s q') with (@None Failure).
  cbn [Checks.first_failure].
  repeat match goal with
         | |- context [match ?c with Some _ => _ | None => _ end] =>
           destruct c; try reflexivity
         end.
Qed.

Lemma check_digit_sum_unsatisfiable (k : Checks.classes) (s : list N) (q : Requirements) :
  reqDigitSum q = true -> minDigits q = 0 -> digitSumTarget q <> 0 ->
  Checks.check_digit_sum k s q
  = Some (if Checks.digit_sum k s =? digitSumTarget q then ImpossibleDigitSum
          else DigitSumMismatch (Checks.digit_sum k s) (digitSumTarget q)).
Proof.
  intros Hf Hd Ht. unfold Checks.check_digit_sum. rewrite Hf, Hd.
  apply Z.eqb_neq in Ht. rewrite Ht.
  destruct (Checks.digit_sum k s =? digitSumTarget q); reflexivity.
Qed.

Lemma c_digit_sum_checks (password : list ascii) :
  C.current_digit_sum (C.count_loop password C.no_counts)
  = Checks.digit_sum Checks.c_classes (codes (C.chars password)).
Proof.
  rewrite count_loop_chars.
  destruct (c_count_fold (C.chars password) C.no_counts) as (_ & _ & _ & _ & ->).
  reflexivity.
Qed.

Lemma js_digit_sum_checks (password : list N) :
  JS.currentDigitSum (fold_left JS.count_char password JS.no_counts)
  = Checks.digit_sum Checks.js_classes password.
Proof.
  destruct (js_count_fold password JS.no_counts) as (_ & _ & _ & _ & ->).
  reflexivity.
Qed.

Lemma requirements_of_set_digit_sum (q : C.PasswordRequirements) :
  C.requirements_of (C.set_req_digit_sum 0 q)
  = JS.set_reqDigitSum false (C.requirements_of q).
Proof. reflexivity. Qed.

(** Counts of a class over the characters of a C string. *)
Lemma count_codes (p : ascii -> bool) (s : list ascii) :
  Checks.count (codes s) (fun n => p (ascii_of_N n))
  = Z.of_nat (length (filter p s)).
Proof.
  unfold Checks.count. f_equal.
  induction s as [|ch s IH]; [reflexivity|].
  cbn [codes map filter]. fold (codes s). rewrite ascii_N_embedding.
  destruct (p ch); cbn [length]; rewrite IH; reflexivity.
Qed.

Lemma digit_sum_codes (s : list ascii) :
  Checks.digit_sum Checks.c_classes (codes s)
  = fold_right Z.add 0 (map (fun ch => C.code ch - 48) (filter C.isdigit s)).
Proof.
  induction s as [|ch s IH]; [reflexivity|].
  cbn [codes map]. fold (codes s). rewrite digit_sum_cons, IH.
  destruct (c_classes_code ch) as (_ & _ & -> & _).
  cbn [filter]. destruct (C.isdigit ch); reflexivity.
Qed.

(** ** The counters of [validate_password] fit an [int] *)

Lemma c_digit_sum_bounds (s : list ascii) :
  0 <= Checks.digit_sum Checks.c_classes (codes s) <= 9 * Z.of_nat (length s).
Proof.
  induction s as [|ch s IH]; [cbn; lia|].
  cbn [codes map]. fold (codes s). rewrite digit_sum_cons.
  destruct (c_classes_code ch) as (_ & _ & -> & _).
  cbn [length]. fold (C.code ch).
  assert (H : C.isdigit ch = true -> 48 <= C.code ch <= 57).
  { unfold C.isdigit. rewrite andb_true_iff, !Z.leb_le. trivial. }
  destruct (C.isdigit ch); [specialize (H eq_refl)|]; lia.
Qed.

(** The counters are bounded by the length of the string, and the digit sum
    by nine times the length: for a string of at most 238609294 characters
    no counter leaves the range of [int]. *)
Lemma c_counters_in_range (pw : list ascii) :
  let c := C.count_loop pw C.no_counts in
  let len := Z.of_nat (C.strlen pw) in
  0 <= C.upper_count c <= len /\ 0 <= C.lower_count c <= len
  /\ 0 <= C.digit_count c <= len /\ 0 <= C.symbol_count c <= len
  /\ 0 <= C.current_digit_sum c <= 9 * len
  /\ (len <= 238609294 -> C.current_digit_sum c <= CInt.INT_MAX).
Proof.
  cbv zeta. rewrite count_loop_chars.
  destruct (c_count_fold (C.chars pw) C.no_counts) as (-> & -> & -> & -> & ->).
  cbn [C.upper_count C.lower_count C.digit_count C.symbol_count
       C.current_digit_sum C.no_counts].
  rewrite <- chars_length, <- (codes_length (C.chars pw)).
  fold (Checks.len (codes (C.chars pw))).
  pose proof (count_bounds (Checks.is_upper Checks.c_classes) (codes (C.chars pw))).
  pose proof (count_bounds (Checks.is_lower Checks.c_classes) (codes (C.chars pw))).
  pose proof (count_bounds (Checks.is_digit Checks.c_classes) (codes (C.chars pw))).
  pose proof (count_bounds (Checks.is_symbol Checks.c_classes) (codes (C.chars pw))).
  pose proof (c_digit_sum_bounds (C.chars pw)) as Hs.
  unfold Checks.len in *. rewrite codes_length in *.
  unfold CInt.INT_MAX. lia.
Qed.

(** ** The validator with its [int] variables *)

Lemma checked_ok (z : Z) :
  CInt.INT_MIN <= z <= CInt.INT_MAX -> C.checked z = Continue z.
Proof.
  intros H. unfold C.checked, CInt.in_int.
  replace (CInt.INT_MIN <=? z) with true by (symmetry; apply Z.leb_le; lia).
  replace (z <=? CInt.INT_MAX) with true by (symmetry; apply Z.leb_le; lia).
  reflexivity.
Qed.

Lemma checked_fault (z : Z) : CInt.INT_MAX < z -> C.checked z = Fault.
Proof.
  intros H. unfold C.checked, CInt.in_int.
  replace (z <=? CInt.INT_MAX) with false by (symmetry; apply Z.leb_gt; lia).
  rewrite andb_false_r. reflexivity.
Qed.

Lemma count_char_int_exact (ch : ascii) (c : C.counters) (i : Z) :
  counted c i -> i < c_max_strlen ->
  C.count_char_int ch c = Continue (C.count_char ch c)
  /\ counted (C.count_char ch c) (i + 1).
Proof.
  unfold counted, c_max_strlen. intros (U & L & D & S & T) Hi.
  unfold C.count_char_int, C.count_char.
  assert (Hd : C.isdigit ch = true -> 48 <= C.code ch <= 57).
  { unfold C.isdigit. rewrite andb_true_iff, !Z.leb_le. trivial. }
  change (C.code "0") with 48.
  destruct (C.isupper ch); [|destruct (C.islower ch);
    [|destruct (C.isdigit ch); [specialize (Hd eq_refl)|destruct (C.ispunct ch)]]];
    rewrite ?checked_ok by (unfold CInt.INT_MIN, CInt.INT_MAX; lia);
    cbn [obind C.upper_count C.lower_count C.digit_count C.symbol_count
         C.current_digit_sum];
    rewrite ?checked_ok by (unfold CInt.INT_MIN, CInt.INT_MAX; lia);
    cbn [obind C.upper_count C.lower_count C.digit_count C.symbol_count
         C.current_digit_sum];
    rewrite ?checked_ok by (unfold CInt.INT_MIN, CInt.INT_MAX; lia);
    cbn [obind C.upper_count C.lower_count C.digit_count C.symbol_count
         C.current_digit_sum];
    (split; [reflexivity | lia]).
Qed.

Lemma count_loop_int_exact (pw : list ascii) :
  forall (i : Z) (c : C.counters),
    counted c i -> i + Z.of_nat (C.strlen pw) <= c_max_strlen ->
    C.count_loop_int pw i c = Continue (C.count_loop pw c).
Proof.
  induction pw as [|ch pw IH]; intros i c Hc Hi; [reflexivity|].
  cbn [C.count_loop_int C.count_loop C.strlen] in *.
  destruct (C.is_nul ch); [reflexivity|].
  rewrite Nat2Z.inj_succ in Hi.
  destruct (count_char_int_exact ch c i Hc) as [-> Hc']; [lia|].
  cbn [obind].
  rewrite checked_ok
    by (destruct Hc as ((? & ?) & _);
        unfold CInt.INT_MIN, CInt.INT_MAX, c_max_strlen in *; lia).
  cbn [obind]. apply IH; [exact Hc' | lia].
Qed.

Lemma for_loop_int_exact (body body' : Z -> outcome unit) (n : nat) :
  forall i : Z,
    0 <= i -> i + Z.of_nat n <= CInt.INT_MAX ->
    (forall k, i <= k < i + Z.of_nat n -> body' k = body k) ->
    C.for_loop_int n i body' = for_loop n i body.
Proof.
  induction n as [|n IH]; intros i H0 Hn Hb; [reflexivity|].
  cbn [C.for_loop_int for_loop]. rewrite Nat2Z.inj_succ in *.
  rewrite Hb by lia. destruct (body i); cbn [obind]; try reflexivity.
  rewrite checked_ok by (unfold CInt.INT_MIN, CInt.INT_MAX in *; lia).
  cbn [obind]. apply IH; [lia | lia|]. intros k Hk. apply Hb. lia.
Qed.

Lemma palindrome_loop_int_exact (pw : list ascii) (len : Z) (n : nat) :
  forall i : Z,
    0 <= i -> i + Z.of_nat n <= len -> len <= CInt.INT_MAX ->
    C.palindrome_loop_int pw len n i = C.palindrome_loop pw len n i.
Proof.
  induction n as [|n IH]; intros i H0 Hn Hl; [reflexivity|].
  cbn [C.palindrome_loop_int C.palindrome_loop]. rewrite Nat2Z.inj_succ in *.
  destruct (C.read pw i) as [a| |]; cbn [obind]; try reflexivity.
  rewrite checked_ok by (unfold CInt.INT_MIN, CInt.INT_MAX in *; lia).
  cbn [obind].
  rewrite checked_ok by (unfold CInt.INT_MIN, CInt.INT_MAX in *; lia).
  cbn [obind].
  destruct (C.read pw (len - 1 - i)) as [b| |]; cbn [obind]; try reflexivity.
  destruct (negb (Ascii.eqb a b)); [reflexivity|].
  rewrite checked_ok by (unfold CInt.INT_MIN, CInt.INT_MAX in *; lia).
  cbn [obind]. apply IH; lia.
Qed.

(** On a password of at most 238609294 characters no [int] of the
    validator overflows: the validator with checked [int]s does what the
    one with unbounded counters does. *)
Lemma validate_password_int_exact (pw : list ascii) (q : C.PasswordRequirements) :
  Z.of_nat (C.strlen pw) <= c_max_strlen ->
  C.validate_password_int pw q = C.validate_password pw q.
Proof.
  intros Hl. unfold C.validate_password_int, C.validate_password. cbv zeta.
  assert (Hlen : 0 <= Z.of_nat (C.strlen pw) <= 238609294)
    by (unfold c_max_strlen in Hl; lia).
  set (len := Z.of_nat (C.strlen pw)) in *.
  rewrite checked_ok by (unfold CInt.INT_MIN, CInt.INT_MAX; lia).
  cbn [obind].
  rewrite count_loop_int_exact;
    [|unfold counted; cbn; lia | fold len; unfold c_max_strlen; lia].
  f_equal.
  destruct (fail_if (len <? C.min_length q) _); cbn [obind]; try reflexivity.
  set (c := C.count_loop pw C.no_counts).
  destruct (fail_if (C.upper_count c <? _) _); cbn [obind]; try reflexivity.
  destruct (fail_if (C.lower_count c <? _) _); cbn [obind]; try reflexivity.
  destruct (fail_if (C.digit_count c <? _) _); cbn [obind]; try reflexivity.
  destruct (fail_if (C.symbol_count c <? _) _); cbn [obind]; try reflexivity.
  assert (Hq : 0 <= Z.quot len 2 <= len)
    by (rewrite Z.quot_div_nonneg by lia;
        Z.to_euclidean_division_equations; lia).
  rewrite !checked_ok by (unfold CInt.INT_MIN, CInt.INT_MAX; lia).
  cbn [obind].
  rewrite palindrome_loop_int_exact by (unfold CInt.INT_MAX; lia).
  unfold C.for_range_int, for_range.
  match goal with
  | |- context [for_loop _ _ ?b] => rewrite (for_loop_int_exact b)
  end; [reflexivity | lia | unfold CInt.INT_MAX; lia|].
  intros k Hk. cbv beta.
  destruct (C.read pw k); cbn [obind]; try reflexivity.
  rewrite checked_ok by (unfold CInt.INT_MIN, CInt.INT_MAX; lia).
  reflexivity.
Qed.

Lemma strlen_repeat_nine (n : nat) : C.strlen (repeat "9"%char n) = n.
Proof.
  induction n as [|n IH]; [reflexivity|].
  cbn [repeat C.strlen]. change (C.is_nul "9") with false. cbv iota.
  rewrite IH. reflexivity.
Qed.

(** The digit sum of a string of digits 9 overflows once it passes
    [INT_MAX]. *)
Lemma count_loop_int_nines (n : nat) :
  forall (i : Z) (c : C.counters),
    0 <= C.current_digit_sum c <= CInt.INT_MAX ->
    CInt.INT_MAX < C.current_digit_sum c + 9 * Z.of_nat n ->
    C.count_loop_int (repeat "9"%char n) i c = Fault.
Proof.
  induction n as [|n IH]; intros i c Hc Hn; [cbn in Hn; lia|].
  rewrite Nat2Z.inj_succ in Hn.
  cbn [repeat C.count_loop_int]. change (C.is_nul "9") with false. cbv iota.
  unfold C.count_char_int.
  change (C.isupper "9") with false. change (C.islower "9") with false.
  change (C.isdigit "9") with true. cbv iota.
  change (C.code "9" - C.code "0") with 9.
  unfold C.checked at 1.
  destruct (CInt.in_int (C.digit_count c + 1)); cbn [obind]; [|reflexivity].
  rewrite (checked_ok 9) by (split; intro H; discriminate H). cbn [obind].
  destruct (Z.le_gt_cases (C.current_digit_sum c + 9) CInt.INT_MAX) as [Hs|Hs].
  - rewrite checked_ok by (unfold CInt.INT_MIN, CInt.INT_MAX in *; lia).
    cbn [obind]. unfold C.checked at 1.
    destruct (CInt.in_int (i + 1)); cbn [obind]; [|reflexivity].
    apply IH; cbn [C.current_digit_sum]; lia.
  - rewrite checked_fault by exact Hs. reflexivity.
Qed.

(** * The claims about the generators *)

Lemma c_generate_fields (q : C.PasswordRequirements) (r t : Z) :
  C.requirements_of q = round_requirements r t ->
  C.min_length q = minLength (round_requirements r t)
  /\ C.min_uppercase q = minUppercase (round_requirements r t)
  /\ C.min_lowercase q = minLowercase (round_requirements r t)
  /\ C.min_digits q = minDigits (round_requirements r t)
  /\ C.min_symbols q = minSymbols (round_requirements r t)
  /\ C.digit_sum_target q = digitSumTarget (round_requirements r t).
Proof. intros <-. repeat split. Qed.

(** C3.  For every round [r >= 1] the requirements that the generators
    produce satisfy I1; from round 3 on they satisfy I2, with at least one
    uppercase letter, one symbol and two characters required; from round 7
    on they satisfy I3, with at least one digit required.  The C generator
    produces requirements for every round up to [c_max_round]. *)
Theorem generate_invariants (r : Z) :
  1 <= r ->
  (forall rnd q, C.generate_requirements rnd r = Some q ->
     I1 (C.requirements_of q)
     /\ (3 <= r -> I2 (C.requirements_of q)
                   /\ C.min_uppercase q >= 1 /\ C.min_symbols q >= 1
                   /\ C.min_length q >= 2)
     /\ (7 <= r -> I3 (C.requirements_of q) /\ C.min_digits q >= 1))
  /\ (r <= c_max_round ->
      forall rnd, 0 <= rnd <= CInt.INT_MAX ->
        exists q, C.generate_requirements rnd r = Some q)
  /\ (forall u,
        let q := JS.generateRequirements u r in
        I1 q
        /\ (3 <= r -> I2 q /\ minUppercase q >= 1 /\ minSymbols q >= 1
                      /\ minLength q >= 2)
        /\ (7 <= r -> I3 q /\ minDigits q >= 1)).
Proof.
  intros Hr.
  assert (Hround : forall t,
    let q := round_requirements r t in
    I1 q
    /\ (3 <= r -> I2 q /\ minUppercase q >= 1 /\ minSymbols q >= 1
                  /\ minLength q >= 2)
    /\ (7 <= r -> I3 q /\ minDigits q >= 1)).
  { intros t q. destruct (round_requirements_invariants r t Hr) as (H1 & H2 & H3).
    fold q in H1, H2, H3. split; [exact H1|]. split.
    - intros H. split; [exact H2|]. apply H2. subst q. cbn. apply Z.leb_le, H.
    - intros H. split; [exact H3|]. apply H3. subst q. cbn. apply Z.leb_le, H. }
  split; [|split].
  - intros rnd q Hq. apply (c_generate_closed _ _ _ Hr) in Hq.
    destruct (c_generate_fields _ _ _ Hq) as (EL & EU & _ & ED & ES & _).
    rewrite Hq, EL, EU, ED, ES. apply Hround.
  - intros Hmax rnd Hrnd. apply c_generate_defined; lia.
  - intros u. cbv zeta. rewrite js_generate_closed by exact Hr. apply Hround.
Qed.

Lemma generate_invariants_witness :
  1 <= 7 /\ C.generate_requirements 3 7 = Some c_round7
  /\ I1 (C.requirements_of c_round7) /\ I2 (C.requirements_of c_round7)
  /\ I3 (C.requirements_of c_round7).
Proof.
  assert (H7 : 1 <= 7) by (intro H; discriminate H).
  assert (Hq : C.generate_requirements 3 7 = Some c_round7) by reflexivity.
  split; [exact H7|]. split; [exact Hq|].
  destruct (generate_invariants 7 H7) as (HC & _ & _).
  destruct (HC 3 c_round7 Hq) as (H1 & H2 & H3).
  split; [exact H1|]. split.
  - apply H2. intro H; discriminate H.
  - apply H3. intro H; discriminate H.
Defined.

(** C5.  For every round [r >= 1] the basic minimums are
    [6 + r + floor(r/2)], [1 + floor(r/2)], [1 + floor(r/2)],
    [1 + floor(r/3)] and [0] for round 1, [1 + floor((r-1)/3)] otherwise;
    the later steps leave the four class minimums as they are and raise the
    minimum length to their sum where it is smaller.  For round 1 the
    requirements are length 7, one uppercase letter, one lowercase letter,
    one digit, no symbol, and no special rule. *)
Theorem generate_basic_minimums (r : Z) :
  1 <= r ->
  (forall q, C.basic_requirements r C.zeroed = Some q ->
     C.min_length q = 6 + r + r / 2
     /\ C.min_uppercase q = 1 + r / 2
     /\ C.min_lowercase q = 1 + r / 2
     /\ C.min_digits q = 1 + r / 3
     /\ C.min_symbols q = (if r =? 1 then 0 else 1 + (r - 1) / 3))
  /\ (r <= c_max_round -> exists q, C.basic_requirements r C.zeroed = Some q)
  /\ (let q := JS.basicRequirements r JS.initial in
      minLength q = 6 + r + r / 2
      /\ minUppercase q = 1 + r / 2
      /\ minLowercase q = 1 + r / 2
      /\ minDigits q = 1 + r / 3
      /\ minSymbols q = (if r =? 1 then 0 else 1 + (r - 1) / 3))
  /\ (forall rnd q, C.generate_requirements rnd r = Some q ->
        C.min_uppercase q = 1 + r / 2
        /\ C.min_lowercase q = 1 + r / 2
        /\ C.min_digits q = 1 + r / 3
        /\ C.min_symbols q = (if r =? 1 then 0 else 1 + (r - 1) / 3)
        /\ C.min_length q
           = Z.max (6 + r + r / 2)
               (C.min_uppercase q + C.min_lowercase q + C.min_digits q
                + C.min_symbols q))
  /\ (forall u,
        let q := JS.generateRequirements u r in
        minUppercase q = 1 + r / 2
        /\ minLowercase q = 1 + r / 2
        /\ minDigits q = 1 + r / 3
        /\ minSymbols q = (if r =? 1 then 0 else 1 + (r - 1) / 3)
        /\ minLength q
           = Z.max (6 + r + r / 2)
               (minUppercase q + minLowercase q + minDigits q + minSymbols q))
  /\ (forall rnd, C.generate_requirements rnd 1 = Some c_round1)
  /\ (forall u,
        JS.generateRequirements u 1
        = {| minLength := 7; minUppercase := 1; minLowercase := 1;
             minDigits := 1; minSymbols := 0;
             reqStartUpperEndSymbol := false; reqNoConsecutiveChars := false;
             reqPalindrome := false; reqDigitSum := false;
             digitSumTarget := 0 |}).
Proof.
  intros Hr.
  split. { intros q Hq. apply (c_basic _ _ Hr) in Hq. subst q. repeat split. }
  split. { intros Hmax. eexists. apply c_basic_defined. lia. }
  split.
  { cbv zeta. unfold JS.basicRequirements, JS.initial, JS.BASE_MIN_LEN.
    cbv zeta. js_fields. rewrite Z.gtb_ltb.
    destruct (Z.ltb_spec 1 r), (Z.eqb_spec r 1); try (exfalso; lia);
      repeat split. }
  split.
  { intros rnd q Hq. apply (c_generate_closed _ _ _ Hr) in Hq.
    destruct (c_generate_fields _ _ _ Hq) as (-> & -> & -> & -> & -> & _).
    repeat split. }
  split.
  { intros u. cbv zeta. rewrite js_generate_closed by exact Hr. repeat split. }
  split.
  { intros rnd. reflexivity. }
  intros u. reflexivity.
Qed.

Lemma generate_basic_minimums_witness :
  1 <= 7 /\ C.generate_requirements 3 7 = Some c_round7
  /\ C.min_uppercase c_round7 = 1 + 7 / 2
  /\ C.min_lowercase c_round7 = 1 + 7 / 2
  /\ C.min_digits c_round7 = 1 + 7 / 3
  /\ C.min_symbols c_round7 = 1 + (7 - 1) / 3
  /\ C.min_length c_round7 = Z.max (6 + 7 + 7 / 2) 13.
Proof.
  assert (H7 : 1 <= 7) by (intro H; discriminate H).
  assert (Hq : C.generate_requirements 3 7 = Some c_round7) by reflexivity.
  split; [exact H7|]. split; [exact Hq|].
  destruct (generate_basic_minimums 7 H7) as (_ & _ & _ & HC & _).
  exact (HC 3 c_round7 Hq).
Defined.

(** C6.  In the requirements of round [r]: the start/end rule is on exactly
    from round 3 on, the rule against equal neighbours exactly from round 4
    on, the digit sum rule exactly from round 7 on, and the palindrome rule
    exactly in round 5. *)
Theorem generate_flags (r : Z) :
  1 <= r ->
  (forall rnd q, C.generate_requirements rnd r = Some q ->
     (C.req_start_upper_end_symbol q <> 0 <-> 3 <= r)
     /\ (C.req_no_consecutive_chars q <> 0 <-> 4 <= r)
     /\ (C.req_digit_sum q <> 0 <-> 7 <= r)
     /\ (C.req_palindrome q <> 0 <-> r = 5))
  /\ (forall u,
        let q := JS.generateRequirements u r in
        (reqStartUpperEndSymbol q = true <-> 3 <= r)
        /\ (reqNoConsecutiveChars q = true <-> 4 <= r)
        /\ (reqDigitSum q = true <-> 7 <= r)
        /\ (reqPalindrome q = true <-> r = 5)).
Proof.
  intros Hr.
  assert (Hround : forall t,
    let q := round_requirements r t in
    (reqStartUpperEndSymbol q = true <-> 3 <= r)
    /\ (reqNoConsecutiveChars q = true <-> 4 <= r)
    /\ (reqDigitSum q = true <-> 7 <= r)
    /\ (reqPalindrome q = true <-> r = 5)).
  { intros t. cbn. rewrite !Z.leb_le, Z.eqb_eq. tauto. }
  split.
  - intros rnd q Hq. apply (c_generate_closed _ _ _ Hr) in Hq.
    specialize (Hround (5 + r / 2 + Z.rem rnd (r * 2 + 1))).
    cbv zeta in Hround. rewrite <- Hq in Hround. cbn in Hround.
    rewrite !negb_true_iff, !Z.eqb_neq in Hround. exact Hround.
  - intros u. cbv zeta. rewrite js_generate_closed by exact Hr. apply Hround.
Qed.

Lemma generate_flags_witness :
  1 <= 7 /\ C.generate_requirements 3 7 = Some c_round7
  /\ (C.req_start_upper_end_symbol c_round7 <> 0 <-> 3 <= 7)
  /\ (C.req_no_consecutive_chars c_round7 <> 0 <-> 4 <= 7)
  /\ (C.req_digit_sum c_round7 <> 0 <-> 7 <= 7)
  /\ (C.req_palindrome c_round7 <> 0 <-> 7 = 5).
Proof.
  assert (H7 : 1 <= 7) by (intro H; discriminate H).
  assert (Hq : C.generate_requirements 3 7 = Some c_round7) by reflexivity.
  split; [exact H7|]. split; [exact Hq|].
  destruct (generate_flags 7 H7) as (HC & _).
  exact (HC 3 c_round7 Hq).
Defined.



(** * The claims about the validators *)

(** C1, as the specification states it, fails: with the digit sum rule on,
    no digit required and a target of 5, the empty password is rejected
    with the ordinary mismatch (sum 0, target 5), by both validators. *)
Lemma unsatisfiable_reported_as_mismatch :
  C.req_digit_sum digit_sum_only <> 0
  /\ C.min_digits digit_sum_only = 0
  /\ C.digit_sum_target digit_sum_only <> 0
  /\ C.validate_password [] digit_sum_only = Some (Invalid (DigitSumMismatch 0 5))
  /\ JS.validatePassword [] (C.requirements_of digit_sum_only)
     = Some (Invalid (DigitSumMismatch 0 5))
  /\ ~ (forall pw q,
          C.req_digit_sum q <> 0 -> C.min_digits q = 0 ->
          C.digit_sum_target q <> 0 ->
          C.validate_password pw q = Some (Invalid ImpossibleDigitSum)).
Proof.
  assert (Hf : C.req_digit_sum digit_sum_only <> 0) by (intro H; discriminate H).
  assert (Ht : C.digit_sum_target digit_sum_only <> 0) by (intro H; discriminate H).
  split; [exact Hf|]. split; [reflexivity|]. split; [exact Ht|].
  split; [reflexivity|]. split; [reflexivity|].
  intros H. specialize (H [] digit_sum_only Hf eq_refl Ht). discriminate H.
Qed.

(** C1, amended.  With the digit sum rule on, no digit required and a
    target that is not 0, no password is valid.  A password that fails one
    of the eight earlier checks is rejected with that failure; a password
    that passes them is rejected with the ordinary mismatch when its digit
    sum differs from the target, and with the unsatisfiable-configuration
    failure when its digit sum equals the target. *)
Theorem unsatisfiable_digit_sum (pw : list ascii) (q : C.PasswordRequirements) :
  C.req_digit_sum q <> 0 -> C.min_digits q = 0 -> C.digit_sum_target q <> 0 ->
  (let sum := C.current_digit_sum (C.count_loop pw C.no_counts) in
   let earlier := C.validate_password pw (C.set_req_digit_sum 0 q) in
   C.validate_password pw q <> Some Valid
   /\ (forall f, earlier = Some (Invalid f) ->
                 C.validate_password pw q = Some (Invalid f))
   /\ (earlier = Some Valid -> sum <> C.digit_sum_target q ->
       C.validate_password pw q
       = Some (Invalid (DigitSumMismatch sum (C.digit_sum_target q))))
   /\ (earlier = Some Valid -> sum = C.digit_sum_target q ->
       C.validate_password pw q = Some (Invalid ImpossibleDigitSum)))
  /\ (forall s : list N,
        let qj := C.requirements_of q in
        let sum := JS.currentDigitSum (fold_left JS.count_char s JS.no_counts) in
        let earlier := JS.validatePassword s (JS.set_reqDigitSum false qj) in
        JS.validatePassword s qj <> Some Valid
        /\ (forall f, earlier = Some (Invalid f) ->
                      JS.validatePassword s qj = Some (Invalid f))
        /\ (earlier = Some Valid -> sum <> digitSumTarget qj ->
            JS.validatePassword s qj
            = Some (Invalid (DigitSumMismatch sum (digitSumTarget qj))))
        /\ (earlier = Some Valid -> sum = digitSumTarget qj ->
            JS.validatePassword s qj = Some (Invalid ImpossibleDigitSum))).
Proof.
  intros Hf Hd Ht.
  assert (Hf' : reqDigitSum (C.requirements_of q) = true)
    by (cbn; apply negb_true_iff, Z.eqb_neq, Hf).
  assert (Hgen : forall k s,
    let qj := C.requirements_of q in
    let v := Checks.validate k s qj in
    let earlier := Checks.validate k s (JS.set_reqDigitSum false qj) in
    v <> Valid
    /\ (forall f, earlier = Invalid f -> v = Invalid f)
    /\ (earlier = Valid -> Checks.digit_sum k s <> digitSumTarget qj ->
        v = Invalid (DigitSumMismatch (Checks.digit_sum k s) (digitSumTarget qj)))
    /\ (earlier = Valid -> Checks.digit_sum k s = digitSumTarget qj ->
        v = Invalid ImpossibleDigitSum)).
  { intros k s qj v earlier. subst v earlier.
    rewrite (validate_digit_sum_last k s qj).
    rewrite (check_digit_sum_unsatisfiable k s qj Hf' Hd Ht).
    destruct (Checks.validate k s (JS.set_reqDigitSum false qj)) as [|f0].
    - split; [discriminate|]. split; [discriminate|]. split.
      + intros _ Hne. apply Z.eqb_neq in Hne. rewrite Hne. reflexivity.
      + intros _ Heq. apply Z.eqb_eq in Heq. rewrite Heq. reflexivity.
    - split; [discriminate|]. split; [intros f [= <-]; reflexivity|].
      split; discriminate. }
  split.
  - cbv zeta. rewrite !c_validate_checks, requirements_of_set_digit_sum.
    rewrite c_digit_sum_checks.
    destruct (Hgen Checks.c_classes (codes (C.chars pw))) as (H1 & H2 & H3 & H4).
    split; [intros [= H]; exact (H1 H)|].
    split; [intros f [= H]; rewrite (H2 f H); reflexivity|].
    split; [intros [= H] Hne; rewrite (H3 H Hne); reflexivity|].
    intros [= H] Heq. rewrite (H4 H Heq). reflexivity.
  - intros s. cbv zeta. rewrite !js_validate_checks, js_digit_sum_checks.
    destruct (Hgen Checks.js_classes s) as (H1 & H2 & H3 & H4).
    split; [intros [= H]; exact (H1 H)|].
    split; [intros f [= H]; rewrite (H2 f H); reflexivity|].
    split; [intros [= H] Hne; rewrite (H3 H Hne); reflexivity|].
    intros [= H] Heq. rewrite (H4 H Heq). reflexivity.
Qed.

Lemma unsatisfiable_digit_sum_witness :
  C.req_digit_sum digit_sum_only <> 0
  /\ C.min_digits digit_sum_only = 0
  /\ C.digit_sum_target digit_sum_only <> 0
  /\ C.validate_password ["5"%char] digit_sum_only
     = Some (Invalid ImpossibleDigitSum).
Proof.
  assert (Hf : C.req_digit_sum digit_sum_only <> 0) by (intro H; discriminate H).
  assert (Hd : C.min_digits digit_sum_only = 0) by reflexivity.
  assert (Ht : C.digit_sum_target digit_sum_only <> 0) by (intro H; discriminate H).
  split; [exact Hf|]. split; [exact Hd|]. split; [exact Ht|].
  destruct (unsatisfiable_digit_sum ["5"%char] digit_sum_only Hf Hd Ht)
    as ((_ & _ & _ & H) & _).
  apply H; reflexivity.
Defined.

(** C2, as the specification states it, fails for the C validator: the
    control character SOH is no uppercase letter, no lowercase letter, no
    digit and no whitespace, and yet it is not counted as a symbol; the
    browser validator does count it. *)
Lemma control_char_is_no_symbol :
  C.isupper soh = false /\ C.islower soh = false /\ C.isdigit soh = false
  /\ C.isspace soh = false
  /\ C.ispunct soh = false
  /\ C.symbol_count (C.count_loop [soh] C.no_counts) = 0
  /\ JS.symbolCount (fold_left JS.count_char (codes [soh]) JS.no_counts) = 1
  /\ ~ (forall ch,
          C.ispunct ch
          = negb (C.isupper ch || C.islower ch || C.isdigit ch || C.isspace ch)).
Proof.
  repeat (split; [reflexivity|]).
  intros H. specialize (H soh). discriminate H.
Qed.

(** C2, amended.  Both validators put every character into at most one of
    the classes uppercase letter, lowercase letter, digit and symbol, count
    the characters of each class, and add up the values of the digits;
    whitespace is in no class and every character counts for the length.
    For the browser validator a symbol is any character that is no
    uppercase letter, lowercase letter, digit or whitespace.  For the C
    validator a symbol is a punctuation character: one of the codes 33 to
    126 that is no letter and no digit. *)
Theorem character_classes :
  (forall pw,
     let c := C.count_loop pw C.no_counts in
     let s := C.chars pw in
     C.upper_count c = Z.of_nat (length (filter C.isupper s))
     /\ C.lower_count c = Z.of_nat (length (filter C.islower s))
     /\ C.digit_count c = Z.of_nat (length (filter C.isdigit s))
     /\ C.symbol_count c = Z.of_nat (length (filter C.ispunct s))
     /\ C.current_digit_sum c
        = fold_right Z.add 0 (map (fun ch => C.code ch - 48) (filter C.isdigit s))
     /\ C.strlen pw = length s)
  /\ (forall ch,
        (C.isupper ch = true ->
         C.islower ch = false /\ C.isdigit ch = false /\ C.ispunct ch = false)
        /\ (C.islower ch = true -> C.isdigit ch = false /\ C.ispunct ch = false)
        /\ (C.isdigit ch = true -> C.ispunct ch = false))
  /\ (forall ch,
        C.ispunct ch = true <->
        33 <= C.code ch <= 126
        /\ C.isupper ch = false /\ C.islower ch = false /\ C.isdigit ch = false)
  /\ (forall ch,
        C.isspace ch = true ->
        C.isupper ch = false /\ C.islower ch = false /\ C.isdigit ch = false
        /\ C.ispunct ch = false)
  /\ (forall s,
        let c := fold_left JS.count_char s JS.no_counts in
        JS.upperCount c = Z.of_nat (length (filter JS.re_upper s))
        /\ JS.lowerCount c = Z.of_nat (length (filter JS.re_lower s))
        /\ JS.digitCount c = Z.of_nat (length (filter JS.re_digit s))
        /\ JS.symbolCount c = Z.of_nat (length (filter JS.isSymbol s))
        /\ JS.currentDigitSum c
           = fold_right Z.add 0
               (map (fun ch => Z.of_N ch - 48) (filter JS.re_digit s)))
  /\ (forall ch,
        (JS.re_upper ch = true ->
         JS.re_lower ch = false /\ JS.re_digit ch = false /\ JS.isSymbol ch = false)
        /\ (JS.re_lower ch = true -> JS.re_digit ch = false /\ JS.isSymbol ch = false)
        /\ (JS.re_digit ch = true -> JS.isSymbol ch = false))
  /\ (forall ch,
        JS.isSymbol ch = true <->
        JS.re_upper ch = false /\ JS.re_lower ch = false /\ JS.re_digit ch = false
        /\ JS.re_space ch = false)
  /\ (forall ch,
        JS.re_space ch = true ->
        JS.re_upper ch = false /\ JS.re_lower ch = false /\ JS.re_digit ch = false
        /\ JS.isSymbol ch = false).
Proof.
  split.
  { intros pw. cbv zeta. rewrite count_loop_chars.
    destruct (c_count_fold (C.chars pw) C.no_counts) as (-> & -> & -> & -> & ->).
    cbn [C.upper_count C.lower_count C.digit_count C.symbol_count
         C.current_digit_sum C.no_counts Checks.is_upper Checks.is_lower
         Checks.is_digit Checks.is_symbol Checks.c_classes].
    rewrite !count_codes, digit_sum_codes, chars_length. repeat split. }
  split. { exact c_classes_exclusive. }
  split.
  { intros ch. unfold C.ispunct, C.isgraph, C.isalnum.
    destruct (C.isupper ch), (C.islower ch), (C.isdigit ch);
      cbn [orb negb]; rewrite ?andb_false_r, ?andb_true_r, ?andb_true_iff,
        ?Z.leb_le;
      split; try discriminate; try tauto;
      intros (_ & H1 & H2 & H3); discriminate. }
  split. { exact c_space_no_class. }
  split.
  { intros s. cbv zeta.
    destruct (js_count_fold s JS.no_counts) as (-> & -> & -> & -> & ->).
    repeat split. }
  split. { exact js_classes_exclusive. }
  split.
  { intros ch. unfold JS.isSymbol.
    destruct (JS.re_lower ch), (JS.re_upper ch), (JS.re_digit ch),
      (JS.re_space ch); cbn [orb negb]; split; try discriminate; try tauto;
      intros (H1 & H2 & H3 & H4); discriminate. }
  exact js_space_no_class.
Qed.

Lemma character_classes_witness :
  C.isspace " "%char = true
  /\ C.isupper " "%char = false /\ C.islower " "%char = false
  /\ C.isdigit " "%char = false /\ C.ispunct " "%char = false.
Proof.
  assert (H : C.isspace " "%char = true) by reflexivity.
  split; [exact H|].
  destruct character_classes as (_ & _ & _ & Hspace & _).
  exact (Hspace " "%char H).
Defined.

(** C4.  The verdict of both validators is the first failure, in the order
    length, uppercase, lowercase, digits, symbols, start/end, equal
    neighbours, palindrome, digit sum, of the nine checks, and [Valid] when
    no check fails.  In particular a password that is too short and has too
    few uppercase letters is reported as too short. *)
Theorem first_failing_check :
  (forall pw q,
     C.validate_password pw q
     = Some (Checks.first_failure
               (Checks.checks Checks.c_classes (codes (C.chars pw))
                  (C.requirements_of q))))
  /\ (forall s q,
        JS.validatePassword s q
        = Some (Checks.first_failure (Checks.checks Checks.js_classes s q)))
  /\ (forall pw q,
        Z.of_nat (C.strlen pw) < C.min_length q ->
        C.upper_count (C.count_loop pw C.no_counts) < C.min_uppercase q ->
        C.validate_password pw q
        = Some (Invalid (TooShort (Z.of_nat (C.strlen pw)) (C.min_length q))))
  /\ (forall s q,
        Z.of_nat (length s) < minLength q ->
        JS.upperCount (fold_left JS.count_char s JS.no_counts) < minUppercase q ->
        JS.validatePassword s q
        = Some (Invalid (TooShort (Z.of_nat (length s)) (minLength q)))).
Proof.
  split; [exact c_validate_checks|]. split; [exact js_validate_checks|]. split.
  - intros pw q Hlen _. rewrite c_validate_checks.
    rewrite <- chars_length, <- codes_length in Hlen |- *.
    rewrite validate_too_short by exact Hlen. reflexivity.
  - intros s q Hlen _. rewrite js_validate_checks.
    rewrite validate_too_short by exact Hlen. reflexivity.
Qed.

Lemma first_failing_check_witness :
  Z.of_nat (C.strlen ["a"%char; "b"%char]) < C.min_length four_chars_one_upper
  /\ C.upper_count (C.count_loop ["a"%char; "b"%char] C.no_counts)
     < C.min_uppercase four_chars_one_upper
  /\ C.validate_password ["a"%char; "b"%char] four_chars_one_upper
     = Some (Invalid (TooShort 2 4)).
Proof.
  assert (H1 : Z.of_nat (C.strlen ["a"%char; "b"%char])
               < C.min_length four_chars_one_upper) by reflexivity.
  assert (H2 : C.upper_count (C.count_loop ["a"%char; "b"%char] C.no_counts)
               < C.min_uppercase four_chars_one_upper) by reflexivity.
  split; [exact H1|]. split; [exact H2|].
  destruct first_failing_check as (_ & _ & H & _).
  exact (H ["a"%char; "b"%char] four_chars_one_upper H1 H2).
Defined.

(** C8, as the specification states it, fails: when one symbol is required
    and the password is the control character SOH alone, the C validator
    finds no symbol and rejects the password, and the browser validator
    counts one symbol and accepts it. *)
Lemma validators_differ_on_control_char :
  C.validate_password [soh] one_symbol = Some (Invalid (NotEnoughSymbols 0 1))
  /\ JS.validatePassword (codes [soh]) (C.requirements_of one_symbol) = Some Valid
  /\ ~ (forall pw q,
          C.validate_password pw q
          = JS.validatePassword (codes (C.chars pw)) (C.requirements_of q)).
Proof.
  split; [reflexivity|]. split; [reflexivity|].
  intros H. specialize (H [soh] one_symbol). discriminate H.
Qed.

(** C8, amended.  On every password made of printable ASCII characters and
    ASCII whitespace only, as are all passwords that the input routine of
    the terminal front-end stores, and for all requirements, the two
    validators give the same verdict: both accept, or both reject with the
    same failure. *)
Theorem validators_agree (pw : list ascii) (q : C.PasswordRequirements) :
  Forall (fun ch => C.isprint ch || C.isspace ch = true) (C.chars pw) ->
  C.validate_password pw q
  = JS.validatePassword (codes (C.chars pw)) (C.requirements_of q).
Proof.
  intros H. rewrite c_validate_checks, js_validate_checks. f_equal.
  apply validate_ext. unfold codes. apply Forall_map.
  eapply Forall_impl; [|exact H]. intros ch Hch.
  apply printable_same_classes, Hch.
Qed.

Lemma validators_agree_witness :
  Forall (fun ch => C.isprint ch || C.isspace ch = true)
         (C.chars ["A"%char; "b"%char; "1"%char; "!"%char])
  /\ C.validate_password ["A"%char; "b"%char; "1"%char; "!"%char] c_round1
     = JS.validatePassword (codes (C.chars ["A"%char; "b"%char; "1"%char; "!"%char]))
         (C.requirements_of c_round1).
Proof.
  assert (H : Forall (fun ch => C.isprint ch || C.isspace ch = true)
                (C.chars ["A"%char; "b"%char; "1"%char; "!"%char]))
    by (repeat constructor).
  split; [exact H|].
  exact (validators_agree ["A"%char; "b"%char; "1"%char; "!"%char] c_round1 H).
Defined.




(** C10.  For every round [r >= 1] the generated minimum length is at least
    [6 + r + floor(r/2)], hence at least 7.  So, for generated requirements,
    both validators reject the empty string with "too short", and no
    password is rejected with the "empty password" failure of the start/end
    check. *)
Theorem generated_min_length (r : Z) :
  1 <= r ->
  (forall rnd q, C.generate_requirements rnd r = Some q ->
     7 <= C.min_length q
     /\ 6 + r + r / 2 <= C.min_length q
     /\ (forall pw, C.strlen pw = O ->
           C.validate_password pw q
           = Some (Invalid (TooShort 0 (C.min_length q))))
     /\ (forall pw, C.validate_password pw q <> Some (Invalid EmptyStartEnd)))
  /\ (r <= c_max_round ->
      forall rnd, 0 <= rnd <= CInt.INT_MAX ->
        exists q, C.generate_requirements rnd r = Some q)
  /\ (forall u,
        let q := JS.generateRequirements u r in
        7 <= minLength q
        /\ 6 + r + r / 2 <= minLength q
        /\ JS.validatePassword [] q = Some (Invalid (TooShort 0 (minLength q)))
        /\ (forall s, JS.validatePassword s q <> Some (Invalid EmptyStartEnd))).
Proof.
  intros Hr.
  assert (Hround : forall t,
    7 <= minLength (round_requirements r t)
    /\ 6 + r + r / 2 <= minLength (round_requirements r t)).
  { intros t. cbn [minLength round_requirements]. cbv zeta. split; div_lia. }
  assert (Hval : forall k q,
    7 <= minLength q ->
    Checks.validate k [] q = Invalid (TooShort 0 (minLength q))
    /\ forall s, Checks.validate k s q <> Invalid EmptyStartEnd).
  { intros k q Hq. split.
    - apply (validate_too_short k [] q). cbn. lia.
    - intros s H. apply validate_empty_start_end in H. lia. }
  split; [|split].
  - intros rnd q Hq. apply (c_generate_closed _ _ _ Hr) in Hq.
    destruct (c_generate_fields _ _ _ Hq) as (EL & _).
    destruct (Hround (5 + r / 2 + Z.rem rnd (r * 2 + 1))) as (H7 & Hf).
    rewrite <- EL in H7, Hf.
    destruct (Hval Checks.c_classes (C.requirements_of q) H7) as (He & Hn).
    split; [exact H7|]. split; [exact Hf|]. split.
    + intros pw Hpw. rewrite c_validate_checks.
      replace (C.chars pw) with (@nil ascii);
        [cbn [codes map]; rewrite He; reflexivity|].
      symmetry. apply length_zero_iff_nil. rewrite chars_length. exact Hpw.
    + intros pw. rewrite c_validate_checks. intros [= H]. exact (Hn _ H).
  - intros Hmax rnd Hrnd. apply c_generate_defined; lia.
  - intros u. cbv zeta. rewrite js_generate_closed by exact Hr.
    destruct (Hround (5 + r / 2 + js_draw u r)) as (H7 & Hf).
    destruct (Hval Checks.js_classes _ H7) as (He & Hn).
    split; [exact H7|]. split; [exact Hf|]. split.
    + rewrite js_validate_checks, He. reflexivity.
    + intros s. rewrite js_validate_checks. intros [= H]. exact (Hn _ H).
Qed.

Lemma generated_min_length_witness :
  1 <= 7 /\ C.generate_requirements 3 7 = Some c_round7
  /\ 7 <= C.min_length c_round7
  /\ C.validate_password [] c_round7 = Some (Invalid (TooShort 0 16)).
Proof.
  assert (H7 : 1 <= 7) by (intro H; discriminate H).
  assert (Hq : C.generate_requirements 3 7 = Some c_round7) by reflexivity.
  split; [exact H7|]. split; [exact Hq|].
  destruct (generated_min_length 7 H7) as (HC & _).
  destruct (HC 3 c_round7 Hq) as (Hl & _ & He & _).
  split; [exact Hl|]. exact (He [] eq_refl).
Defined.

(** * More on the validators *)

Lemma first_repeat_none (s : list N) :
  forall i : Z,
    Checks.first_repeat i s = None <->
    forall j : nat, (S j < length s)%nat -> nth j s 0%N <> nth (S j) s 0%N.
Proof.
  induction s as [|a [|b t] IH]; intros i.
  - split; [intros _ j Hj; cbn in Hj; lia | reflexivity].
  - split; [intros _ j Hj; cbn in Hj; lia | reflexivity].
  - change (Checks.first_repeat i (a :: b :: t))
      with (if (a =? b)%N then Some (ConsecutiveChars a i)
            else Checks.first_repeat (i + 1) (b :: t)).
    destruct (N.eqb_spec a b) as [Hab | Hab].
    + split; [discriminate|]. intros H. exfalso. apply (H O); [cbn; lia|exact Hab].
    + rewrite IH. split.
      * intros H [|j] Hj; [exact Hab|]. apply (H j). cbn [length] in *. lia.
      * intros H j Hj. apply (H (S j)). cbn [length] in *. lia.
Qed.

Lemma first_repeat_some (s : list N) :
  forall (i : Z) (c : N) (p : Z),
    Checks.first_repeat i s = Some (ConsecutiveChars c p) ->
    exists j : nat,
      p = i + Z.of_nat j /\ (S j < length s)%nat
      /\ nth j s 0%N = c /\ nth (S j) s 0%N = c
      /\ forall j' : nat, (j' < j)%nat -> nth j' s 0%N <> nth (S j') s 0%N.
Proof.
  induction s as [|a [|b t] IH]; intros i c p H; try discriminate.
  change (Checks.first_repeat i (a :: b :: t))
    with (if (a =? b)%N then Some (ConsecutiveChars a i)
          else Checks.first_repeat (i + 1) (b :: t)) in H.
  destruct (N.eqb_spec a b) as [Hab | Hab].
  - injection H as <- <-. exists O. cbn [nth length].
    split; [lia|]. split; [lia|]. split; [reflexivity|].
    split; [symmetry; exact Hab|]. intros j' Hj'. lia.
  - apply IH in H. destruct H as (j & -> & Hj & H1 & H2 & H3).
    exists (S j). cbn [length] in *.
    split; [lia|]. split; [lia|]. split; [exact H1|]. split; [exact H2|].
    intros [|j'] Hj'; [exact Hab|]. apply H3. lia.
Qed.

Lemma first_failure_valid (l : list (option Failure)) :
  Checks.first_failure l = Valid <-> Forall (fun c => c = None) l.
Proof.
  induction l as [|[f|] l IH]; cbn [Checks.first_failure].
  - split; [constructor | reflexivity].
  - split; [discriminate | intros H; inversion H; discriminate].
  - rewrite IH. split; [constructor; trivial | intros H; inversion H; trivial].
Qed.

(** The nine checks, one by one, as properties of the password. *)
Lemma checks_pass (k : Checks.classes) (s : list N) (q : Requirements) :
  Checks.validate k s q = Valid <->
  minLength q <= Z.of_nat (length s)
  /\ minUppercase q <= Checks.count s (Checks.is_upper k)
  /\ minLowercase q <= Checks.count s (Checks.is_lower k)
  /\ minDigits q <= Checks.count s (Checks.is_digit k)
  /\ minSymbols q <= Checks.count s (Checks.is_symbol k)
  /\ (reqStartUpperEndSymbol q = true ->
      exists first rest, s = first :: rest /\ Checks.is_upper k first = true
                         /\ Checks.is_symbol k (last s first) = true)
  /\ (reqNoConsecutiveChars q = true ->
      forall j : nat, (S j < length s)%nat -> nth j s 0%N <> nth (S j) s 0%N)
  /\ (reqPalindrome q = true -> s = rev s)
  /\ (reqDigitSum q = true ->
      Checks.digit_sum k s = digitSumTarget q
      /\ (minDigits q = 0 -> digitSumTarget q = 0)).
Proof.
  unfold Checks.validate, Checks.checks. rewrite first_failure_valid.
  rewrite !Forall_cons_iff.
  assert (H1 : Checks.check_length s q = None <-> minLength q <= Z.of_nat (length s)).
  { unfold Checks.check_length, Checks.len.
    destruct (Z.ltb_spec (Z.of_nat (length s)) (minLength q));
      split; trivial; try discriminate; lia. }
  assert (Hcnt : forall c m f,
    (if c <? m then Some (f c m) else @None Failure) = None <-> m <= c).
  { intros c m f. destruct (Z.ltb_spec c m); split; trivial; try discriminate; lia. }
  assert (H6 : Checks.check_start_end k s q = None <->
    (reqStartUpperEndSymbol q = true ->
     exists first rest, s = first :: rest /\ Checks.is_upper k first = true
                        /\ Checks.is_symbol k (last s first) = true)).
  { unfold Checks.check_start_end.
    destruct (reqStartUpperEndSymbol q); [|split; [discriminate | reflexivity]].
    destruct s as [|a t].
    - split; [discriminate|]. intros H. destruct (H eq_refl) as (? & ? & ? & _).
      discriminate.
    - destruct (Checks.is_upper k a) eqn:EU; cbn [negb].
      + destruct (Checks.is_symbol k (last (a :: t) a)) eqn:ES; cbn [negb].
        * split; [intros _ _; exists a, t; auto | reflexivity].
        * split; [discriminate|]. intros H.
          destruct (H eq_refl) as (f & r & [= <- <-] & _ & H2). congruence.
      + split; [discriminate|]. intros H.
        destruct (H eq_refl) as (f & r & [= <- <-] & H2 & _). congruence. }
  assert (H7 : Checks.check_no_consecutive s q = None <->
    (reqNoConsecutiveChars q = true ->
     forall j : nat, (S j < length s)%nat -> nth j s 0%N <> nth (S j) s 0%N)).
  { unfold Checks.check_no_consecutive.
    destruct (reqNoConsecutiveChars q); [|split; [discriminate | reflexivity]].
    rewrite first_repeat_none. split; auto. }
  assert (H8 : Checks.check_palindrome s q = None <->
    (reqPalindrome q = true -> s = rev s)).
  { unfold Checks.check_palindrome.
    destruct (reqPalindrome q); [|split; [discriminate | reflexivity]].
    destruct (list_eq_dec N.eq_dec s (rev s)); split; auto; try discriminate.
    intros H. exfalso. auto. }
  assert (H9 : Checks.check_digit_sum k s q = None <->
    (reqDigitSum q = true ->
     Checks.digit_sum k s = digitSumTarget q
     /\ (minDigits q = 0 -> digitSumTarget q = 0))).
  { unfold Checks.check_digit_sum.
    destruct (reqDigitSum q); [|split; [discriminate | reflexivity]].
    destruct (Z.eqb_spec (Checks.digit_sum k s) (digitSumTarget q)) as [E | E];
      cbn [negb].
    - destruct (Z.eqb_spec (minDigits q) 0) as [E0 | E0];
        destruct (Z.eqb_spec (digitSumTarget q) 0) as [E1 | E1]; cbn [andb negb];
        (split;
         [ first [ discriminate
                 | intros _ _; split; [exact E | intros; auto; contradiction] ]
         | first [ reflexivity
                 | intros H; destruct (H eq_refl) as (_ & H2); exfalso; auto ] ]).
    - split; [discriminate|]. intros H. destruct (H eq_refl) as (H2 & _).
      contradiction. }
  unfold Checks.check_uppercase, Checks.check_lowercase, Checks.check_digits,
    Checks.check_symbols.
  rewrite H1, !Hcnt, H6, H7, H8, H9. rewrite Forall_nil_iff. tauto.
Qed.

Lemma c_meets_checks (s : list ascii) (q : C.PasswordRequirements) :
  Checks.validate Checks.c_classes (codes s) (C.requirements_of q) = Valid
  <-> c_meets s q.
Proof.
  rewrite checks_pass. unfold c_meets, c_digit_total.
  cbn [C.requirements_of minLength minUppercase minLowercase minDigits
       minSymbols reqStartUpperEndSymbol reqNoConsecutiveChars reqPalindrome
       reqDigitSum digitSumTarget].
  rewrite !negb_true_iff, !Z.eqb_neq.
  rewrite codes_length, digit_sum_codes.
  cbn [Checks.is_upper Checks.is_lower Checks.is_digit Checks.is_symbol
       Checks.c_classes].
  rewrite !count_codes.
  assert (HSE :
    (exists first rest, codes s = first :: rest
       /\ C.isupper (ascii_of_N first) = true
       /\ C.ispunct (ascii_of_N (last (codes s) first)) = true)
    <-> (exists first rest, s = first :: rest /\ C.isupper first = true
                            /\ C.ispunct (last s first) = true)).
  { split.
    - intros (f & r & E & HU & HP). destruct s as [|a t]; [discriminate|].
      cbn [codes map] in E. injection E as <- <-.
      rewrite ascii_N_embedding in HU.
      change (N_of_ascii a :: map N_of_ascii t) with (map N_of_ascii (a :: t)) in HP.
      unfold codes in HP. rewrite last_map, ascii_N_embedding in HP.
      exists a, t. auto.
    - intros (a & t & -> & HU & HP). exists (N_of_ascii a), (codes t).
      split; [reflexivity|]. rewrite ascii_N_embedding. split; [exact HU|].
      unfold codes. rewrite last_map, ascii_N_embedding. exact HP. }
  assert (HNC :
    (forall j : nat, (S j < length s)%nat ->
       nth j (codes s) 0%N <> nth (S j) (codes s) 0%N)
    <-> (forall j : nat, (S j < length s)%nat ->
           nth j s zero <> nth (S j) s zero)).
  { split; intros H j Hj; specialize (H j Hj).
    - intros E. apply H. rewrite !codes_nth. f_equal. exact E.
    - rewrite !codes_nth. intros E. apply H, N_of_ascii_inj, E. }
  assert (HP : codes s = rev (codes s) <-> s = rev s).
  { rewrite codes_rev. split; [apply codes_inj | intros <-; reflexivity]. }
  rewrite HSE, HNC, HP. tauto.
Qed.

Lemma js_meets_checks (s : list N) (q : Requirements) :
  Checks.validate Checks.js_classes s q = Valid <-> js_meets s q.
Proof. rewrite checks_pass. unfold js_meets, js_digit_total. reflexivity. Qed.

Lemma c_accepts_iff (pw : list ascii) (q : C.PasswordRequirements) :
  C.validate_password pw q = Some Valid <-> c_meets (C.chars pw) q.
Proof.
  rewrite c_validate_checks, <- c_meets_checks.
  split; [intros [= H]; exact H | intros ->; reflexivity].
Qed.

Lemma js_accepts_iff (s : list N) (reqs : Requirements) :
  JS.validatePassword s reqs = Some Valid <-> js_meets s reqs.
Proof.
  rewrite js_validate_checks, <- js_meets_checks.
  split; [intros [= H]; exact H | intros ->; reflexivity].
Qed.

(** X1.  Both validators accept a password exactly when it meets every
    requirement: the minimum length and the four minimum counts, and, for
    each special rule that is on, an uppercase first and a symbol last
    character, no two equal neighbours, being its own reverse, and a digit
    sum equal to the target (with a target of 0 when no digit is
    required). *)
Theorem accepts_exactly :
  (forall pw q,
     C.validate_password pw q = Some Valid <-> c_meets (C.chars pw) q)
  /\ (forall s q, JS.validatePassword s q = Some Valid <-> js_meets s q).
Proof. split; [exact c_accepts_iff | exact js_accepts_iff]. Qed.

(** The position that the check against equal neighbours reports. *)
Lemma validate_consecutive (k : Checks.classes) (s : list N) (q : Requirements)
      (c : N) (p : Z) :
  Checks.validate k s q = Invalid (ConsecutiveChars c p) ->
  exists j : nat,
    p = Z.of_nat j /\ (S j < length s)%nat
    /\ nth j s 0%N = c /\ nth (S j) s 0%N = c
    /\ forall j' : nat, (j' < j)%nat -> nth j' s 0%N <> nth (S j') s 0%N.
Proof.
  unfold Checks.validate, Checks.checks, Checks.check_length,
    Checks.check_uppercase, Checks.check_lowercase, Checks.check_digits,
    Checks.check_symbols. cbn [Checks.first_failure].
  destruct (_ <? minLength q); [discriminate|].
  destruct (_ <? minUppercase q); [discriminate|].
  destruct (_ <? minLowercase q); [discriminate|].
  destruct (_ <? minDigits q); [discriminate|].
  destruct (_ <? minSymbols q); [discriminate|].
  destruct (Checks.check_start_end k s q) as [f|] eqn:E6.
  { unfold Checks.check_start_end in E6.
    destruct (reqStartUpperEndSymbol q); [|discriminate].
    destruct s; [injection E6 as <-; discriminate|].
    destruct (negb _); [injection E6 as <-; discriminate|].
    destruct (negb _); [injection E6 as <-; discriminate | discriminate]. }
  destruct (Checks.check_no_consecutive s q) as [f|] eqn:E7.
  { intros [= ->]. unfold Checks.check_no_consecutive in E7.
    destruct (reqNoConsecutiveChars q); [|discriminate].
    apply first_repeat_some in E7. destruct E7 as (j & -> & H). exists j.
    split; [lia | exact H]. }
  unfold Checks.check_palindrome, Checks.check_digit_sum.
  destruct (reqPalindrome q);
    [destruct (list_eq_dec _ _ _); [|discriminate]|];
    (destruct (reqDigitSum q); [|discriminate];
     destruct (negb _); [discriminate|];
     destruct (_ && _); discriminate).
Qed.

(** X2.  When a validator reports two equal neighbours, the position it
    reports is the first one where a character equals its successor, and
    the character it reports is the one found there. *)
Theorem consecutive_position_is_first :
  (forall pw q c p,
     C.validate_password pw q = Some (Invalid (ConsecutiveChars c p)) ->
     exists j : nat,
       p = Z.of_nat j /\ (S j < C.strlen pw)%nat
       /\ N_of_ascii (nth j (C.chars pw) zero) = c
       /\ nth (S j) (C.chars pw) zero = nth j (C.chars pw) zero
       /\ forall j' : nat, (j' < j)%nat ->
            nth j' (C.chars pw) zero <> nth (S j') (C.chars pw) zero)
  /\ (forall s q c p,
        JS.validatePassword s q = Some (Invalid (ConsecutiveChars c p)) ->
        exists j : nat,
          p = Z.of_nat j /\ (S j < length s)%nat
          /\ nth j s 0%N = c /\ nth (S j) s 0%N = c
          /\ forall j' : nat, (j' < j)%nat -> nth j' s 0%N <> nth (S j') s 0%N).
Proof.
  split.
  - intros pw q c p. rewrite c_validate_checks. intros [= H].
    apply validate_consecutive in H.
    destruct H as (j & -> & Hj & H1 & H2 & H3).
    rewrite codes_length, chars_length in Hj. rewrite codes_nth in H1, H2.
    exists j. split; [reflexivity|]. split; [exact Hj|]. split; [exact H1|].
    split; [apply N_of_ascii_inj; congruence|].
    intros j' Hj' E. apply (H3 j' Hj'). rewrite !codes_nth. f_equal. exact E.
  - intros s q c p. rewrite js_validate_checks. intros [= H].
    exact (validate_consecutive _ _ _ _ _ H).
Qed.

Lemma consecutive_position_is_first_witness :
  exists j : nat, 1 = Z.of_nat j /\ nth j [97; 98; 98]%N 0%N = 98%N.
Proof.
  destruct (proj2 consecutive_position_is_first [97; 98; 98]%N
              {| minLength := 0; minUppercase := 0; minLowercase := 0;
                 minDigits := 0; minSymbols := 0;
                 reqStartUpperEndSymbol := false;
                 reqNoConsecutiveChars := true; reqPalindrome := false;
                 reqDigitSum := false; digitSumTarget := 0 |}
              98%N 1 eq_refl) as (j & Hp & _ & Hc & _).
  exists j. split; [exact Hp | exact Hc].
Defined.

Lemma last_rev_cons {A} (a d : A) (t : list A) : last (rev (a :: t)) d = a.
Proof. cbn [rev]. apply last_last. Qed.

Lemma never_valid_with_start_end_and_palindrome
      (k : Checks.classes) (s : list N) (q : Requirements) :
  (forall c, Checks.is_upper k c = true -> Checks.is_symbol k c = false) ->
  reqStartUpperEndSymbol q = true -> reqPalindrome q = true ->
  Checks.validate k s q <> Valid.
Proof.
  intros Hex HSE HP H. apply checks_pass in H.
  destruct H as (_ & _ & _ & _ & _ & H6 & _ & H8 & _).
  destruct (H6 HSE) as (a & t & -> & HU & HS). specialize (H8 HP).
  rewrite H8, last_rev_cons in HS. rewrite (Hex a HU) in HS. discriminate.
Qed.

Lemma c_never_valid (pw : list ascii) (q : C.PasswordRequirements) :
  C.req_start_upper_end_symbol q <> 0 -> C.req_palindrome q <> 0 ->
  C.validate_password pw q <> Some Valid.
Proof.
  intros H1 H2. rewrite c_validate_checks. intros [= H]. revert H.
  apply never_valid_with_start_end_and_palindrome.
  - intros c. cbn. intros HU.
    destruct (c_classes_exclusive (ascii_of_N c)) as (Hx & _).
    apply (Hx HU).
  - cbn. apply negb_true_iff, Z.eqb_neq, H1.
  - cbn. apply negb_true_iff, Z.eqb_neq, H2.
Qed.

Lemma js_never_valid (s : list N) (q : Requirements) :
  reqStartUpperEndSymbol q = true -> reqPalindrome q = true ->
  JS.validatePassword s q <> Some Valid.
Proof.
  intros H1 H2. rewrite js_validate_checks. intros [= H]. revert H.
  apply never_valid_with_start_end_and_palindrome; trivial.
  intros c. cbn. intros HU.
  destruct (js_classes_exclusive c) as (Hx & _). apply (Hx HU).
Qed.

(** Round 5 draws no random number: its requirements are fixed. *)
Lemma c_round_five (rnd : Z) (q : C.PasswordRequirements) :
  C.generate_requirements rnd 5 = Some q -> q = c_round5.
Proof. intros Hq. vm_compute in Hq. injection Hq as <-. reflexivity. Qed.

(** X3.  When the start/end rule and the palindrome rule are both on, no
    password is valid, for either validator: the first character would have
    to be an uppercase letter and, being also the last one, a symbol.  These
    are the requirements of round 5: no password passes round 5. *)
Theorem round_five_has_no_valid_password :
  (forall pw q,
     C.req_start_upper_end_symbol q <> 0 -> C.req_palindrome q <> 0 ->
     C.validate_password pw q <> Some Valid)
  /\ (forall s q,
        reqStartUpperEndSymbol q = true -> reqPalindrome q = true ->
        JS.validatePassword s q <> Some Valid)
  /\ (forall rnd q pw,
        C.generate_requirements rnd 5 = Some q ->
        C.validate_password pw q <> Some Valid)
  /\ (forall u s, JS.validatePassword s (JS.generateRequirements u 5) <> Some Valid).
Proof.
  split; [exact c_never_valid|]. split; [exact js_never_valid|]. split.
  - intros rnd q pw Hq. rewrite (c_round_five rnd q Hq).
    apply c_never_valid; intro H; discriminate H.
  - intros u s. apply js_never_valid; reflexivity.
Qed.

Lemma round_five_has_no_valid_password_witness :
  C.generate_requirements 0 5 = Some c_round5
  /\ C.validate_password
       ["A"; "b"; "c"; "1"; "2"; "!"; "@"; "!"; "2"; "1"; "c"; "b"; "A"]%char
       c_round5
     <> Some Valid.
Proof.
  assert (Hq : C.generate_requirements 0 5 = Some c_round5) by reflexivity.
  split; [exact Hq|].
  destruct round_five_has_no_valid_password as (_ & _ & H & _).
  exact (H 0 c_round5 _ Hq).
Defined.

Lemma winning_password_wins (r : Z) :
  1 <= r <= 4 ->
  (forall rnd q,
     C.generate_requirements rnd r = Some q ->
     C.validate_password (winning_password r) q = Some Valid)
  /\ (forall rnd, exists q, C.generate_requirements rnd r = Some q)
  /\ (forall u,
        JS.validatePassword (codes (winning_password r))
          (JS.generateRequirements u r) = Some Valid)
  /\ Forall (fun ch => C.isprint ch = true) (winning_password r).
Proof.
  intros Hr.
  assert (Hc : r = 1 \/ r = 2 \/ r = 3 \/ r = 4) by lia.
  destruct Hc as [-> | [-> | [-> | ->]]].
  all: split; [intros rnd q Hq; vm_compute in Hq; injection Hq as <-;
               vm_compute; reflexivity|].
  all: split; [intros rnd; eexists; vm_compute; reflexivity|].
  all: split; [intros u; reflexivity|].
  all: repeat constructor.
Qed.

(** X4.  Each of the rounds 1 to 4 can be won: for the requirements of the
    round there is a password of printable characters that both validators
    accept. *)
Theorem rounds_one_to_four_have_a_valid_password (r : Z) :
  1 <= r <= 4 ->
  (forall rnd q,
     C.generate_requirements rnd r = Some q ->
     C.validate_password (winning_password r) q = Some Valid)
  /\ (forall rnd, exists q, C.generate_requirements rnd r = Some q)
  /\ (forall u,
        JS.validatePassword (codes (winning_password r))
          (JS.generateRequirements u r) = Some Valid)
  /\ Forall (fun ch => C.isprint ch = true) (winning_password r).
Proof. exact (winning_password_wins r). Qed.

Lemma rounds_one_to_four_have_a_valid_password_witness :
  1 <= 4 <= 4
  /\ Forall (fun ch => C.isprint ch = true) (winning_password 4).
Proof.
  assert (H : 1 <= 4 <= 4) by (split; intro E; discriminate E).
  split; [exact H|].
  exact (proj2 (proj2 (proj2 (rounds_one_to_four_have_a_valid_password 4 H)))).
Defined.

(** * The terminal front-end *)

(** ** Writes into the buffer *)

Lemma store_Some (buffer : list ascii) (ch : ascii) :
  forall i : nat, (i < length buffer)%nat ->
    Terminal.store buffer i ch
    = Some (firstn i buffer ++ ch :: skipn (S i) buffer).
Proof.
  induction buffer as [|b rest IH]; intros i Hi; cbn [length] in Hi; [lia|].
  destruct i as [|i]; [reflexivity|].
  cbn [Terminal.store]. rewrite IH by lia. reflexivity.
Qed.

Lemma store_at_Some (buffer : list ascii) (i : Z) (ch : ascii) :
  0 <= i < Z.of_nat (length buffer) ->
  Terminal.store_at buffer i ch
  = Some (firstn (Z.to_nat i) buffer ++ ch :: skipn (S (Z.to_nat i)) buffer).
Proof.
  intros Hi. unfold Terminal.store_at.
  destruct (Z.ltb_spec i 0); [lia|]. apply store_Some. lia.
Qed.

Lemma memset_Some (buffer : list ascii) :
  forall n : nat, (n <= length buffer)%nat ->
    Terminal.memset buffer n = Some (repeat zero n ++ skipn n buffer).
Proof.
  induction buffer as [|b rest IH]; intros [|n] Hn; cbn [length] in Hn;
    try reflexivity; [lia|].
  cbn [Terminal.memset]. rewrite IH by lia. reflexivity.
Qed.

Lemma stored_length {A} (l : list A) (i : nat) (x : A) :
  (i < length l)%nat -> length (firstn i l ++ x :: skipn (S i) l) = length l.
Proof.
  intros Hi. rewrite length_app. cbn [length].
  rewrite length_firstn, length_skipn. lia.
Qed.

Lemma stored_skipn {A} (l : list A) (i n : nat) (x : A) :
  (i < n)%nat -> (i < length l)%nat ->
  skipn n (firstn i l ++ x :: skipn (S i) l) = skipn n l.
Proof.
  intros Hin Hi. rewrite skipn_app, length_firstn.
  replace (Nat.min i (length l)) with i by lia.
  rewrite (skipn_all2 (firstn i l)) by (rewrite length_firstn; lia).
  cbn [app]. replace (n - i)%nat with (S (n - S i)) by lia.
  rewrite skipn_cons, skipn_skipn. f_equal. lia.
Qed.

Lemma stored_firstn {A} (l : list A) (i : nat) (x : A) :
  (i < length l)%nat ->
  firstn (S i) (firstn i l ++ x :: skipn (S i) l) = firstn i l ++ [x].
Proof.
  intros Hi. rewrite firstn_app, length_firstn.
  replace (Nat.min i (length l)) with i by lia.
  rewrite firstn_firstn. replace (Nat.min (S i) i) with i by lia.
  replace (S i - i)%nat with 1%nat by lia. reflexivity.
Qed.

Lemma stored_firstn_below {A} (l : list A) (i j : nat) (x : A) :
  (j <= i)%nat -> (i < length l)%nat ->
  firstn j (firstn i l ++ x :: skipn (S i) l) = firstn j l.
Proof.
  intros Hj Hi. rewrite firstn_app, length_firstn.
  replace (Nat.min i (length l)) with i by lia.
  replace (j - i)%nat with O by lia. cbn [firstn]. rewrite app_nil_r.
  rewrite firstn_firstn. f_equal. lia.
Qed.

Lemma firstn_pred {A} (l : list A) (i : nat) :
  (0 < i <= length l)%nat -> firstn (i - 1) l = removelast (firstn i l).
Proof.
  revert i. induction l as [|a l IH]; intros i Hi; cbn [length] in Hi; [lia|].
  destruct i as [|[|i]]; [lia|reflexivity|].
  replace (S (S i) - 1)%nat with (S (S i - 1)) by lia.
  cbn [firstn]. rewrite IH by lia.
  destruct l as [|b l]; [cbn [length] in Hi; lia|]. reflexivity.
Qed.

Lemma Forall_removelast {A} (P : A -> Prop) (l : list A) :
  Forall P l -> Forall P (removelast l).
Proof.
  induction 1 as [|a l Ha Hl IH]; [constructor|].
  cbn [removelast]. destruct l; [constructor|]. constructor; assumption.
Qed.

Lemma Forall_firstn {A} (P : A -> Prop) (l : list A) :
  Forall P l -> forall n, Forall P (firstn n l).
Proof.
  induction 1 as [|a l Ha Hl IH]; intros [|n]; cbn [firstn]; constructor;
    auto.
Qed.

Lemma isprint_not_nul (ch : ascii) : C.isprint ch = true -> C.is_nul ch = false.
Proof.
  unfold C.isprint, C.is_nul. intros H. apply andb_true_iff in H.
  destruct H as [H _]. apply Z.leb_le in H. apply Z.eqb_neq. lia.
Qed.

Lemma chars_app_zero (s tail : list ascii) :
  Forall (fun ch => C.isprint ch = true) s ->
  C.chars (s ++ zero :: tail) = s.
Proof.
  induction 1 as [|ch s Hch _ IH]; [reflexivity|].
  cbn [app]. rewrite chars_cons, (isprint_not_nul ch Hch), IH. reflexivity.
Qed.

(** ** The input loop *)

Section Input.
Variable ECHO : Z.
Variable max_len : Z.

Lemma normal_exit_post (stdin : list Terminal.read_result) (b0 buffer : list ascii)
      (i c : Z) (t : bool) :
  0 <= i < max_len -> max_len <= Z.of_nat (length buffer) ->
  length buffer = length b0 ->
  skipn (Z.to_nat max_len) buffer = skipn (Z.to_nat max_len) b0 ->
  Forall (fun ch => C.isprint ch = true) (firstn (Z.to_nat i) buffer) ->
  (t = true -> i = 0) ->
  exists o, Terminal.normal_exit ECHO stdin buffer i c t = Some o
            /\ input_post ECHO max_len b0 c o.
Proof.
  intros Hi Hlen Hl0 Hs0 Hp Ht. unfold Terminal.normal_exit.
  rewrite store_at_Some by lia. eexists. split; [reflexivity|].
  unfold input_post.
  cbn [Terminal.buffer_out Terminal.c_lflag_out Terminal.result
       Terminal.timed_out_out].
  split; [rewrite stored_length by lia; exact Hl0|].
  split; [rewrite stored_skipn by lia; exact Hs0|].
  split; [reflexivity|]. split; [exact Ht|].
  right. split; [lia|]. intros _.
  eexists _, _. split; [reflexivity|]. split; [|exact Hp].
  rewrite length_firstn. lia.
Qed.

Lemma timeout_exit_post (stdin : list Terminal.read_result) (b0 buffer : list ascii)
      (i c : Z) :
  0 <= i < max_len -> max_len <= Z.of_nat (length buffer) ->
  length buffer = length b0 ->
  skipn (Z.to_nat max_len) buffer = skipn (Z.to_nat max_len) b0 ->
  exists o, Terminal.timeout_exit ECHO stdin buffer i c true = Some o
            /\ input_post ECHO max_len b0 c o.
Proof.
  intros Hi Hlen Hl0 Hs0. unfold Terminal.timeout_exit.
  rewrite store_at_Some by lia. eexists. split; [reflexivity|].
  unfold input_post.
  cbn [Terminal.buffer_out Terminal.c_lflag_out Terminal.result
       Terminal.timed_out_out].
  split; [rewrite stored_length by lia; exact Hl0|].
  split; [rewrite stored_skipn by lia; exact Hs0|].
  split; [reflexivity|]. split; [reflexivity|].
  right. split; [lia|]. discriminate.
Qed.

Lemma error_exit_post (stdin : list Terminal.read_result) (b0 buffer : list ascii)
      (c : Z) :
  length buffer = length b0 ->
  skipn (Z.to_nat max_len) buffer = skipn (Z.to_nat max_len) b0 ->
  exists o, Terminal.error_exit ECHO stdin buffer c false = Some o
            /\ input_post ECHO max_len b0 c o.
Proof.
  intros Hl0 Hs0. unfold Terminal.error_exit. eexists. split; [reflexivity|].
  unfold input_post.
  cbn [Terminal.buffer_out Terminal.c_lflag_out Terminal.result
       Terminal.timed_out_out].
  split; [exact Hl0|]. split; [exact Hs0|]. split; [reflexivity|].
  split; [discriminate|]. left. reflexivity.
Qed.

(** The loop never writes outside of the first [max_len] bytes and leaves
    a terminated string of printable characters. *)
Lemma input_loop_post (b0 : list ascii) (c : Z) :
  forall (stdin : list Terminal.read_result) (buffer : list ascii) (i : Z)
         (t : bool),
    0 <= i < max_len -> max_len <= Z.of_nat (length buffer) ->
    length buffer = length b0 ->
    skipn (Z.to_nat max_len) buffer = skipn (Z.to_nat max_len) b0 ->
    Forall (fun ch => C.isprint ch = true) (firstn (Z.to_nat i) buffer) ->
    (t = true -> i = 0) ->
    exists o, Terminal.input_loop ECHO max_len stdin buffer i c t = Some o
              /\ input_post ECHO max_len b0 c o.
Proof.
  induction stdin as [|r rest IH]; intros buffer i t Hi Hlen Hl0 Hs0 Hp Ht;
    cbn [Terminal.input_loop].
  - destruct (i <? max_len - 1); [destruct t|];
      auto using normal_exit_post, timeout_exit_post.
  - destruct (Z.ltb_spec i (max_len - 1)) as [Hlt|Hge];
      [|auto using normal_exit_post].
    destruct r as [ch| | |]; unfold Terminal.handle_timeout;
      try (destruct t;
           auto using normal_exit_post, timeout_exit_post, error_exit_post; fail).
    destruct t; [auto using timeout_exit_post|].
    destruct (_ || _); [auto using normal_exit_post|].
    destruct (_ || _).
    { apply IH; try assumption; try discriminate.
      - destruct (Z.gtb_spec i 0); lia.
      - destruct (Z.gtb_spec i 0); [|exact Hp].
        replace (Z.to_nat (i - 1)) with (Z.to_nat i - 1)%nat by lia.
        rewrite firstn_pred by lia. apply Forall_removelast, Hp. }
    destruct (C.isprint ch) eqn:Hch; [|apply IH; assumption].
    rewrite store_at_Some by lia. apply IH.
    + lia.
    + rewrite stored_length by lia. exact Hlen.
    + rewrite stored_length by lia. exact Hl0.
    + rewrite stored_skipn by lia. exact Hs0.
    + replace (Z.to_nat (i + 1)) with (S (Z.to_nat i)) by lia.
      rewrite stored_firstn by lia. apply Forall_app. split; [exact Hp|].
      constructor; [exact Hch|constructor].
    + discriminate.
Qed.

End Input.

Lemma memset_None (buffer : list ascii) :
  forall n : nat, (length buffer < n)%nat -> Terminal.memset buffer n = None.
Proof.
  induction buffer as [|b rest IH]; intros [|n] Hn; cbn [length] in Hn;
    try lia; [reflexivity|].
  cbn [Terminal.memset]. rewrite IH by lia. reflexivity.
Qed.

Lemma firstn_length_Z {A} (l : list A) (i : Z) :
  0 <= i <= Z.of_nat (length l) ->
  Z.of_nat (length (firstn (Z.to_nat i) l)) = i.
Proof. intros Hi. rewrite length_firstn. lia. Qed.

Lemma edit_key_printable (typed : list ascii) (key : ascii) :
  Forall (fun ch => C.isprint ch = true) typed ->
  Forall (fun ch => C.isprint ch = true) (edit_key typed key).
Proof.
  intros H. unfold edit_key. destruct (_ || _); [apply Forall_removelast, H|].
  destruct (C.isprint key) eqn:E; [|exact H].
  apply Forall_app. split; [exact H|]. constructor; [exact E|constructor].
Qed.

Lemma edit_keys_printable (keys : list ascii) :
  forall typed,
    Forall (fun ch => C.isprint ch = true) typed ->
    Forall (fun ch => C.isprint ch = true) (fold_left edit_key keys typed).
Proof.
  induction keys as [|k keys IH]; intros typed H; [exact H|].
  cbn [fold_left]. apply IH, edit_key_printable, H.
Qed.

Lemma edit_key_length (typed : list ascii) (key : ascii) :
  (length (edit_key typed key) <= S (length typed))%nat.
Proof.
  unfold edit_key. destruct (_ || _).
  - destruct typed as [|a l]; [cbn; lia|].
    rewrite (app_removelast_last a (l := a :: l)) at 2 by discriminate.
    rewrite length_app. cbn [length]. lia.
  - destruct (C.isprint key); [rewrite length_app; cbn [length]; lia | lia].
Qed.

(** A printable character is no Enter, no backspace and no delete. *)
Lemma isprint_plain (key : ascii) :
  C.isprint key = true ->
  is_enter key = false /\ (C.code key =? 127) || (C.code key =? 8) = false.
Proof.
  unfold C.isprint, is_enter. intros H. apply andb_true_iff in H.
  destruct H as [H1 H2]. apply Z.leb_le in H1. apply Z.leb_le in H2.
  split.
  - apply orb_false_iff. split; apply Ascii.eqb_neq; intros ->;
      vm_compute in H1; apply H1; reflexivity.
  - apply orb_false_iff. split; apply Z.eqb_neq; lia.
Qed.

Lemma edit_keys_plain (keys : list ascii) :
  forall typed,
    Forall (fun ch => C.isprint ch = true) keys ->
    fold_left edit_key keys typed = typed ++ keys.
Proof.
  induction keys as [|k keys IH]; intros typed H; [symmetry; apply app_nil_r|].
  inversion H as [|? ? Hk Hkeys]; subst. cbn [fold_left].
  rewrite IH by exact Hkeys. unfold edit_key.
  rewrite (proj2 (isprint_plain k Hk)), Hk, <- app_assoc. reflexivity.
Qed.

Section Keys.
Variable ECHO : Z.
Variable max_len : Z.

Lemma input_loop_full (stdin : list Terminal.read_result) (buffer : list ascii)
      (i c : Z) (t : bool) :
  max_len - 1 <= i ->
  Terminal.input_loop ECHO max_len stdin buffer i c t
  = Terminal.normal_exit ECHO stdin buffer i c t.
Proof.
  intros Hi. destruct stdin; cbn [Terminal.input_loop];
    destruct (Z.ltb_spec i (max_len - 1)); try lia; reflexivity.
Qed.

(** The loop on keys that are no Enter: the array holds what the line
    editor makes of them. *)
Lemma input_loop_keys (c : Z) (tail : list Terminal.read_result) :
  forall (keys : list ascii) (buffer : list ascii) (i : Z),
    Forall (fun key => is_enter key = false) keys ->
    0 <= i -> i + Z.of_nat (length keys) <= max_len - 1 ->
    max_len <= Z.of_nat (length buffer) ->
    exists buffer' i',
      Terminal.input_loop ECHO max_len (map Terminal.Byte keys ++ tail)
                          buffer i c false
      = Terminal.input_loop ECHO max_len tail buffer' i' c false
      /\ length buffer' = length buffer
      /\ 0 <= i' <= i + Z.of_nat (length keys)
      /\ firstn (Z.to_nat i') buffer'
         = fold_left edit_key keys (firstn (Z.to_nat i) buffer).
Proof.
  induction keys as [|k keys IH]; intros buffer i Hk Hi Hfit Hlen.
  - exists buffer, i. cbn [map app fold_left length]. repeat split; lia.
  - inversion Hk as [|? ? Hk1 Hk2]; subst. cbn [length] in Hfit.
    cbn [map app Terminal.input_loop fold_left].
    destruct (Z.ltb_spec i (max_len - 1)); [|lia].
    unfold is_enter in Hk1. rewrite Hk1. clear Hk1.
    assert (Ek : forall typed,
               edit_key typed k
               = if (C.code k =? 127) || (C.code k =? 8) then removelast typed
                 else if C.isprint k then typed ++ [k] else typed)
      by reflexivity.
    rewrite Ek. clear Ek.
    destruct (_ || _).
    + destruct (IH buffer (if i >? 0 then i - 1 else i) Hk2) as (b' & i' & E & L & R & F);
        try (destruct (Z.gtb_spec i 0); lia).
      exists b', i'. rewrite E. split; [reflexivity|]. split; [exact L|].
      split; [destruct (Z.gtb_spec i 0); cbn [length]; lia|].
      rewrite F. f_equal. destruct (Z.gtb_spec i 0); [|
        replace i with 0 by lia; reflexivity].
      replace (Z.to_nat (i - 1)) with (Z.to_nat i - 1)%nat by lia.
      apply firstn_pred. lia.
    + destruct (C.isprint k).
      * rewrite store_at_Some by lia.
        destruct (IH (firstn (Z.to_nat i) buffer ++ k
                        :: skipn (S (Z.to_nat i)) buffer) (i + 1) Hk2)
          as (b' & i' & E & L & R & F);
          try lia; [rewrite stored_length by lia; lia|].
        exists b', i'. rewrite E. split; [reflexivity|].
        split; [rewrite L, stored_length by lia; reflexivity|].
        split; [cbn [length]; lia|].
        rewrite F. f_equal.
        replace (Z.to_nat (i + 1)) with (S (Z.to_nat i)) by lia.
        apply stored_firstn. lia.
      * destruct (IH buffer i Hk2) as (b' & i' & E & L & R & F); try lia.
        exists b', i'. rewrite E. split; [reflexivity|]. split; [exact L|].
        split; [cbn [length]; lia | exact F].
Qed.

End Keys.

(** Past its argument check [get_hidden_input] is defined when the buffer
    has [max_len] bytes. *)
Lemma get_hidden_input_post (ECHO : Z) (buffer : list ascii) (max_len c_lflag : Z)
      (timed_out : bool) (stdin : list Terminal.read_result) :
  0 < max_len <= Z.of_nat (length buffer) ->
  exists o,
    Terminal.get_hidden_input ECHO buffer max_len c_lflag timed_out stdin = Some o
    /\ input_post ECHO max_len buffer
                  (Terminal.set_terminal_echo ECHO 0 c_lflag) o.
Proof.
  intros Hm. unfold Terminal.get_hidden_input.
  destruct (Z.leb_spec max_len 0) as [Hm'|_]; [lia|].
  rewrite memset_Some by lia. apply input_loop_post.
  - lia.
  - rewrite length_app, repeat_length, length_skipn. lia.
  - rewrite length_app, repeat_length, length_skipn. lia.
  - rewrite skipn_app, repeat_length, Nat.sub_diag.
    rewrite (skipn_all2 (repeat _ _)) by (rewrite repeat_length; lia).
    reflexivity.
  - constructor.
  - reflexivity.
Qed.

(** What the string in the buffer is when a length is returned. *)
Lemma input_post_string (ECHO max_len : Z) (buffer : list ascii) (c : Z)
      (o : Terminal.input_outcome) :
  input_post ECHO max_len buffer c o ->
  0 <= Terminal.result o -> Terminal.timed_out_out o = false ->
  Z.of_nat (C.strlen (Terminal.buffer_out o)) = Terminal.result o
  /\ Forall (fun ch => C.isprint ch = true) (C.chars (Terminal.buffer_out o)).
Proof.
  intros (_ & _ & _ & _ & R) Hr Ht.
  destruct R as [R|(R & S)]; [lia|].
  destruct (S Ht) as (s & tail & B & Ls & P).
  rewrite <- chars_length, B, chars_app_zero by exact P.
  split; [exact Ls | exact P].
Qed.

(** X5.  [get_hidden_input] is defined exactly when the buffer has at
    least [max_len] bytes.  It then changes no byte beyond the first
    [max_len], returns -1 or a length below [max_len], returns 0 on a
    timeout, and whenever it returns a length without a timeout, the buffer
    holds a terminated string of exactly that many printable characters. *)
Theorem hidden_input_is_safe (ECHO : Z) (buffer : list ascii) (max_len c_lflag : Z)
        (timed_out : bool) (stdin : list Terminal.read_result) :
  ((exists o, Terminal.get_hidden_input ECHO buffer max_len c_lflag timed_out stdin
              = Some o)
   <-> max_len <= Z.of_nat (length buffer))
  /\ forall o,
      Terminal.get_hidden_input ECHO buffer max_len c_lflag timed_out stdin
      = Some o ->
      length (Terminal.buffer_out o) = length buffer
      /\ skipn (Z.to_nat max_len) (Terminal.buffer_out o)
         = skipn (Z.to_nat max_len) buffer
      /\ (Terminal.result o = -1 \/ 0 <= Terminal.result o < max_len)
      /\ (0 < max_len -> Terminal.timed_out_out o = true -> Terminal.result o = 0)
      /\ (0 <= Terminal.result o -> Terminal.timed_out_out o = false ->
          Z.of_nat (C.strlen (Terminal.buffer_out o)) = Terminal.result o
          /\ Forall (fun ch => C.isprint ch = true)
                    (C.chars (Terminal.buffer_out o))).
Proof.
  unfold Terminal.get_hidden_input.
  destruct (Z.leb_spec max_len 0) as [Hm|Hm].
  { split; [split; [lia | eauto]|].
    intros o [= <-].
    cbn [Terminal.buffer_out Terminal.result Terminal.timed_out_out].
    repeat split; lia. }
  destruct (Z.le_gt_cases max_len (Z.of_nat (length buffer))) as [Hl|Hl].
  - destruct (get_hidden_input_post ECHO buffer max_len c_lflag timed_out stdin)
      as (o & Ho & P); [lia|].
    unfold Terminal.get_hidden_input in Ho.
    destruct (Z.leb_spec max_len 0) as [Hm'|_] in Ho; [lia|].
    rewrite Ho. split; [split; [lia | eauto]|].
    intros o' [= <-].
    pose proof (input_post_string _ _ _ _ _ P) as St.
    destruct P as (L & S & _ & T & R).
    split; [exact L|]. split; [exact S|].
    split; [destruct R as [R|(R & _)]; lia|].
    split; [intros _; exact T | exact St].
  - rewrite memset_None by lia.
    split; [split; [intros [o [=]] | lia] | intros o [=]].
Qed.

Lemma hidden_input_is_safe_witness :
  exists o,
    Terminal.get_hidden_input 8 [zero; zero; zero] 3 0 false
                              [Terminal.Byte "a"; Terminal.Byte "010"] = Some o
    /\ length (Terminal.buffer_out o) = 3%nat.
Proof.
  destruct (hidden_input_is_safe 8 [zero; zero; zero] 3 0 false
              [Terminal.Byte "a"; Terminal.Byte "010"]) as [[_ H] P].
  destruct H as [o Ho]; [vm_compute; intro E; discriminate E|].
  exists o. split; [exact Ho|]. exact (proj1 (P o Ho)).
Defined.

(** X6.  A line typed with backspaces: for keys that are no Enter, fewer
    than [max_len - 1] of them, followed by Enter, [get_hidden_input]
    returns the length of what a line editor makes of the keys, leaves that
    text as the string in the buffer, and has read the input up to and
    including the Enter. *)
Theorem hidden_input_edits_line (ECHO : Z) (buffer : list ascii) (max_len c_lflag : Z)
        (keys : list ascii) (enter : ascii) (rest : list Terminal.read_result) :
  max_len <= Z.of_nat (length buffer) ->
  Forall (fun key => is_enter key = false) keys ->
  is_enter enter = true ->
  Z.of_nat (length keys) < max_len - 1 ->
  exists o,
    Terminal.get_hidden_input ECHO buffer max_len c_lflag false
      (map Terminal.Byte keys ++ Terminal.Byte enter :: rest) = Some o
    /\ Terminal.result o = Z.of_nat (length (edit_line keys))
    /\ C.chars (Terminal.buffer_out o) = edit_line keys
    /\ Terminal.timed_out_out o = false
    /\ Terminal.stdin_out o = rest.
Proof.
  intros Hl Hk He Hfit. unfold Terminal.get_hidden_input.
  destruct (Z.leb_spec max_len 0) as [Hm|Hm]; [lia|].
  rewrite memset_Some by lia.
  set (b0 := repeat zero (Z.to_nat max_len) ++ skipn (Z.to_nat max_len) buffer).
  assert (Hb0 : length b0 = length buffer)
    by (unfold b0; rewrite length_app, repeat_length, length_skipn; lia).
  destruct (input_loop_keys ECHO max_len
              (Terminal.set_terminal_echo ECHO 0 c_lflag)
              (Terminal.Byte enter :: rest) keys b0 0 Hk)
    as (b' & i' & E & L & R & F); try lia.
  rewrite E. cbn [Terminal.input_loop].
  destruct (Z.ltb_spec i' (max_len - 1)); [|lia].
  unfold is_enter in He. rewrite He. unfold Terminal.normal_exit.
  rewrite store_at_Some by lia. eexists. split; [reflexivity|].
  cbn [Terminal.result Terminal.buffer_out Terminal.timed_out_out
       Terminal.stdin_out].
  change (firstn (Z.to_nat 0) b0) with (@nil ascii) in F.
  fold (edit_line keys) in F.
  split; [rewrite <- F; symmetry; apply firstn_length_Z; lia|].
  split; [|split; reflexivity].
  rewrite F. apply chars_app_zero. apply edit_keys_printable. constructor.
Qed.

Lemma hidden_input_edits_line_witness :
  exists o,
    Terminal.get_hidden_input 8 (repeat zero 8) 8 0 false
      (map Terminal.Byte ["a"; "x"; "127"; "b"]%char
           ++ Terminal.Byte "010" :: [])
    = Some o
    /\ C.chars (Terminal.buffer_out o) = ["a"; "b"]%char.
Proof.
  destruct (hidden_input_edits_line 8 (repeat zero 8) 8 0
              ["a"; "x"; "127"; "b"]%char "010" [])
    as (o & Ho & _ & Hc & _).
  - vm_compute. intro E; discriminate E.
  - repeat constructor.
  - reflexivity.
  - reflexivity.
  - exists o. split; [exact Ho | exact Hc].
Defined.

(** X7.  A line of printable characters that does not fit: the first
    [max_len - 1] characters are returned as the password without waiting
    for Enter, and the rest of the line stays unread in the input. *)
Theorem hidden_input_truncates (ECHO : Z) (buffer : list ascii) (max_len c_lflag : Z)
        (line : list ascii) (rest : list Terminal.read_result) :
  0 < max_len <= Z.of_nat (length buffer) ->
  Forall (fun ch => C.isprint ch = true) line ->
  max_len - 1 <= Z.of_nat (length line) ->
  exists o,
    Terminal.get_hidden_input ECHO buffer max_len c_lflag false
      (map Terminal.Byte line ++ rest) = Some o
    /\ Terminal.result o = max_len - 1
    /\ C.chars (Terminal.buffer_out o) = firstn (Z.to_nat (max_len - 1)) line
    /\ Terminal.timed_out_out o = false
    /\ Terminal.stdin_out o
       = map Terminal.Byte (skipn (Z.to_nat (max_len - 1)) line) ++ rest.
Proof.
  intros Hl Hp Hlong. unfold Terminal.get_hidden_input.
  destruct (Z.leb_spec max_len 0) as [Hm|Hm]; [lia|].
  rewrite memset_Some by lia.
  set (b0 := repeat zero (Z.to_nat max_len) ++ skipn (Z.to_nat max_len) buffer).
  assert (Hb0 : length b0 = length buffer)
    by (unfold b0; rewrite length_app, repeat_length, length_skipn; lia).
  set (k := Z.to_nat (max_len - 1)).
  replace (map Terminal.Byte line)
    with (map Terminal.Byte (firstn k line) ++ map Terminal.Byte (skipn k line))
    by (rewrite <- map_app, firstn_skipn; reflexivity).
  rewrite <- app_assoc.
  assert (Hfk : Forall (fun ch => C.isprint ch = true) (firstn k line))
    by (apply Forall_firstn; exact Hp).
  assert (Hlk : length (firstn k line) = k)
    by (rewrite length_firstn; unfold k; lia).
  destruct (input_loop_keys ECHO max_len
              (Terminal.set_terminal_echo ECHO 0 c_lflag)
              (map Terminal.Byte (skipn k line) ++ rest) (firstn k line) b0 0)
    as (b' & i' & E & L & R & F); try lia.
  { eapply Forall_impl; [|exact Hfk]. intros ch H. apply (isprint_plain ch H). }
  rewrite edit_keys_plain in F by exact Hfk.
  change (firstn (Z.to_nat 0) b0) with (@nil ascii) in F. cbn [app] in F.
  assert (Hi' : i' = max_len - 1).
  { rewrite <- (firstn_length_Z b' i') by lia. rewrite F, Hlk. unfold k. lia. }
  rewrite E, input_loop_full by lia. unfold Terminal.normal_exit.
  rewrite store_at_Some by lia. eexists. split; [reflexivity|].
  cbn [Terminal.result Terminal.buffer_out Terminal.timed_out_out
       Terminal.stdin_out].
  split; [exact Hi'|]. split; [|split; reflexivity].
  rewrite F. apply chars_app_zero. exact Hfk.
Qed.

Lemma hidden_input_truncates_witness :
  exists o,
    Terminal.get_hidden_input 8 (repeat zero 3) 3 0 false
      (map Terminal.Byte ["a"; "b"; "c"]%char ++ [Terminal.Byte "010"])
    = Some o
    /\ C.chars (Terminal.buffer_out o) = ["a"; "b"]%char
    /\ Terminal.stdin_out o = [Terminal.Byte "c"; Terminal.Byte "010"].
Proof.
  destruct (hidden_input_truncates 8 (repeat zero 3) 3 0
              ["a"; "b"; "c"]%char [Terminal.Byte "010"])
    as (o & Ho & _ & Hc & _ & Hs).
  - vm_compute. split; [reflexivity | intro E; discriminate E].
  - repeat constructor.
  - vm_compute. intro E; discriminate E.
  - exists o. split; [exact Ho|]. split; [exact Hc | exact Hs].
Defined.

(** ** The echo flag *)

Lemma tcflag_high (c n : Z) : 0 <= c < 2 ^ 32 -> 32 <= n -> Z.testbit c n = false.
Proof.
  intros Hc Hn. rewrite <- (Z.mod_small c (2 ^ 32)) by exact Hc.
  apply Z.mod_pow2_bits_high. lia.
Qed.

Lemma disable_bits (ECHO c n : Z) :
  0 <= c < 2 ^ 32 ->
  Z.testbit (Terminal.set_terminal_echo ECHO 0 c) n
  = Z.testbit c n && negb (Z.testbit ECHO n).
Proof.
  intros Hc. unfold Terminal.set_terminal_echo, Terminal.to_tcflag.
  cbn [Z.eqb]. rewrite Z.land_spec.
  destruct (Z.lt_ge_cases n 0) as [Hn|Hn];
    [rewrite (Z.testbit_neg_r c) by exact Hn; reflexivity|].
  destruct (Z.lt_ge_cases n 32) as [Hn'|Hn'].
  - rewrite Z.mod_pow2_bits_low, Z.lnot_spec by lia. reflexivity.
  - rewrite (tcflag_high c n) by assumption. reflexivity.
Qed.

Lemma enable_bits (ECHO c n : Z) :
  0 <= ECHO < 2 ^ 32 ->
  Z.testbit (Terminal.set_terminal_echo ECHO 1 c) n
  = Z.testbit c n || Z.testbit ECHO n.
Proof.
  intros He. unfold Terminal.set_terminal_echo, Terminal.to_tcflag.
  cbn [Z.eqb]. rewrite Z.lor_spec, Z.mod_small by exact He. reflexivity.
Qed.

(** X8.  For flags of 32 bits, [set_terminal_echo(0)] clears the bits of
    ECHO and [set_terminal_echo(1)] sets them, neither changes another
    bit; and whichever way [get_hidden_input] returns once it has switched
    the echo off (Enter, end of input, full buffer, read error, timeout),
    the echo is on again and the other flags are as before. *)
Theorem echo_is_restored (ECHO c_lflag : Z) :
  0 <= ECHO < 2 ^ 32 -> 0 <= c_lflag < 2 ^ 32 ->
  (Z.land (Terminal.set_terminal_echo ECHO 0 c_lflag) ECHO = 0
   /\ forall n, Z.testbit ECHO n = false ->
        Z.testbit (Terminal.set_terminal_echo ECHO 0 c_lflag) n
        = Z.testbit c_lflag n)
  /\ (Z.land (Terminal.set_terminal_echo ECHO 1 c_lflag) ECHO = ECHO
      /\ forall n, Z.testbit ECHO n = false ->
           Z.testbit (Terminal.set_terminal_echo ECHO 1 c_lflag) n
           = Z.testbit c_lflag n)
  /\ forall buffer max_len timed_out stdin o,
       0 < max_len ->
       Terminal.get_hidden_input ECHO buffer max_len c_lflag timed_out stdin
       = Some o ->
       Z.land (Terminal.c_lflag_out o) ECHO = ECHO
       /\ forall n, Z.testbit ECHO n = false ->
            Z.testbit (Terminal.c_lflag_out o) n = Z.testbit c_lflag n.
Proof.
  intros He Hc. split; [|split].
  - split.
    + apply Z.bits_inj'. intros n _.
      rewrite Z.land_spec, disable_bits, Z.bits_0 by exact Hc.
      destruct (Z.testbit c_lflag n), (Z.testbit ECHO n); reflexivity.
    + intros n Hn. rewrite disable_bits, Hn by exact Hc. apply andb_true_r.
  - split.
    + apply Z.bits_inj'. intros n _.
      rewrite Z.land_spec, enable_bits by exact He.
      destruct (Z.testbit c_lflag n), (Z.testbit ECHO n); reflexivity.
    + intros n Hn. rewrite enable_bits, Hn by exact He. apply orb_false_r.
  - intros buffer max_len timed_out stdin o Hm Ho.
    assert (Hl : max_len <= Z.of_nat (length buffer)).
    { destruct (Z.le_gt_cases max_len (Z.of_nat (length buffer))) as [Hl|Hl];
        [exact Hl|].
      unfold Terminal.get_hidden_input in Ho.
      destruct (Z.leb_spec max_len 0) as [Hm'|_] in Ho; [lia|].
      rewrite memset_None in Ho by lia. discriminate Ho. }
    destruct (get_hidden_input_post ECHO buffer max_len c_lflag timed_out stdin)
      as (o' & Ho' & _ & _ & F & _); [lia|].
    rewrite Ho' in Ho. injection Ho as <-. rewrite F. split.
    + apply Z.bits_inj'. intros n _.
      rewrite Z.land_spec, enable_bits by exact He.
      destruct (Z.testbit _ n), (Z.testbit ECHO n); reflexivity.
    + intros n Hn.
      rewrite enable_bits, disable_bits, Hn by assumption.
      rewrite orb_false_r. apply andb_true_r.
Qed.

Lemma echo_is_restored_witness :
  Z.land (Terminal.set_terminal_echo 8 0 35387) 8 = 0
  /\ Z.land (Terminal.set_terminal_echo 8 1 35379) 8 = 8.
Proof.
  assert (H8 : 0 <= 8 < 2 ^ 32) by (vm_compute; split; [intro E; discriminate E | reflexivity]).
  assert (Ha : 0 <= 35387 < 2 ^ 32) by (vm_compute; split; [intro E; discriminate E | reflexivity]).
  assert (Hb : 0 <= 35379 < 2 ^ 32) by (vm_compute; split; [intro E; discriminate E | reflexivity]).
  split.
  - exact (proj1 (proj1 (echo_is_restored 8 35387 H8 Ha))).
  - exact (proj1 (proj1 (proj2 (echo_is_restored 8 35379 H8 Hb)))).
Defined.

(** * The game loop *)

(** The two [int] computations of a round that is won. *)
Lemma round_step_defined (round limit : Z) :
  CInt.INT_MIN <= round < CInt.INT_MAX ->
  CInt.INT_MIN + 5 <= limit <= CInt.INT_MAX ->
  (round + 1)%cint = Some (round + 1)
  /\ (limit - Terminal.TIME_DECREMENT)%cint = Some (limit - 5).
Proof.
  intros Hr Hl. unfold Terminal.TIME_DECREMENT, CInt.INT_MIN, CInt.INT_MAX in *.
  rewrite !of_Z_ok by (unfold CInt.INT_MIN, CInt.INT_MAX; lia).
  rewrite add_ok, sub_ok by (unfold CInt.INT_MIN, CInt.INT_MAX; lia).
  split; reflexivity.
Qed.

Lemma round_step_Some {B} (round limit : Z) (k : Z -> Z -> option B) (b : B) :
  (next_round <- round + 1 ;;
   decreased <- limit - Terminal.TIME_DECREMENT ;;
   k next_round decreased)%cint = Some b ->
  k (round + 1) (limit - 5) = Some b.
Proof.
  intros H. apply bind_Some in H. destruct H as (x & Hx & H).
  apply bind_Some in H. destruct H as (y & Hy & H).
  apply add_Some in Hx. destruct Hx as (x1 & x2 & E1 & E2 & -> & _).
  apply sub_Some in Hy. destruct Hy as (y1 & y2 & F1 & F2 & -> & _).
  apply of_Z_Some in E1, E2, F1, F2.
  destruct E1 as [-> _], E2 as [-> _], F1 as [-> _], F2 as [-> _]. exact H.
Qed.

Lemma time_limit_bounds (round : Z) :
  10 <= time_limit_of_round round <= Z.max 10 (65 - 5 * round).
Proof.
  unfold time_limit_of_round, Terminal.MIN_TIME, Terminal.INITIAL_TIME,
    Terminal.TIME_DECREMENT. lia.
Qed.

Section Game.
Variable ECHO : Z.
Variable rand : nat -> Z.
Variable late_alarm : Z -> bool.
Hypothesis rand_range : forall n, 0 <= rand n <= CInt.INT_MAX.

Lemma play_round_played (g : Terminal.game) :
  1 <= Terminal.round g <= c_max_round ->
  CInt.INT_MIN + 5 <= Terminal.current_time_limit g <= CInt.INT_MAX ->
  Terminal.MAX_PASSWORD_LEN <= Z.of_nat (length (Terminal.password_buffer g)) ->
  exists g',
    Terminal.play_round ECHO rand late_alarm g = Some g'
    /\ round_played rand g g'.
Proof.
  intros Hr Ht Hl. unfold Terminal.play_round.
  destruct (c_generate_defined (rand (Terminal.rand_calls g)) (Terminal.round g) Hr
              (rand_range _)) as [q Hq].
  rewrite Hq.
  destruct (get_hidden_input_post ECHO (Terminal.password_buffer g)
              Terminal.MAX_PASSWORD_LEN (Terminal.c_lflag g) false
              (Terminal.stdin g)) as (o & Ho & P);
    [unfold Terminal.MAX_PASSWORD_LEN in *; lia|].
  rewrite Ho. destruct P as (L & _).
  unfold round_played.
  destruct (if late_alarm (Terminal.round g)
            then Terminal.handle_timeout (Terminal.timed_out_out o)
            else Terminal.timed_out_out o).
  { eexists. split; [reflexivity|].
    cbn [Terminal.password_buffer Terminal.successful_round Terminal.round
         Terminal.current_time_limit]. auto. }
  destruct (Terminal.result o <=? 0).
  { eexists. split; [reflexivity|].
    cbn [Terminal.password_buffer Terminal.successful_round Terminal.round
         Terminal.current_time_limit]. auto. }
  rewrite (c_validate_checks (Terminal.buffer_out o) q).
  destruct (Checks.validate _ _ _) eqn:V.
  - destruct (round_step_defined (Terminal.round g)
                (Terminal.current_time_limit g)) as [-> ->];
      [unfold c_max_round, CInt.INT_MIN, CInt.INT_MAX in *; lia | exact Ht|].
    cbn [CInt.bind].
    eexists. split; [reflexivity|].
    cbn [Terminal.password_buffer Terminal.successful_round Terminal.round
         Terminal.current_time_limit Terminal.timed_out].
    split; [exact L|]. right. repeat split.
    + unfold Terminal.MIN_TIME, Terminal.TIME_DECREMENT.
      destruct (Z.gtb_spec (Terminal.current_time_limit g - 5) 10); lia.
    + exists q. split; [exact Hq|]. rewrite c_validate_checks, V. reflexivity.
  - eexists. split; [reflexivity|].
    cbn [Terminal.password_buffer Terminal.successful_round Terminal.round
         Terminal.current_time_limit]. auto.
Qed.

Lemma game_loop_over (n : nat) (g : Terminal.game) :
  Terminal.successful_round g = false ->
  Terminal.game_loop ECHO rand late_alarm n g = Some g.
Proof. intros H. destruct n; cbn [Terminal.game_loop]; rewrite H; reflexivity. Qed.

(** Round 5 is never won. *)
Lemma round_five_lost (g g' : Terminal.game) :
  Terminal.round g = 5 -> round_played rand g g' ->
  Terminal.successful_round g' = false.
Proof.
  intros H5 (_ & [(H & _)|(_ & _ & _ & _ & q & Hq & V)]); [exact H|].
  rewrite H5 in Hq. exfalso. revert V. rewrite (c_round_five _ q Hq).
  apply c_never_valid; intro E; discriminate E.
Qed.

Lemma game_loop_ends :
  forall (n : nat) (g : Terminal.game),
    1 <= Terminal.round g <= 5 -> 6 <= Terminal.round g + Z.of_nat n ->
    Terminal.current_time_limit g = time_limit_of_round (Terminal.round g) ->
    Terminal.MAX_PASSWORD_LEN <= Z.of_nat (length (Terminal.password_buffer g)) ->
    exists g',
      Terminal.game_loop ECHO rand late_alarm n g = Some g'
      /\ Terminal.successful_round g' = false
      /\ Terminal.round g <= Terminal.round g' <= 5
      /\ Terminal.current_time_limit g' = time_limit_of_round (Terminal.round g').
Proof.
  induction n as [|n IH]; intros g Hr Hn Ht Hl; [lia|].
  destruct (Terminal.successful_round g) eqn:Hs.
  2:{ exists g. rewrite game_loop_over by exact Hs. repeat split; trivial; lia. }
  cbn [Terminal.game_loop]. rewrite Hs.
  destruct (play_round_played g) as (g1 & E & P);
    [unfold c_max_round; lia
     | rewrite Ht; pose proof (time_limit_bounds (Terminal.round g));
       unfold CInt.INT_MIN, CInt.INT_MAX; lia
     | exact Hl|].
  rewrite E.
  destruct (Terminal.successful_round g1) eqn:Hs1.
  - assert (H5 : Terminal.round g <> 5).
    { intros H5. rewrite (round_five_lost g g1 H5 P) in Hs1. discriminate. }
    destruct P as (L & [(F & _)|(_ & _ & R & T & _)]); [congruence|].
    destruct (IH g1) as (g' & E' & S' & R' & T'); try lia.
    + rewrite T, Ht, R. unfold time_limit_of_round, Terminal.MIN_TIME,
        Terminal.INITIAL_TIME, Terminal.TIME_DECREMENT. lia.
    + exists g'. repeat split; trivial; lia.
  - exists g1. rewrite game_loop_over by exact Hs1.
    destruct P as (L & [(_ & R & T)|(F & _)]); [|congruence].
    repeat split; trivial; try lia. rewrite T, R. exact Ht.
Qed.

End Game.



(** X10.  What the terminal game hands to its validator has the same
    verdict in the browser: whenever [get_hidden_input] returns a length
    without a timeout, the C validator on the buffer and the JavaScript
    validator on the same text agree, for every requirements record. *)
Theorem typed_password_same_verdict (ECHO : Z) (buffer : list ascii)
        (max_len c_lflag : Z) (timed_out : bool)
        (stdin : list Terminal.read_result) (o : Terminal.input_outcome)
        (q : C.PasswordRequirements) :
  Terminal.get_hidden_input ECHO buffer max_len c_lflag timed_out stdin = Some o ->
  0 <= Terminal.result o -> Terminal.timed_out_out o = false ->
  C.validate_password (Terminal.buffer_out o) q
  = JS.validatePassword (codes (C.chars (Terminal.buffer_out o)))
                        (C.requirements_of q).
Proof.
  intros Ho Hr Ht.
  assert (Hm : 0 < max_len <= Z.of_nat (length buffer)).
  { unfold Terminal.get_hidden_input in Ho.
    destruct (Z.leb_spec max_len 0) as [Hm|Hm] in Ho.
    - injection Ho as <-. cbn [Terminal.result] in Hr. lia.
    - destruct (Z.le_gt_cases max_len (Z.of_nat (length buffer))); [lia|].
      rewrite memset_None in Ho by lia. discriminate Ho. }
  destruct (get_hidden_input_post ECHO buffer max_len c_lflag timed_out stdin Hm)
    as (o' & Ho' & P).
  rewrite Ho in Ho'. injection Ho' as <-.
  destruct (input_post_string _ _ _ _ _ P Hr Ht) as [_ Hp].
  rewrite c_validate_checks, js_validate_checks. f_equal.
  apply validate_ext. unfold codes. apply Forall_map.
  eapply Forall_impl; [|exact Hp].
  intros ch Hch. apply printable_same_classes. rewrite Hch. reflexivity.
Qed.

Lemma typed_password_same_verdict_witness :
  C.validate_password ["a"; zero; zero]%char c_round5
  = JS.validatePassword [97%N] (C.requirements_of c_round5).
Proof.
  exact (typed_password_same_verdict 8 [zero; zero; zero] 3 0 false
           [Terminal.Byte "a"; Terminal.Byte "010"]
           {| Terminal.result := 1;
              Terminal.buffer_out := ["a"; zero; zero]%char;
              Terminal.c_lflag_out := 8;
              Terminal.timed_out_out := false;
              Terminal.stdin_out := [] |}
           c_round5 eq_refl
           ltac:(cbn; intro H; discriminate H) eq_refl).
Defined.

(** * The browser front-end *)

Declare Reduction page_red :=
  cbv beta iota zeta delta
      [Browser.currentRound Browser.currentTimeLimit Browser.timerId
       Browser.intervalId Browser.currentRequirements Browser.gameActive
       Browser.timeLeft Browser.nextId Browser.timeouts Browser.intervals
       Browser.roundNumberEl Browser.timerDisplayEl Browser.timerDisplayEl_red
       Browser.requirementsListEl Browser.passwordInputEl
       Browser.passwordInputEl_disabled Browser.submitButtonEl_disabled
       Browser.feedbackMessageEl Browser.feedbackMessageEl_class
       Browser.startGameButtonEl Browser.startGameButtonEl_disabled
       Browser.set_currentRound Browser.set_currentTimeLimit
       Browser.set_timerId Browser.set_intervalId
       Browser.set_currentRequirements Browser.set_gameActive
       Browser.set_timeLeft Browser.set_nextId Browser.set_timeouts
       Browser.set_intervals Browser.set_roundNumberEl
       Browser.set_timerDisplayEl Browser.set_timerDisplayEl_red
       Browser.set_requirementsListEl Browser.set_passwordInputEl
       Browser.set_passwordInputEl_disabled
       Browser.set_submitButtonEl_disabled Browser.set_feedbackMessageEl
       Browser.set_feedbackMessageEl_class Browser.set_startGameButtonEl
       Browser.set_startGameButtonEl_disabled
       Browser.displayRequirements Browser.updateTimerDisplay
       Browser.displayFeedback Browser.clearTimeout
       Browser.clearInterval Browser.setInterval Browser.setTimeout
       Browser.handleTimeout Browser.startTimer
       Browser.startRound Browser.initializeGame Browser.load].

(** Evaluate the handlers on the right of the equation [E]. *)
Ltac page_eval_in E :=
  match type of E with
  | ?q = ?t =>
    let t' := eval page_red in t in
    let E' := fresh "E" in
    assert (E' : t = t') by reflexivity;
    rewrite E' in E; clear E'
  end.

Ltac page_fields :=
  cbn [Browser.currentRound Browser.currentTimeLimit Browser.timerId
       Browser.intervalId Browser.currentRequirements Browser.gameActive
       Browser.timeLeft Browser.nextId Browser.timeouts Browser.intervals
       Browser.roundNumberEl Browser.timerDisplayEl Browser.timerDisplayEl_red
       Browser.requirementsListEl Browser.passwordInputEl
       Browser.passwordInputEl_disabled Browser.submitButtonEl_disabled
       Browser.feedbackMessageEl Browser.feedbackMessageEl_class
       Browser.startGameButtonEl Browser.startGameButtonEl_disabled] in *.

(** ** Timers *)

Lemma cancel_nil (id : option nat) : Browser.cancel id [] = [].
Proof. destruct id; reflexivity. Qed.

Lemma cancel_own (id : option nat) (ids : list nat) :
  ids = [] \/ (exists i, ids = [i] /\ id = Some i) ->
  Browser.cancel id ids = [].
Proof.
  intros [->|(i & -> & ->)]; [apply cancel_nil|].
  cbn [Browser.cancel filter]. rewrite Nat.eqb_refl. reflexivity.
Qed.

Lemma cancel_keeps (id id' : option nat) (ids : list nat) :
  ids = [] \/ (exists i, ids = [i] /\ id' = Some i) ->
  Browser.cancel id ids = [] \/ (exists i, Browser.cancel id ids = [i] /\ id' = Some i).
Proof.
  intros [->|(i & -> & ->)]; [left; apply cancel_nil|].
  destruct id as [j|]; [|right; exists i; split; reflexivity].
  cbn [Browser.cancel filter]. destruct (Nat.eqb i j); cbn [negb];
    [left; reflexivity | right; exists i; split; reflexivity].
Qed.

Lemma cancel_other (id : option nat) (i : nat) :
  id <> Some i -> Browser.cancel id [i] = [i].
Proof.
  destruct id as [j|]; [|reflexivity]. intros H.
  cbn [Browser.cancel filter]. destruct (Nat.eqb_spec i j); [|reflexivity].
  subst. congruence.
Qed.

(** ** The validator on the requirements of a round *)

Lemma js_validate_defined (password : list N) (reqs : option Requirements) :
  exists v, Browser.validate password reqs = Some v.
Proof.
  destruct reqs as [reqs|]; cbn [Browser.validate]; [|eauto].
  rewrite js_validate_checks. eauto.
Qed.

Lemma js_round_five_lost (random : Q) (password : list N) :
  Browser.validate password (Some (JS.generateRequirements random 5))
  <> Some Valid.
Proof. cbn [Browser.validate]. apply js_never_valid; reflexivity. Qed.

(** ** The invariant of the page *)

Ltac page_ok_split Hok :=
  let R := fresh "R" in let RN := fresh "RN" in let SD := fresh "SD" in
  let ST := fresh "ST" in let PL := fresh "PL" in let GA := fresh "GA" in
  let NX := fresh "NX" in let RQ := fresh "RQ" in let R0 := fresh "R0" in
  let TO := fresh "TO" in let IV := fresh "IV" in let NE := fresh "NE" in
  let DI := fresh "DI" in let LI := fresh "LI" in let TL := fresh "TL" in
  let TI := fresh "TI" in let TD := fresh "TD" in let T0 := fresh "T0" in
  let RD := fresh "RD" in
  unfold page_ok in Hok; page_fields;
  destruct Hok as (R & RN & SD & ST & PL & GA & NX & RQ & R0 & TO & IV & NE
                   & DI & LI & TL & TI & TD & T0 & RD).

Ltac page_ok_done :=
  unfold page_ok; page_fields;
  repeat match goal with |- _ /\ _ => split end;
  try assumption; try reflexivity; try lia; try discriminate;
  try (left; reflexivity); try (intros _; split; reflexivity);
  try (let H := fresh in intros H; contradiction);
  try (intros _; split; [reflexivity | eauto]; fail);
  try (intros _; split; [reflexivity | lia]; fail);
  try (intros; lia); try (intros; congruence).

Lemma shown_time (timeLeft : Z) :
  0 <= timeLeft -> (if timeLeft >=? 0 then timeLeft else 0) = timeLeft.
Proof. intros H. rewrite Z.geb_leb. destruct (Z.leb_spec 0 timeLeft); lia. Qed.

Lemma load_ok (html : Browser.page) : page_ok (Browser.load html).
Proof.
  destruct html. remember (Browser.load _) as q eqn:E. page_eval_in E. subst q.
  page_ok_done.
Qed.

Lemma start_click_ok (random : Q) (p : Browser.page) :
  page_ok p -> Browser.startGameButtonEl_disabled p = false ->
  page_ok (Browser.start_click random p).
Proof.
  intros Hok Hs. destruct p. page_ok_split Hok. subst.
  destruct passwordInputEl_disabled; [|discriminate].
  destruct (DI eq_refl) as [-> ->].
  unfold Browser.start_click. page_fields.
  assert (Hr : 0 <= (match startGameButtonEl with
                     | Browser.StartNextRound => currentRound
                     | _ => 0
                     end) <= 4).
  { destruct startGameButtonEl; try lia. specialize (NX eq_refl). lia. }
  destruct startGameButtonEl;
    remember (Browser.startRound _ _) as q eqn:E; page_eval_in E; subst q;
    unfold page_ok; page_fields; rewrite !cancel_nil.
  all: repeat match goal with |- _ /\ _ => split end;
    try reflexivity; try lia; try discriminate;
    try (intros _; split; reflexivity).
  all: try (intros _; split; [reflexivity | eauto]; fail).
  all: try (right; eauto; fail).
  all: try (intros id [= <-] [= H]; lia).
  all: unfold Browser.MIN_TIME, Browser.INITIAL_TIME, Browser.TIME_DECREMENT;
    try lia.
  all: try (intros _; rewrite shown_time by lia; split; [reflexivity | lia]).
Qed.

Lemma handleSubmit_ok (p : Browser.page) :
  page_ok p -> Browser.passwordInputEl_disabled p = false ->
  exists p', Browser.handleSubmit p = Some p' /\ page_ok p'.
Proof.
  intros Hok Hs. destruct p. page_ok_split Hok. subst.
  destruct (PL eq_refl) as [-> ->].
  specialize (GA eq_refl). destruct (RQ GA) as (-> & random & ->).
  unfold Browser.handleSubmit. page_fields. cbn [negb].
  remember (Browser.clearInterval _ _) as q eqn:E. page_eval_in E. subst q.
  page_fields.
  rewrite (cancel_own timerId timeouts TO), cancel_nil.
  rewrite (cancel_own intervalId _ (cancel_keeps timerId intervalId intervals IV)).
  destruct (js_validate_defined passwordInputEl
              (Some (JS.generateRequirements random currentRound))) as [v Hv].
  rewrite Hv. destruct v as [|reason].
  - assert (H5 : currentRound <> 5).
    { intros ->. exact (js_round_five_lost random passwordInputEl Hv). }
    remember (Browser.set_startGameButtonEl_disabled _ _) as q eqn:E.
    page_eval_in E. subst q. eexists. split; [reflexivity|].
    page_ok_done.
  - remember (Browser.set_startGameButtonEl_disabled _ _) as q eqn:E.
    page_eval_in E. subst q. eexists. split; [reflexivity|].
    page_ok_done.
Qed.

Lemma timeout_ok (id : nat) (p : Browser.page) :
  page_ok p -> existsb (Nat.eqb id) (Browser.timeouts p) = true ->
  page_ok (Browser.handleTimeout
             (Browser.set_timeouts
                (Browser.cancel (Some id) (Browser.timeouts p)) p)).
Proof.
  intros Hok Hid. destruct p. page_ok_split Hok. subst.
  destruct TO as [->|(i & -> & ->)]; [discriminate|].
  cbn [existsb] in Hid. rewrite orb_false_r in Hid.
  apply Nat.eqb_eq in Hid. subst i.
  destruct passwordInputEl_disabled; [destruct (DI eq_refl); discriminate|].
  destruct (PL eq_refl) as [-> ->]. specialize (GA eq_refl).
  destruct (RQ GA) as (-> & random & ->).
  remember (Browser.handleTimeout _) as q eqn:E. page_eval_in E. subst q.
  unfold page_ok. page_fields.
  rewrite (cancel_own (Some id) [id]) by (right; eauto).
  rewrite cancel_nil.
  rewrite (cancel_own intervalId intervals IV).
  pose proof (time_limit_bounds currentRound).
  page_ok_done.
Qed.

Lemma tick_ok (p : Browser.page) :
  page_ok p -> Browser.intervals p <> [] -> page_ok (Browser.tick p).
Proof.
  intros Hok Hiv. destruct p. page_ok_split Hok. subst.
  specialize (TI Hiv).
  unfold Browser.tick.
  remember (Browser.updateTimerDisplay _) as q eqn:E. page_eval_in E. subst q.
  page_fields. rewrite shown_time by lia.
  assert (Hto : Browser.cancel intervalId timeouts = timeouts).
  { destruct TO as [->|(i & -> & Hi)]; [apply cancel_nil|].
    apply cancel_other. intros H. exact (NE i Hi H). }
  assert (Hr : 1 <= currentRound).
  { destruct passwordInputEl_disabled;
      [destruct (DI eq_refl); contradiction|].
    destruct (PL eq_refl) as [-> _]. auto. }
  destruct (RQ Hr) as (-> & random & ->). destruct (TD Hr) as (-> & Hle).
  destruct (Z.leb_spec (timeLeft - 1) 0).
  - remember (Browser.clearInterval _ _) as q eqn:E. page_eval_in E. subst q.
    unfold page_ok. page_fields.
    rewrite Hto, (cancel_own intervalId intervals IV).
    page_ok_done.
    intros H'. split; [apply (DI H') | reflexivity].
  - page_ok_done.
Qed.

Lemma dispatch_ok (p : Browser.page) (e : Browser.event) :
  page_ok p -> exists p', Browser.dispatch p e = Some p' /\ page_ok p'.
Proof.
  intros Hok. destruct e as [random| |enter|value|id|id]; cbn [Browser.dispatch].
  - destruct (Browser.startGameButtonEl_disabled p) eqn:Hs; [eauto|].
    eexists. split; [reflexivity|]. apply start_click_ok; assumption.
  - destruct (Browser.submitButtonEl_disabled p) eqn:Hs; [eauto|].
    apply handleSubmit_ok; [exact Hok|].
    destruct Hok as (_ & _ & <- & _). exact Hs.
  - destruct (Browser.passwordInputEl_disabled p) eqn:Hs; [eauto|].
    unfold Browser.keypress.
    destruct (enter && _ && _); [|eauto]. apply handleSubmit_ok; assumption.
  - destruct (Browser.passwordInputEl_disabled p) eqn:Hs; [eauto|].
    eexists. split; [reflexivity|]. destruct p. exact Hok.
  - destruct (existsb _ _) eqn:Hid; [|eauto].
    eexists. split; [reflexivity|]. apply timeout_ok; assumption.
  - destruct (existsb _ _) eqn:Hid; [|eauto].
    eexists. split; [reflexivity|]. apply tick_ok; [assumption|].
    intros H. rewrite H in Hid. discriminate Hid.
Qed.

Lemma run_ok (events : list Browser.event) :
  forall p, page_ok p -> exists p', Browser.run events p = Some p' /\ page_ok p'.
Proof.
  induction events as [|e events IH]; intros p Hok; cbn [Browser.run]; [eauto|].
  destruct (dispatch_ok p e Hok) as (p1 & -> & Hok1). apply IH, Hok1.
Qed.

Lemma reachable_ok (html : Browser.page) (events : list Browser.event)
      (p : Browser.page) :
  Browser.run events (Browser.load html) = Some p -> page_ok p.
Proof.
  intros H. destruct (run_ok events _ (load_ok html)) as (p' & E & Hok).
  congruence.
Qed.

(** X11.  Whatever the player does and whenever the timers fire, no
    handler of the page faults, the round shown is the round played, and it
    never exceeds 5: the button that leads to the next round is never
    offered after round 5. *)
Theorem browser_game_never_passes_round_five
        (html : Browser.page) (events : list Browser.event) :
  exists p,
    Browser.run events (Browser.load html) = Some p
    /\ 0 <= Browser.currentRound p <= 5
    /\ Browser.roundNumberEl p = Browser.currentRound p
    /\ (Browser.startGameButtonEl p = Browser.StartNextRound ->
        1 <= Browser.currentRound p <= 4).
Proof.
  destruct (run_ok events _ (load_ok html)) as (p & E & Hok).
  exists p. split; [exact E|]. page_ok_split Hok. auto.
Qed.

Lemma browser_game_never_passes_round_five_witness :
  exists p,
    Browser.run [Browser.ClickStart 0; Browser.Edit (codes (winning_password 1));
                 Browser.ClickSubmit; Browser.ClickStart 0]
                (Browser.load blank_page)
    = Some p
    /\ 0 <= Browser.currentRound p <= 5.
Proof.
  destruct (browser_game_never_passes_round_five blank_page
              [Browser.ClickStart 0; Browser.Edit (codes (winning_password 1));
               Browser.ClickSubmit; Browser.ClickStart 0])
    as (p & E & R & _).
  exists p. split; [exact E | exact R].
Defined.

(** X12.  The controls and the timers of the page: at any time either a
    round is in progress (password field and submit button enabled, start
    button disabled) or none is (the reverse); at most one timeout and one
    interval are pending, and none is pending when no round is in
    progress, so that no timeout can end a round whose password has been
    submitted. *)
Theorem no_timer_outside_a_round
        (html : Browser.page) (events : list Browser.event) (p : Browser.page) :
  Browser.run events (Browser.load html) = Some p ->
  Browser.submitButtonEl_disabled p = Browser.passwordInputEl_disabled p
  /\ Browser.startGameButtonEl_disabled p
     = negb (Browser.passwordInputEl_disabled p)
  /\ (length (Browser.timeouts p) <= 1)%nat
  /\ (length (Browser.intervals p) <= 1)%nat
  /\ (Browser.passwordInputEl_disabled p = true ->
      Browser.timeouts p = [] /\ Browser.intervals p = [])
  /\ (Browser.passwordInputEl_disabled p = false ->
      Browser.gameActive p = true /\ 1 <= Browser.currentRound p).
Proof.
  intros H. pose proof (reachable_ok html events p H) as Hok.
  page_ok_split Hok.
  split; [exact SD|]. split; [exact ST|].
  split; [destruct TO as [->|(i & -> & _)]; cbn [length]; lia|].
  split; [destruct IV as [->|(i & -> & _)]; cbn [length]; lia|].
  split; [exact DI|].
  intros Hd. destruct (PL Hd) as [Hg _]. auto.
Qed.

Lemma no_timer_outside_a_round_witness :
  (length (Browser.timeouts
             (Browser.start_click 0 (Browser.load blank_page))) <= 1)%nat.
Proof.
  assert (Hrun : Browser.run [Browser.ClickStart 0] (Browser.load blank_page)
                 = Some (Browser.start_click 0 (Browser.load blank_page)))
    by (vm_compute; reflexivity).
  exact (proj1 (proj2 (proj2
           (no_timer_outside_a_round blank_page [Browser.ClickStart 0]
              (Browser.start_click 0 (Browser.load blank_page)) Hrun)))).
Defined.

Lemma submit_effect (p : Browser.page) :
  page_ok p ->
  Browser.passwordInputEl_disabled p = false ->
  exists reqs p',
    Browser.currentRequirements p = Some reqs
    /\ Browser.dispatch p Browser.ClickSubmit = Some p'
    /\ Browser.dispatch p (Browser.Keypress true) = Some p'
    /\ Browser.currentRound p' = Browser.currentRound p
    /\ Browser.passwordInputEl_disabled p' = true
    /\ Browser.startGameButtonEl_disabled p' = false
    /\ Browser.timeouts p' = [] /\ Browser.intervals p' = []
    /\ ((js_meets (Browser.passwordInputEl p) reqs
         /\ Browser.feedbackMessageEl p'
            = Browser.RoundComplete (Browser.currentRound p)
         /\ Browser.feedbackMessageEl_class p' = Browser.success_message
         /\ Browser.startGameButtonEl p' = Browser.StartNextRound)
        \/ (exists reason,
              JS.validatePassword (Browser.passwordInputEl p) reqs
              = Some (Invalid reason)
              /\ Browser.feedbackMessageEl p' = Browser.Rejected reason
              /\ Browser.feedbackMessageEl_class p' = Browser.error_message
              /\ Browser.startGameButtonEl p' = Browser.PlayAgain
              /\ Browser.gameActive p' = false)).
Proof.
  intros Hok Hs.
  destruct p. page_ok_split Hok. subst.
  destruct (PL eq_refl) as [-> ->].
  specialize (GA eq_refl). destruct (RQ GA) as (-> & random & ->).
  exists (JS.generateRequirements random currentRound).
  unfold Browser.dispatch, Browser.keypress. page_fields. cbn [andb negb].
  unfold Browser.handleSubmit. page_fields. cbn [negb].
  remember (Browser.clearInterval _ _) as q eqn:E. page_eval_in E. subst q.
  page_fields.
  rewrite (cancel_own timerId timeouts TO), cancel_nil.
  rewrite (cancel_own intervalId _ (cancel_keeps timerId intervalId intervals IV)).
  destruct (js_validate_defined passwordInputEl
              (Some (JS.generateRequirements random currentRound))) as [v Hv].
  rewrite Hv. cbn [Browser.validate] in Hv. destruct v as [|reason].
  - remember (Browser.set_startGameButtonEl_disabled _ _) as q eqn:E.
    page_eval_in E. subst q. eexists. split; [reflexivity|].
    page_fields. repeat (split; [reflexivity|]).
    left. split; [apply js_accepts_iff, Hv|]. repeat split.
  - remember (Browser.set_startGameButtonEl_disabled _ _) as q eqn:E.
    page_eval_in E. subst q. eexists. split; [reflexivity|].
    page_fields. repeat (split; [reflexivity|]).
    right. exists reason. split; [exact Hv|]. repeat split.
Qed.


(** X13.  Submitting decides the round: in a round in progress, a click on
    the submit button and the Enter key do the same; they cancel both
    timers and disable the password field; the round is complete, with the
    offer of the next round, exactly when the password in the field meets
    the requirements of the round, and otherwise the game is over with the
    reason of the validator as the message. *)
Theorem submit_decides_the_round
        (html : Browser.page) (events : list Browser.event) (p : Browser.page) :
  Browser.run events (Browser.load html) = Some p ->
  Browser.passwordInputEl_disabled p = false ->
  exists reqs p',
    Browser.currentRequirements p = Some reqs
    /\ Browser.dispatch p Browser.ClickSubmit = Some p'
    /\ Browser.dispatch p (Browser.Keypress true) = Some p'
    /\ Browser.currentRound p' = Browser.currentRound p
    /\ Browser.passwordInputEl_disabled p' = true
    /\ Browser.startGameButtonEl_disabled p' = false
    /\ Browser.timeouts p' = [] /\ Browser.intervals p' = []
    /\ ((js_meets (Browser.passwordInputEl p) reqs
         /\ Browser.feedbackMessageEl p'
            = Browser.RoundComplete (Browser.currentRound p)
         /\ Browser.feedbackMessageEl_class p' = Browser.success_message
         /\ Browser.startGameButtonEl p' = Browser.StartNextRound)
        \/ (exists reason,
              JS.validatePassword (Browser.passwordInputEl p) reqs
              = Some (Invalid reason)
              /\ Browser.feedbackMessageEl p' = Browser.Rejected reason
              /\ Browser.feedbackMessageEl_class p' = Browser.error_message
              /\ Browser.startGameButtonEl p' = Browser.PlayAgain
              /\ Browser.gameActive p' = false)).
Proof.
  intros H. apply submit_effect. exact (reachable_ok html events p H).
Qed.

Lemma submit_decides_the_round_witness :
  exists reqs,
    Browser.currentRequirements
      (Browser.start_click 0 (Browser.load blank_page)) = Some reqs.
Proof.
  destruct (submit_decides_the_round blank_page [Browser.ClickStart 0]
              (Browser.start_click 0 (Browser.load blank_page))
              eq_refl eq_refl) as (reqs & p' & H & _).
  exists reqs. exact H.
Defined.

(** X14.  The start button, when it is enabled: it starts the round after
    the current one if it offers the next round, and round 1 otherwise
    (first game, or after a lost game).  The new round has the requirements
    generated for its number, the time limit of its number, a full
    countdown, an empty and enabled password field, an empty feedback line,
    and exactly one timeout and one interval pending. *)
Theorem start_button_starts_the_round
        (html : Browser.page) (events : list Browser.event) (p : Browser.page)
        (random : Q) :
  Browser.run events (Browser.load html) = Some p ->
  Browser.startGameButtonEl_disabled p = false ->
  exists p',
    Browser.dispatch p (Browser.ClickStart random) = Some p'
    /\ Browser.currentRound p'
       = match Browser.startGameButtonEl p with
         | Browser.StartNextRound => Browser.currentRound p + 1
         | _ => 1
         end
    /\ Browser.currentRequirements p'
       = Some (JS.generateRequirements random (Browser.currentRound p'))
    /\ Browser.requirementsListEl p'
       = Browser.requirement_items (Browser.currentRequirements p')
                                   (Browser.currentRound p')
    /\ Browser.currentTimeLimit p' = time_limit_of_round (Browser.currentRound p')
    /\ Browser.timeLeft p' = Browser.currentTimeLimit p'
    /\ Browser.timerDisplayEl p' = Some (Browser.currentTimeLimit p')
    /\ Browser.passwordInputEl p' = []
    /\ Browser.passwordInputEl_disabled p' = false
    /\ Browser.startGameButtonEl_disabled p' = true
    /\ Browser.feedbackMessageEl p' = Browser.NoMessage
    /\ length (Browser.timeouts p') = 1%nat
    /\ length (Browser.intervals p') = 1%nat.
Proof.
  intros H Hs. pose proof (reachable_ok html events p H) as Hok.
  destruct p. page_ok_split Hok. subst.
  destruct passwordInputEl_disabled; [|discriminate].
  destruct (DI eq_refl) as [-> ->].
  unfold Browser.dispatch, Browser.start_click. page_fields. cbn [negb].
  eexists. split; [reflexivity|].
  destruct startGameButtonEl;
    remember (Browser.startRound _ _) as q eqn:E; page_eval_in E; subst q;
    page_fields; rewrite !cancel_nil;
    repeat (split; [try reflexivity|]); try reflexivity;
    rewrite shown_time; try reflexivity;
    unfold Browser.MIN_TIME; lia.
Qed.

Lemma start_button_starts_the_round_witness :
  exists p',
    Browser.dispatch (Browser.load blank_page) (Browser.ClickStart 0) = Some p'
    /\ Browser.currentRound p' = 1.
Proof.
  destruct (start_button_starts_the_round blank_page [] (Browser.load blank_page)
              0 eq_refl eq_refl) as (p' & E & R & _).
  exists p'. split; [exact E | exact R].
Defined.

(** X15.  A timeout that is pending and fires ends the game: the game is
    inactive, the password field and the submit button are disabled, the
    countdown shows 0, the message is the time-up message of the round, no
    timer is left, and the start button offers a new game, which begins
    with round 1. *)
Theorem timeout_ends_the_game
        (html : Browser.page) (events : list Browser.event) (p : Browser.page)
        (id : nat) (random : Q) :
  Browser.run events (Browser.load html) = Some p ->
  In id (Browser.timeouts p) ->
  exists p' p'',
    Browser.dispatch p (Browser.TimeoutFires id) = Some p'
    /\ Browser.gameActive p' = false
    /\ Browser.currentRound p' = Browser.currentRound p
    /\ Browser.passwordInputEl_disabled p' = true
    /\ Browser.submitButtonEl_disabled p' = true
    /\ Browser.timeLeft p' = 0
    /\ Browser.timerDisplayEl p' = Some 0
    /\ Browser.feedbackMessageEl p' = Browser.TimesUp (Browser.currentRound p)
    /\ Browser.feedbackMessageEl_class p' = Browser.error_message
    /\ Browser.timeouts p' = [] /\ Browser.intervals p' = []
    /\ Browser.startGameButtonEl p' = Browser.PlayAgain
    /\ Browser.startGameButtonEl_disabled p' = false
    /\ Browser.dispatch p' (Browser.ClickStart random) = Some p''
    /\ Browser.currentRound p'' = 1.
Proof.
  intros H Hid. pose proof (reachable_ok html events p H) as Hok.
  destruct p. page_ok_split Hok. subst.
  destruct TO as [->|(i & -> & ->)]; [destruct Hid|].
  destruct Hid as [->|[]].
  unfold Browser.dispatch at 1. page_fields. cbn [existsb].
  rewrite Nat.eqb_refl. cbn [orb].
  remember (Browser.handleTimeout _) as q eqn:E. page_eval_in E. subst q.
  rewrite (cancel_own (Some id) [id]) by (right; eauto).
  rewrite cancel_nil, (cancel_own intervalId intervals IV).
  eexists. eexists. split; [reflexivity|]. page_fields.
  repeat (split; [reflexivity|]).
  unfold Browser.start_click. page_fields.
  remember (Browser.startRound _ _) as q eqn:E. page_eval_in E. subst q.
  reflexivity.
Qed.

Lemma timeout_ends_the_game_witness :
  exists p',
    Browser.dispatch (Browser.start_click 0 (Browser.load blank_page))
                     (Browser.TimeoutFires 2) = Some p'
    /\ Browser.gameActive p' = false.
Proof.
  assert (Hrun : Browser.run [Browser.ClickStart 0] (Browser.load blank_page)
                 = Some (Browser.start_click 0 (Browser.load blank_page)))
    by (vm_compute; reflexivity).
  assert (Hid : In 2%nat (Browser.timeouts
                            (Browser.start_click 0 (Browser.load blank_page))))
    by (vm_compute; left; reflexivity).
  destruct (timeout_ends_the_game blank_page [Browser.ClickStart 0]
              (Browser.start_click 0 (Browser.load blank_page)) 2%nat 0
              Hrun Hid) as (p' & p'' & E & G & _).
  exists p'. split; [exact E | exact G].
Defined.

(** * What is displayed and what is checked *)

Lemma Forall_one {A} (P : A -> Prop) (x : A) : Forall P [x] <-> P x.
Proof.
  split; [intros H; inversion H; assumption | intros H; constructor; auto].
Qed.

Lemma Forall_when {A} (P : A -> Prop) (c : bool) (l : list A) :
  Forall P (if c then l else []) <-> (c = true -> Forall P l).
Proof.
  destruct c; split; auto; intros; try constructor; discriminate.
Qed.

Lemma c_display_meets (s : list ascii) (q : C.PasswordRequirements) (t : Z) :
  (c_meets s q -> Forall (c_line_holds s) (Terminal.display_requirements q t))
  /\ ((C.req_digit_sum q <> 0 -> C.min_digits q = 0 -> C.digit_sum_target q = 0) ->
      Forall (c_line_holds s) (Terminal.display_requirements q t) ->
      c_meets s q).
Proof.
  unfold Terminal.display_requirements, c_meets.
  rewrite !Forall_app, !Forall_when, !Forall_one, !Forall_cons_iff.
  cbn [c_line_holds].
  rewrite !negb_true_iff, !Z.eqb_neq, !Z.gtb_ltb, !Z.ltb_lt.
  split.
  - intros (H1 & H2 & H3 & H4 & H5 & H6 & H7 & H8 & H9).
    repeat match goal with |- _ /\ _ => split end; auto.
    + intros F. destruct (H6 F) as (a & r & E & U & P).
      split; [eauto|]. split; [eauto | constructor].
    + intros F. apply (H9 F).
  - intros Hd (_ & _ & H1 & H2 & H3 & H4 & H5 & _ & H6 & H7 & H8 & H9 & _).
    split; [exact H1|].
    split; [destruct (Z.lt_ge_cases 0 (C.min_uppercase q)); [auto | lia]|].
    split; [destruct (Z.lt_ge_cases 0 (C.min_lowercase q)); [auto | lia]|].
    split; [destruct (Z.lt_ge_cases 0 (C.min_digits q)); [auto | lia]|].
    split; [destruct (Z.lt_ge_cases 0 (C.min_symbols q)); [auto | lia]|].
    split.
    { intros F. destruct (H6 F) as ((a & r & E & U) & (a' & r' & E' & P) & _).
      exists a, r. split; [exact E|]. split; [exact U|].
      rewrite E in E'. injection E' as <- <-. exact P. }
    split; [exact H7|]. split; [exact H8|].
    intros F. split; [exact (H9 F)|]. intros Z0. apply Hd; assumption.
Qed.

(** The items of the requirements list, in the order of the list. *)
Lemma requirement_items_eq (reqs : Requirements) (round : Z) :
  Browser.requirement_items (Some reqs) round
  = (if reqStartUpperEndSymbol reqs || reqNoConsecutiveChars reqs
        || reqPalindrome reqs || reqDigitSum reqs
     then [Browser.SpecialRulesTitle] else [])
    ++ [Browser.MinimumLength (Some (minLength reqs))]
    ++ (if minUppercase reqs >? 0
        then [Browser.MinimumUppercase (Some (minUppercase reqs))] else [])
    ++ (if minLowercase reqs >? 0
        then [Browser.MinimumLowercase (Some (minLowercase reqs))] else [])
    ++ (if minDigits reqs >? 0
        then [Browser.MinimumDigits (Some (minDigits reqs))] else [])
    ++ (if minSymbols reqs >? 0
        then [Browser.MinimumSymbols (Some (minSymbols reqs))] else [])
    ++ (if reqStartUpperEndSymbol reqs
        then [Browser.StartUpperEndSymbol] else [])
    ++ (if reqNoConsecutiveChars reqs then [Browser.NoConsecutive] else [])
    ++ (if reqPalindrome reqs then [Browser.Palindrome] else [])
    ++ (if reqDigitSum reqs
        then [Browser.DigitSum (Some (digitSumTarget reqs))] else [])
    ++ (if negb (reqStartUpperEndSymbol reqs || reqNoConsecutiveChars reqs
                 || reqPalindrome reqs || reqDigitSum reqs)
           && (round >? 0)
        then [Browser.NoSpecialRules]
        else if round =? 0 then [Browser.ClickStartGame] else []).
Proof.
  unfold Browser.requirement_items, Browser.field, Browser.positive,
    Browser.truthy, Browser.addItem.
  cbn [option_map].
  destruct (minUppercase reqs >? 0), (minLowercase reqs >? 0),
    (minDigits reqs >? 0), (minSymbols reqs >? 0),
    (reqStartUpperEndSymbol reqs), (reqNoConsecutiveChars reqs),
    (reqPalindrome reqs), (reqDigitSum reqs);
    cbn [orb negb andb app];
    destruct (round >? 0), (round =? 0); reflexivity.
Qed.

Lemma js_display_meets (s : list N) (q : Requirements) (round : Z) :
  (js_meets s q ->
   Forall (js_item_holds s) (Browser.requirement_items (Some q) round))
  /\ ((reqDigitSum q = true -> minDigits q = 0 -> digitSumTarget q = 0) ->
      Forall (js_item_holds s) (Browser.requirement_items (Some q) round) ->
      js_meets s q).
Proof.
  rewrite requirement_items_eq. unfold js_meets.
  rewrite !Forall_app, !Forall_when, !Forall_one.
  cbn [js_item_holds at_least].
  rewrite !Z.gtb_ltb, !Z.ltb_lt.
  split.
  - intros (H1 & H2 & H3 & H4 & H5 & H6 & H7 & H8 & H9).
    repeat match goal with |- _ /\ _ => split end; auto.
    + intros F. apply (H9 F).
    + destruct (_ && _); [|destruct (round =? 0)]; repeat constructor.
  - intros Hd (_ & H1 & H2 & H3 & H4 & H5 & H6 & H7 & H8 & H9 & _).
    split; [exact H1|].
    split; [destruct (Z.lt_ge_cases 0 (minUppercase q)); [auto | lia]|].
    split; [destruct (Z.lt_ge_cases 0 (minLowercase q)); [auto | lia]|].
    split; [destruct (Z.lt_ge_cases 0 (minDigits q)); [auto | lia]|].
    split; [destruct (Z.lt_ge_cases 0 (minSymbols q)); [auto | lia]|].
    split; [exact H6|]. split; [exact H7|]. split; [exact H8|].
    intros F. split; [exact (H9 F)|]. intros Z0. apply Hd; assumption.
Qed.

(** The digit sum rule of generated requirements comes with a minimum of
    digits. *)
Lemma c_generated_digit_rule (rnd r : Z) (q : C.PasswordRequirements) :
  1 <= r -> C.generate_requirements rnd r = Some q ->
  C.req_digit_sum q <> 0 -> C.min_digits q = 0 -> C.digit_sum_target q = 0.
Proof.
  intros Hr Hq _ H0. exfalso.
  pose proof (c_generate_closed rnd r q Hr Hq) as E.
  apply (f_equal minDigits) in E. unfold round_requirements in E.
  cbn [C.requirements_of minDigits] in E.
  rewrite H0 in E. pose proof (Z.div_pos r 3). lia.
Qed.

Lemma js_generated_digit_rule (random : Q) (r : Z) :
  1 <= r ->
  reqDigitSum (JS.generateRequirements random r) = true ->
  minDigits (JS.generateRequirements random r) = 0 ->
  digitSumTarget (JS.generateRequirements random r) = 0.
Proof.
  intros Hr _. rewrite js_generate_closed by exact Hr.
  unfold round_requirements. cbn [minDigits]. intros H0.
  pose proof (Z.div_pos r 3). lia.
Qed.

(** X16.  The terminal front-end displays what it checks: a password
    that the validator accepts satisfies every line that
    [display_requirements] prints, and for requirements whose digit sum
    rule comes with a minimum of digits, as all generated requirements do,
    a password that satisfies every printed line is accepted.  A minimum
    that is not printed (0 or less) cannot fail. *)
Theorem terminal_displays_what_it_checks :
  (forall pw q t,
     C.validate_password pw q = Some Valid ->
     Forall (c_line_holds (C.chars pw)) (Terminal.display_requirements q t))
  /\ (forall pw q t,
        (C.req_digit_sum q <> 0 -> C.min_digits q = 0 ->
         C.digit_sum_target q = 0) ->
        Forall (c_line_holds (C.chars pw)) (Terminal.display_requirements q t) ->
        C.validate_password pw q = Some Valid)
  /\ (forall rnd r q pw t,
        1 <= r -> C.generate_requirements rnd r = Some q ->
        (C.validate_password pw q = Some Valid
         <-> Forall (c_line_holds (C.chars pw))
                    (Terminal.display_requirements q t))).
Proof.
  pose proof c_accepts_iff as A.
  split; [|split].
  - intros pw q t H. apply c_display_meets, A, H.
  - intros pw q t Hd H. apply A. apply (c_display_meets _ q t); assumption.
  - intros rnd r q pw t Hr Hq. rewrite A. split.
    + apply c_display_meets.
    + apply c_display_meets. apply (c_generated_digit_rule rnd r q Hr Hq).
Qed.

Lemma terminal_displays_what_it_checks_witness :
  Forall (c_line_holds (winning_password 1))
         (Terminal.display_requirements c_round1 60).
Proof.
  assert (H : C.validate_password (winning_password 1) c_round1 = Some Valid)
    by (vm_compute; reflexivity).
  exact (proj1 terminal_displays_what_it_checks
               (winning_password 1) c_round1 60 H).
Defined.

(** X17.  The browser front-end displays what it checks: in a round in
    progress, submitting completes the round exactly when the password in
    the field satisfies every item of the requirements list on the page. *)
Theorem browser_displays_what_it_checks
        (html : Browser.page) (events : list Browser.event) (p : Browser.page) :
  Browser.run events (Browser.load html) = Some p ->
  Browser.passwordInputEl_disabled p = false ->
  exists p',
    Browser.dispatch p Browser.ClickSubmit = Some p'
    /\ (Browser.startGameButtonEl p' = Browser.StartNextRound
        <-> Forall (js_item_holds (Browser.passwordInputEl p))
                   (Browser.requirementsListEl p)).
Proof.
  intros H Hs. pose proof (reachable_ok html events p H) as Hok.
  destruct (submit_effect p Hok Hs) as (reqs & p' & Hq & E & _ & _ & _ & _ & _ & _ & D).
  exists p'. split; [exact E|].
  page_ok_split Hok. destruct (PL Hs) as [Hg _]. specialize (GA Hg).
  destruct (RQ GA) as (_ & random & Hq'). rewrite LI, Hq.
  assert (Hreqs : reqs = JS.generateRequirements random (Browser.currentRound p))
    by congruence.
  split.
  - intros L. apply js_display_meets.
    destruct D as [(M & _)|(reason & _ & _ & _ & L' & _)]; [exact M|congruence].
  - intros F.
    assert (M : js_meets (Browser.passwordInputEl p) reqs).
    { apply (js_display_meets _ reqs (Browser.currentRound p)); [|exact F].
      rewrite Hreqs. apply js_generated_digit_rule. exact GA. }
    destruct D as [(_ & _ & _ & L)|(reason & V & _)]; [exact L|].
    apply js_accepts_iff in M. congruence.
Qed.

Lemma browser_displays_what_it_checks_witness :
  exists p',
    Browser.dispatch (Browser.start_click 0 (Browser.load blank_page))
                     Browser.ClickSubmit = Some p'.
Proof.
  assert (Hrun : Browser.run [Browser.ClickStart 0] (Browser.load blank_page)
                 = Some (Browser.start_click 0 (Browser.load blank_page)))
    by (vm_compute; reflexivity).
  assert (Hs : Browser.passwordInputEl_disabled
                 (Browser.start_click 0 (Browser.load blank_page)) = false)
    by (vm_compute; reflexivity).
  destruct (browser_displays_what_it_checks blank_page [Browser.ClickStart 0]
              (Browser.start_click 0 (Browser.load blank_page)) Hrun Hs)
    as (p' & E & _).
  exists p'. exact E.
Defined.

(** X18.  The layout of the requirements list: when a special rule is on,
    the title of the special rules is the first item, above the minimum
    length; when none is on and a round has started, the list begins with
    the minimum length and ends with the item that says so.  On the page
    as loaded the list reads "Minimum Length: undefined", "Click Start
    Game!". *)
Theorem special_rules_title_comes_first :
  (forall reqs round,
     reqStartUpperEndSymbol reqs || reqNoConsecutiveChars reqs
     || reqPalindrome reqs || reqDigitSum reqs = true ->
     exists rest,
       Browser.requirement_items (Some reqs) round
       = Browser.SpecialRulesTitle
           :: Browser.MinimumLength (Some (minLength reqs)) :: rest
       /\ ~ In Browser.SpecialRulesTitle rest
       /\ ~ In Browser.NoSpecialRules rest)
  /\ (forall reqs round,
        reqStartUpperEndSymbol reqs || reqNoConsecutiveChars reqs
        || reqPalindrome reqs || reqDigitSum reqs = false ->
        0 < round ->
        exists middle,
          Browser.requirement_items (Some reqs) round
          = Browser.MinimumLength (Some (minLength reqs))
              :: middle ++ [Browser.NoSpecialRules]
          /\ ~ In Browser.SpecialRulesTitle middle)
  /\ (forall html,
        Browser.requirementsListEl (Browser.load html)
        = [Browser.MinimumLength None; Browser.ClickStartGame]).
Proof.
  split; [|split].
  - intros reqs round H. rewrite requirement_items_eq, H. cbn [negb andb app].
    eexists. split; [reflexivity|].
    split; intros F;
      repeat (apply in_app_or in F; destruct F as [F|F]);
      repeat match type of F with
             | In _ (if ?c then _ else _) => destruct c
             | In _ (_ :: _) => destruct F as [F|F]; [discriminate F|]
             | In _ [] => destruct F
             end.
  - intros reqs round H Hr. rewrite requirement_items_eq, H.
    apply orb_false_iff in H. destruct H as [H H4].
    apply orb_false_iff in H. destruct H as [H H3].
    apply orb_false_iff in H. destruct H as [H1 H2].
    rewrite H1, H2, H3, H4. cbn [negb andb app].
    destruct (Z.gtb_spec round 0); [|lia].
    eexists. split.
    + cbn [app]. f_equal. rewrite !app_assoc. reflexivity.
    + intros F.
      repeat (apply in_app_or in F; destruct F as [F|F]);
      repeat match type of F with
             | In _ (if ?c then _ else _) => destruct c
             | In _ (_ :: _) => destruct F as [F|F]; [discriminate F|]
             | In _ [] => destruct F
             end.
  - intros html. destruct html. reflexivity.
Qed.

Lemma special_rules_title_comes_first_witness :
  exists rest,
    Browser.requirement_items (Some (JS.generateRequirements 0 3)) 3
    = Browser.SpecialRulesTitle :: Browser.MinimumLength (Some 10) :: rest.
Proof.
  destruct (proj1 special_rules_title_comes_first
                  (JS.generateRequirements 0 3) 3 eq_refl) as (rest & E & _).
  exists rest. exact E.
Defined.

(** * Time limits *)

Lemma play_round_limit (ECHO : Z) (rand : nat -> Z) (late_alarm : Z -> bool)
      (g g' : Terminal.game) :
  Terminal.play_round ECHO rand late_alarm g = Some g' ->
  1 <= Terminal.round g ->
  Terminal.current_time_limit g = time_limit_of_round (Terminal.round g) ->
  1 <= Terminal.round g'
  /\ Terminal.current_time_limit g' = time_limit_of_round (Terminal.round g').
Proof.
  unfold Terminal.play_round. intros H Hr Ht.
  destruct (C.generate_requirements _ _) as [q|]; [|discriminate].
  destruct (Terminal.get_hidden_input _ _ _ _ _ _) as [o|]; [|discriminate].
  destruct (if late_alarm (Terminal.round g) then _ else _).
  { injection H as <-. cbn [Terminal.round Terminal.current_time_limit]. auto. }
  destruct (Terminal.result o <=? 0).
  { injection H as <-. cbn [Terminal.round Terminal.current_time_limit]. auto. }
  destruct (C.validate_password _ _) as [[|f]|]; [| |discriminate];
    [|injection H as <-; cbn [Terminal.round Terminal.current_time_limit]; auto].
  apply round_step_Some in H. injection H as <-.
  cbn [Terminal.round Terminal.current_time_limit].
  split; [lia|]. rewrite Ht.
  unfold time_limit_of_round, Terminal.MIN_TIME, Terminal.INITIAL_TIME,
    Terminal.TIME_DECREMENT.
  destruct (Z.gtb_spec (Z.max 10 (60 - (Terminal.round g - 1) * 5) - 5) 10); lia.
Qed.

Lemma game_loop_limit (ECHO : Z) (rand : nat -> Z) (late_alarm : Z -> bool) :
  forall (n : nat) (g g' : Terminal.game),
    Terminal.game_loop ECHO rand late_alarm n g = Some g' ->
    1 <= Terminal.round g ->
    Terminal.current_time_limit g = time_limit_of_round (Terminal.round g) ->
    1 <= Terminal.round g'
    /\ Terminal.current_time_limit g' = time_limit_of_round (Terminal.round g').
Proof.
  induction n as [|n IH]; intros g g' H Hr Ht; cbn [Terminal.game_loop] in H.
  - destruct (Terminal.successful_round g); [discriminate|].
    injection H as <-. auto.
  - destruct (Terminal.successful_round g); [|injection H as <-; auto].
    destruct (Terminal.play_round ECHO rand late_alarm g) as [g1|] eqn:E;
      [|discriminate].
    destruct (play_round_limit ECHO rand late_alarm g g1 E Hr Ht) as [Hr1 Ht1].
    exact (IH g1 g' H Hr1 Ht1).
Qed.

(** X19.  Both front-ends give the same time for the same round: the limit
    that the loop of [main] keeps by subtracting 5 seconds after each
    success, down to 10, is the one [startRound] computes from the number
    of the round.  Whenever the terminal game is over in a round and the
    page is in the same round, their time limits are equal. *)
Theorem same_time_limit_in_both_front_ends
        (ECHO : Z) (rand : nat -> Z) (late_alarm : Z -> bool) (n : nat)
        (password_buffer : list ascii)
        (c_lflag : Z) (stdin : list Terminal.read_result) (g : Terminal.game)
        (html : Browser.page) (events : list Browser.event) (p : Browser.page) :
  Terminal.game_loop ECHO rand late_alarm n
    (Terminal.start password_buffer c_lflag stdin)
  = Some g ->
  Browser.run events (Browser.load html) = Some p ->
  Browser.currentRound p = Terminal.round g ->
  Browser.currentTimeLimit p = Terminal.current_time_limit g
  /\ Terminal.current_time_limit g
     = Z.max 10 (60 - 5 * (Terminal.round g - 1)).
Proof.
  intros Hg Hp Hr.
  destruct (game_loop_limit ECHO rand late_alarm n _ g Hg) as [Hr1 Ht];
    [cbn; lia | reflexivity|].
  pose proof (reachable_ok html events p Hp) as Hok. page_ok_split Hok.
  destruct RQ as [-> _]; [lia|]. rewrite Ht, Hr.
  split; [reflexivity|].
  unfold time_limit_of_round, Terminal.MIN_TIME, Terminal.INITIAL_TIME,
    Terminal.TIME_DECREMENT. lia.
Qed.

Lemma same_time_limit_in_both_front_ends_witness :
  Browser.currentTimeLimit (Browser.start_click 0 (Browser.load blank_page)) = 60.
Proof.
  assert (Hg : Terminal.game_loop 8 (fun _ => 0) (fun _ => false) 1
                 (Terminal.start (repeat zero 100) 0 [Terminal.Byte "010"])
               = Some {| Terminal.round := 1;
                         Terminal.current_time_limit := 60;
                         Terminal.successful_round := false;
                         Terminal.timed_out := false;
                         Terminal.password_buffer := repeat zero 100;
                         Terminal.c_lflag := 8;
                         Terminal.stdin := [];
                         Terminal.rand_calls := 0 |})
    by (vm_compute; reflexivity).
  assert (Hp : Browser.run [Browser.ClickStart 0] (Browser.load blank_page)
               = Some (Browser.start_click 0 (Browser.load blank_page)))
    by (vm_compute; reflexivity).
  assert (Hr : Browser.currentRound
                 (Browser.start_click 0 (Browser.load blank_page)) = 1)
    by (vm_compute; reflexivity).
  exact (proj1 (same_time_limit_in_both_front_ends _ _ _ _ _ _ _ _ _ _ _
                  Hg Hp Hr)).
Defined.

(** X20.  The countdown of the page: once a round has started the timer
    shows the time left, which is never negative and never above the time
    limit of the round, and it is highlighted exactly during the last five
    seconds; the interval that counts down is pending only while at least
    one second is left, so the countdown stops at 0; the time limit lies
    between 40 and 60 seconds. *)
Theorem countdown_stops_at_zero
        (html : Browser.page) (events : list Browser.event) (p : Browser.page) :
  Browser.run events (Browser.load html) = Some p ->
  0 <= Browser.timeLeft p
  /\ (Browser.intervals p <> [] -> 1 <= Browser.timeLeft p)
  /\ (Browser.currentRound p = 0 -> Browser.timerDisplayEl p = None)
  /\ (1 <= Browser.currentRound p ->
      Browser.timerDisplayEl p = Some (Browser.timeLeft p)
      /\ Browser.timeLeft p <= Browser.currentTimeLimit p
      /\ 40 <= Browser.currentTimeLimit p <= 60
      /\ (Browser.timerDisplayEl_red p = true
          <-> 1 <= Browser.timeLeft p <= 5)).
Proof.
  intros H. pose proof (reachable_ok html events p H) as Hok.
  page_ok_split Hok.
  split; [exact TL|]. split; [exact TI|]. split; [exact T0|].
  intros Hr. destruct (TD Hr) as [D L]. destruct (RQ Hr) as [T _].
  split; [exact D|]. split; [exact L|]. split.
  - rewrite T.
    unfold time_limit_of_round, Terminal.MIN_TIME, Terminal.INITIAL_TIME,
      Terminal.TIME_DECREMENT. lia.
  - rewrite (RD Hr), andb_true_iff, Z.leb_le, Z.gtb_ltb, Z.ltb_lt. lia.
Qed.

Lemma countdown_stops_at_zero_witness :
  0 <= Browser.timeLeft (Browser.start_click 0 (Browser.load blank_page)).
Proof.
  assert (Hp : Browser.run [Browser.ClickStart 0] (Browser.load blank_page)
               = Some (Browser.start_click 0 (Browser.load blank_page)))
    by (vm_compute; reflexivity).
  exact (proj1 (countdown_stops_at_zero blank_page [Browser.ClickStart 0]
                  (Browser.start_click 0 (Browser.load blank_page)) Hp)).
Defined.

(** * Rounds of the terminal game *)

Lemma get_hidden_input_line (ECHO : Z) (buffer : list ascii) (max_len c_lflag : Z)
      (keys : list ascii) (r : Terminal.read_result)
      (rest : list Terminal.read_result) :
  max_len <= Z.of_nat (length buffer) ->
  Forall (fun key => is_enter key = false) keys ->
  ends_line r = true ->
  Z.of_nat (length keys) < max_len - 1 ->
  exists o,
    Terminal.get_hidden_input ECHO buffer max_len c_lflag false
      (map Terminal.Byte keys ++ r :: rest) = Some o
    /\ Terminal.stdin_out o = rest
    /\ length (Terminal.buffer_out o) = length buffer
    /\ match r with
       | Terminal.Alarm =>
         Terminal.result o = 0 /\ Terminal.timed_out_out o = true
       | Terminal.Failed =>
         Terminal.result o = -1 /\ Terminal.timed_out_out o = false
       | _ =>
         Terminal.result o = Z.of_nat (length (edit_line keys))
         /\ Terminal.timed_out_out o = false
         /\ C.chars (Terminal.buffer_out o) = edit_line keys
       end.
Proof.
  intros Hl Hk He Hfit. unfold Terminal.get_hidden_input.
  destruct (Z.leb_spec max_len 0) as [Hm|Hm]; [lia|].
  rewrite memset_Some by lia.
  set (b0 := repeat zero (Z.to_nat max_len) ++ skipn (Z.to_nat max_len) buffer).
  assert (Hb0 : length b0 = length buffer)
    by (unfold b0; rewrite length_app, repeat_length, length_skipn; lia).
  destruct (input_loop_keys ECHO max_len
              (Terminal.set_terminal_echo ECHO 0 c_lflag)
              (r :: rest) keys b0 0 Hk)
    as (b' & i' & E & L & R & F); try lia.
  rewrite E. cbn [Terminal.input_loop].
  destruct (Z.ltb_spec i' (max_len - 1)); [|lia].
  change (firstn (Z.to_nat 0) b0) with (@nil ascii) in F.
  fold (edit_line keys) in F.
  assert (Hi : Z.of_nat (length (edit_line keys)) = i')
    by (rewrite <- F; apply firstn_length_Z; lia).
  assert (Hc : C.chars (firstn (Z.to_nat i') b' ++ zero
                          :: skipn (S (Z.to_nat i')) b') = edit_line keys).
  { rewrite F. apply chars_app_zero. apply edit_keys_printable. constructor. }
  destruct r as [ch| | |]; cbn [ends_line] in He;
    unfold Terminal.handle_timeout; cbn match.
  - unfold is_enter in He. rewrite He. unfold Terminal.normal_exit.
    rewrite store_at_Some by lia. eexists. split; [reflexivity|].
    cbn [Terminal.result Terminal.buffer_out Terminal.timed_out_out
         Terminal.stdin_out].
    rewrite stored_length by lia. repeat split; congruence.
  - unfold Terminal.normal_exit.
    rewrite store_at_Some by lia. eexists. split; [reflexivity|].
    cbn [Terminal.result Terminal.buffer_out Terminal.timed_out_out
         Terminal.stdin_out].
    rewrite stored_length by lia. repeat split; congruence.
  - unfold Terminal.error_exit. eexists. split; [reflexivity|].
    cbn [Terminal.result Terminal.buffer_out Terminal.timed_out_out
         Terminal.stdin_out]. repeat split; congruence.
  - unfold Terminal.timeout_exit.
    rewrite store_at_Some by lia. eexists. split; [reflexivity|].
    cbn [Terminal.result Terminal.buffer_out Terminal.timed_out_out
         Terminal.stdin_out].
    rewrite stored_length by lia. repeat split; congruence.
Qed.

Lemma play_round_line (ECHO : Z) (rand : nat -> Z) (late_alarm : Z -> bool)
      (g : Terminal.game) (keys : list ascii) (r : Terminal.read_result)
      (rest : list Terminal.read_result) (q : C.PasswordRequirements) :
  C.generate_requirements (rand (Terminal.rand_calls g)) (Terminal.round g)
  = Some q ->
  CInt.INT_MIN <= Terminal.round g < CInt.INT_MAX ->
  CInt.INT_MIN + 5 <= Terminal.current_time_limit g <= CInt.INT_MAX ->
  Terminal.MAX_PASSWORD_LEN <= Z.of_nat (length (Terminal.password_buffer g)) ->
  Forall (fun key => is_enter key = false) keys ->
  ends_line r = true ->
  Z.of_nat (length keys) < Terminal.MAX_PASSWORD_LEN - 1 ->
  Terminal.stdin g = map Terminal.Byte keys ++ r :: rest ->
  exists g',
    Terminal.play_round ECHO rand late_alarm g = Some g'
    /\ Terminal.stdin g' = rest
    /\ length (Terminal.password_buffer g')
       = length (Terminal.password_buffer g)
    /\ if late_alarm (Terminal.round g) || is_alarm r then
         Terminal.successful_round g' = false /\ Terminal.timed_out g' = true
         /\ Terminal.round g' = Terminal.round g
       else
         Terminal.timed_out g' = false
         /\ match r with
            | Terminal.Failed =>
              Terminal.successful_round g' = false
              /\ Terminal.round g' = Terminal.round g
            | _ =>
              (edit_line keys <> [] /\ c_meets (edit_line keys) q
               /\ Terminal.successful_round g' = true
               /\ Terminal.round g' = Terminal.round g + 1
               /\ Terminal.current_time_limit g'
                  = Z.max Terminal.MIN_TIME
                          (Terminal.current_time_limit g
                           - Terminal.TIME_DECREMENT))
              \/ ((edit_line keys = [] \/ ~ c_meets (edit_line keys) q)
                  /\ Terminal.successful_round g' = false
                  /\ Terminal.round g' = Terminal.round g)
            end.
Proof.
  intros Hq Hrd Hlim Hl Hk He Hfit Hin.
  destruct (get_hidden_input_line ECHO (Terminal.password_buffer g)
              Terminal.MAX_PASSWORD_LEN (Terminal.c_lflag g) keys r rest
              Hl Hk He Hfit) as (o & Ho & Hs & Hb & Hr).
  rewrite <- Hin in Ho.
  destruct (late_alarm (Terminal.round g)) eqn:Hlate; cbn [orb].
  { unfold Terminal.play_round. rewrite Hq, Ho, Hlate.
    unfold Terminal.handle_timeout. eexists. split; [reflexivity|].
    cbn [Terminal.stdin Terminal.password_buffer Terminal.timed_out
         Terminal.successful_round Terminal.round]. auto. }
  assert (Line :
    Terminal.result o = Z.of_nat (length (edit_line keys)) ->
    Terminal.timed_out_out o = false ->
    C.chars (Terminal.buffer_out o) = edit_line keys ->
    exists g',
      Terminal.play_round ECHO rand late_alarm g = Some g'
      /\ Terminal.stdin g' = rest
      /\ length (Terminal.password_buffer g')
         = length (Terminal.password_buffer g)
      /\ Terminal.timed_out g' = false
      /\ ((edit_line keys <> [] /\ c_meets (edit_line keys) q
           /\ Terminal.successful_round g' = true
           /\ Terminal.round g' = Terminal.round g + 1
           /\ Terminal.current_time_limit g'
              = Z.max Terminal.MIN_TIME
                      (Terminal.current_time_limit g - Terminal.TIME_DECREMENT))
          \/ ((edit_line keys = [] \/ ~ c_meets (edit_line keys) q)
              /\ Terminal.successful_round g' = false
              /\ Terminal.round g' = Terminal.round g))).
  { intros R T C0. unfold Terminal.play_round. rewrite Hq, Ho, Hlate, T.
    destruct (Z.leb_spec (Terminal.result o) 0) as [H0|H0].
    - eexists. split; [reflexivity|].
      cbn [Terminal.stdin Terminal.password_buffer Terminal.timed_out
           Terminal.successful_round Terminal.round].
      repeat (split; [assumption || reflexivity|]).
      right. split; [|split; reflexivity]. left.
      destruct (edit_line keys); [reflexivity | cbn [length] in R; lia].
    - assert (Hne : edit_line keys <> [])
        by (intros E0; rewrite E0 in R; cbn [length] in R; lia).
      pose proof (c_accepts_iff (Terminal.buffer_out o) q) as A.
      rewrite C0 in A. rewrite c_validate_checks in *.
      destruct (Checks.validate _ _ _).
      + destruct (round_step_defined (Terminal.round g)
                    (Terminal.current_time_limit g) Hrd Hlim) as [-> ->].
        cbn [CInt.bind].
        eexists. split; [reflexivity|].
        cbn [Terminal.stdin Terminal.password_buffer Terminal.timed_out
             Terminal.successful_round Terminal.round
             Terminal.current_time_limit].
        repeat (split; [assumption || reflexivity|]).
        left. split; [exact Hne|]. split; [apply A; reflexivity|].
        repeat (split; [reflexivity|]).
        unfold Terminal.MIN_TIME, Terminal.TIME_DECREMENT.
        destruct (Z.gtb_spec (Terminal.current_time_limit g - 5) 10); lia.
      + eexists. split; [reflexivity|].
        cbn [Terminal.stdin Terminal.password_buffer Terminal.timed_out
             Terminal.successful_round Terminal.round].
        repeat (split; [assumption || reflexivity|]).
        right. split; [|split; reflexivity]. right.
        intros M. apply A in M. discriminate M. }
  destruct r as [ch| | |]; cbn [is_alarm].
  - destruct Hr as (R & T & C0).
    destruct (Line R T C0) as (g' & E & H1 & H2 & H3 & H4). eauto 8.
  - destruct Hr as (R & T & C0).
    destruct (Line R T C0) as (g' & E & H1 & H2 & H3 & H4). eauto 8.
  - destruct Hr as (R & T).
    unfold Terminal.play_round. rewrite Hq, Ho, Hlate, T, R.
    cbn [Z.leb Z.compare].
    eexists. split; [reflexivity|].
    cbn [Terminal.stdin Terminal.password_buffer Terminal.timed_out
         Terminal.successful_round Terminal.round]. auto.
  - destruct Hr as (R & T).
    unfold Terminal.play_round. rewrite Hq, Ho, Hlate, T.
    eexists. split; [reflexivity|].
    cbn [Terminal.stdin Terminal.password_buffer Terminal.timed_out
         Terminal.successful_round Terminal.round]. auto.
Qed.

(** X21.  What a line typed in the terminal game leads to.  For keys that
    are no Enter, fewer than 99 of them, and then the end of the line: if
    the alarm goes off, during a read or after the last one, the game is
    over for lack of time, whatever was typed; if a read failure ends the
    line, or nothing is left of the keys once edited, the game is over
    without the validator being asked, and the reason printed is that of
    failed requirements; otherwise the round is won exactly when the
    edited line meets the requirements, and lost with the same reason when
    it does not. *)
Theorem terminal_round_outcome
        (ECHO : Z) (rand : nat -> Z) (late_alarm : Z -> bool)
        (g : Terminal.game) (keys : list ascii) (r : Terminal.read_result)
        (rest : list Terminal.read_result) (q : C.PasswordRequirements) :
  C.generate_requirements (rand (Terminal.rand_calls g)) (Terminal.round g)
  = Some q ->
  CInt.INT_MIN <= Terminal.round g < CInt.INT_MAX ->
  CInt.INT_MIN + 5 <= Terminal.current_time_limit g <= CInt.INT_MAX ->
  Terminal.MAX_PASSWORD_LEN <= Z.of_nat (length (Terminal.password_buffer g)) ->
  Forall (fun key => is_enter key = false) keys ->
  ends_line r = true ->
  Z.of_nat (length keys) < Terminal.MAX_PASSWORD_LEN - 1 ->
  Terminal.stdin g = map Terminal.Byte keys ++ r :: rest ->
  exists g',
    Terminal.play_round ECHO rand late_alarm g = Some g'
    /\ Terminal.stdin g' = rest
    /\ if late_alarm (Terminal.round g) || is_alarm r then
         Terminal.successful_round g' = false
         /\ Terminal.game_over g' = Terminal.RanOutOfTime (Terminal.round g)
       else
         match r with
         | Terminal.Failed =>
           Terminal.successful_round g' = false
           /\ Terminal.game_over g'
              = Terminal.FailedRequirements (Terminal.round g)
         | _ =>
           (edit_line keys <> [] /\ c_meets (edit_line keys) q
            /\ Terminal.successful_round g' = true
            /\ Terminal.round g' = Terminal.round g + 1)
           \/ ((edit_line keys = [] \/ ~ c_meets (edit_line keys) q)
               /\ Terminal.successful_round g' = false
               /\ Terminal.game_over g'
                  = Terminal.FailedRequirements (Terminal.round g))
         end.
Proof.
  intros Hq Hrd Hlim Hl Hk He Hfit Hin.
  destruct (play_round_line ECHO rand late_alarm g keys r rest q
              Hq Hrd Hlim Hl Hk He Hfit Hin) as (g' & E & Hs & _ & Hr).
  exists g'. split; [exact E|]. split; [exact Hs|].
  destruct (late_alarm (Terminal.round g) || is_alarm r).
  { destruct Hr as (S & T & R). split; [exact S|].
    unfold Terminal.game_over. rewrite S, T, R. reflexivity. }
  destruct Hr as (T & Hr).
  assert (Line :
    (edit_line keys <> [] /\ c_meets (edit_line keys) q
     /\ Terminal.successful_round g' = true
     /\ Terminal.round g' = Terminal.round g + 1
     /\ Terminal.current_time_limit g'
        = Z.max Terminal.MIN_TIME
                (Terminal.current_time_limit g - Terminal.TIME_DECREMENT))
    \/ ((edit_line keys = [] \/ ~ c_meets (edit_line keys) q)
        /\ Terminal.successful_round g' = false
        /\ Terminal.round g' = Terminal.round g) ->
    (edit_line keys <> [] /\ c_meets (edit_line keys) q
     /\ Terminal.successful_round g' = true
     /\ Terminal.round g' = Terminal.round g + 1)
    \/ ((edit_line keys = [] \/ ~ c_meets (edit_line keys) q)
        /\ Terminal.successful_round g' = false
        /\ Terminal.game_over g'
           = Terminal.FailedRequirements (Terminal.round g))).
  { intros [(N & M & S & R & _)|(N & S & R)]; [left; auto|].
    right. split; [exact N|]. split; [exact S|].
    unfold Terminal.game_over. rewrite S, T, R. reflexivity. }
  destruct r as [ch| | |]; try (apply Line; exact Hr).
  destruct Hr as (S & R). split; [exact S|].
  unfold Terminal.game_over. rewrite S, T, R. reflexivity.
Qed.

Lemma terminal_round_outcome_witness :
  exists g',
    Terminal.play_round 8 (fun _ => 0) (fun _ => false)
      (Terminal.start (repeat zero 100) 0
         (map Terminal.Byte (winning_password 1) ++ Terminal.Alarm :: []))
    = Some g'
    /\ Terminal.stdin g' = [].
Proof.
  assert (Hl : Terminal.MAX_PASSWORD_LEN
               <= Z.of_nat (length (repeat zero 100)))
    by (vm_compute; intro E; discriminate E).
  assert (Hf : Z.of_nat (length (winning_password 1))
               < Terminal.MAX_PASSWORD_LEN - 1) by reflexivity.
  assert (Hrd : CInt.INT_MIN <= 1 < CInt.INT_MAX)
    by (split; [intro E; discriminate E | reflexivity]).
  assert (Hlim : CInt.INT_MIN + 5 <= 60 <= CInt.INT_MAX)
    by (split; intro E; discriminate E).
  destruct (terminal_round_outcome 8 (fun _ => 0) (fun _ => false)
              (Terminal.start (repeat zero 100) 0
                 (map Terminal.Byte (winning_password 1)
                      ++ Terminal.Alarm :: []))
              (winning_password 1) Terminal.Alarm [] c_round1
              eq_refl Hrd Hlim Hl ltac:(repeat constructor) eq_refl Hf eq_refl)
    as (g' & E & S & _).
  exists g'. split; [exact E | exact S].
Defined.

(** The passwords for the rounds 1 to 4 contain no Enter, no backspace and
    no delete, and are what the line editor makes of them. *)
Lemma winning_password_line (r : Z) :
  1 <= r <= 4 ->
  Forall (fun key => is_enter key = false) (winning_password r)
  /\ edit_line (winning_password r) = winning_password r
  /\ winning_password r <> []
  /\ Z.of_nat (length (winning_password r)) < Terminal.MAX_PASSWORD_LEN - 1.
Proof.
  intros Hr.
  assert (Hc : r = 1 \/ r = 2 \/ r = 3 \/ r = 4) by lia.
  destruct Hc as [-> | [-> | [-> | ->]]];
    (split; [repeat constructor|]); (split; [reflexivity|]);
    (split; [discriminate | reflexivity]).
Qed.

Section Perfect.
Variable ECHO : Z.
Variable rand : nat -> Z.
Variable late_alarm : Z -> bool.
Hypothesis rand_range : forall n, 0 <= rand n <= CInt.INT_MAX.
Hypothesis alarm_in_time : forall r, 1 <= r <= 4 -> late_alarm r = false.

(** One round won with the password for it. *)
Lemma winning_round_won (r : Z) (g : Terminal.game)
      (rest : list Terminal.read_result) :
  1 <= r <= 4 -> Terminal.round g = r ->
  Terminal.current_time_limit g = time_limit_of_round r ->
  Terminal.MAX_PASSWORD_LEN <= Z.of_nat (length (Terminal.password_buffer g)) ->
  Terminal.stdin g = typed_line (winning_password r) ++ rest ->
  exists g',
    Terminal.play_round ECHO rand late_alarm g = Some g'
    /\ Terminal.round g' = r + 1
    /\ Terminal.current_time_limit g' = time_limit_of_round (r + 1)
    /\ Terminal.successful_round g' = true
    /\ Terminal.MAX_PASSWORD_LEN
       <= Z.of_nat (length (Terminal.password_buffer g'))
    /\ Terminal.stdin g' = rest.
Proof.
  intros Hr Hg Ht Hl Hin.
  destruct (winning_password_wins r Hr) as (V & D & _ & P).
  destruct (winning_password_line r Hr) as (K & Ed & Ne & Fit).
  destruct (D (rand (Terminal.rand_calls g))) as [q Hq].
  unfold typed_line in Hin. rewrite <- app_assoc in Hin. cbn [app] in Hin.
  rewrite <- Hg in Hq.
  pose proof (time_limit_bounds r) as Hb.
  assert (Hrd : CInt.INT_MIN <= Terminal.round g < CInt.INT_MAX)
    by (unfold CInt.INT_MIN, CInt.INT_MAX; lia).
  assert (Hlim : CInt.INT_MIN + 5 <= Terminal.current_time_limit g
                 <= CInt.INT_MAX)
    by (unfold CInt.INT_MIN, CInt.INT_MAX; lia).
  destruct (play_round_line ECHO rand late_alarm g (winning_password r)
              (Terminal.Byte "010") rest q Hq Hrd Hlim Hl K eq_refl Fit Hin)
    as (g' & E & Hs' & Hlen & Hout).
  rewrite Hg, (alarm_in_time r Hr) in Hout. cbn [orb is_alarm] in Hout.
  destruct Hout as (T & [(_ & _ & S & R & L)|(N & _)]).
  - exists g'. split; [exact E|]. split; [lia|].
    split; [|repeat split; try assumption; lia].
    rewrite L, Ht.
    unfold time_limit_of_round, Terminal.MIN_TIME, Terminal.INITIAL_TIME,
      Terminal.TIME_DECREMENT. lia.
  - exfalso. rewrite Ed in N. destruct N as [N|N]; [exact (Ne N)|].
    apply N. rewrite Hg in Hq. specialize (V _ q Hq).
    apply c_accepts_iff in V. rewrite chars_id in V; [exact V|].
    eapply Forall_impl; [|exact P]. intros ch. apply isprint_not_nul.
Qed.

End Perfect.

(** X22.  Four is the best score of the terminal game and it can be
    reached: a player who types a suitable password for each of the rounds
    1 to 4, and is in time in each of them, completes four rounds, and
    whatever follows the game is over in round 5. *)
Theorem terminal_game_best_score
        (ECHO : Z) (rand : nat -> Z) (late_alarm : Z -> bool)
        (password_buffer : list ascii)
        (c_lflag : Z) (rest : list Terminal.read_result) :
  (forall n, 0 <= rand n <= CInt.INT_MAX) ->
  (forall r, 1 <= r <= 4 -> late_alarm r = false) ->
  Z.of_nat (length password_buffer) = Terminal.MAX_PASSWORD_LEN ->
  exists g,
    Terminal.game_loop ECHO rand late_alarm 5
      (Terminal.start password_buffer c_lflag (winning_lines ++ rest))
    = Some g
    /\ Terminal.round g = 5
    /\ Terminal.completed g = 4
    /\ Terminal.current_time_limit g = 40.
Proof.
  intros Hrand Hlate Hl.
  set (g0 := Terminal.start password_buffer c_lflag (winning_lines ++ rest)).
  destruct (winning_round_won ECHO rand late_alarm Hlate 1 g0
              (typed_line (winning_password 2) ++ typed_line (winning_password 3)
               ++ typed_line (winning_password 4) ++ rest))
    as (g1 & E1 & R1 & T1 & S1 & L1 & I1);
    [lia | reflexivity | reflexivity | cbn; lia
     | unfold g0, winning_lines; cbn [Terminal.start Terminal.stdin];
       rewrite <- !app_assoc; reflexivity |].
  destruct (winning_round_won ECHO rand late_alarm Hlate 2 g1
              (typed_line (winning_password 3)
               ++ typed_line (winning_password 4) ++ rest))
    as (g2 & E2 & R2 & T2 & S2 & L2 & I2); try assumption; [lia|].
  destruct (winning_round_won ECHO rand late_alarm Hlate 3 g2
              (typed_line (winning_password 4) ++ rest))
    as (g3 & E3 & R3 & T3 & S3 & L3 & I3); try assumption; [lia|].
  destruct (winning_round_won ECHO rand late_alarm Hlate 4 g3 rest)
    as (g4 & E4 & R4 & T4 & S4 & L4 & I4); try assumption; [lia|].
  destruct (game_loop_ends ECHO rand late_alarm Hrand 1 g4)
    as (g & E & S & R & T);
    try lia; try assumption; [rewrite R4; exact T4|].
  exists g.
  split.
  - cbn [Terminal.game_loop]. fold g0.
    change (Terminal.successful_round g0) with true. cbv iota.
    rewrite E1, S1, E2, S2, E3, S3, E4. exact E.
  - assert (R5 : Terminal.round g = 5) by lia.
    split; [exact R5|]. split; [unfold Terminal.completed; lia|].
    rewrite T, R5. reflexivity.
Qed.

Lemma terminal_game_best_score_witness :
  exists g,
    Terminal.game_loop 8 (fun _ => 0) (fun _ => false) 5
      (Terminal.start (repeat zero 100) 0 (winning_lines ++ []))
    = Some g
    /\ Terminal.round g = 5.
Proof.
  destruct (terminal_game_best_score 8 (fun _ => 0) (fun _ => false)
              (repeat zero 100) 0 [])
    as (g & E & R & _).
  - intros _. vm_compute. split; intro H; discriminate H.
  - intros r _. reflexivity.
  - reflexivity.
  - exists g. split; [exact E | exact R].
Defined.

(** X23.  Four is the best score on the page too, and it can be reached:
    the player who starts each round, enters a suitable password and
    submits it completes the rounds 1 to 4 and can start round 5. *)
Theorem browser_game_best_score (html : Browser.page) (random : Q) :
  exists p4 p5,
    Browser.run winning_events (Browser.load html) = Some p4
    /\ Browser.currentRound p4 = 4
    /\ Browser.feedbackMessageEl p4 = Browser.RoundComplete 4
    /\ Browser.startGameButtonEl p4 = Browser.StartNextRound
    /\ Browser.dispatch p4 (Browser.ClickStart random) = Some p5
    /\ Browser.currentRound p5 = 5
    /\ Browser.currentTimeLimit p5 = 40
    /\ forall events p,
         Browser.run events p5 = Some p -> Browser.currentRound p <= 5.
Proof.
  destruct (run_ok winning_events _ (load_ok html)) as (p4 & E4 & Hok).
  assert (H4 : Browser.currentRound p4 = 4
               /\ Browser.feedbackMessageEl p4 = Browser.RoundComplete 4
               /\ Browser.startGameButtonEl p4 = Browser.StartNextRound
               /\ Browser.startGameButtonEl_disabled p4 = false).
  { pose proof E4 as E. vm_compute in E. injection E as <-. repeat split. }
  destruct H4 as (R4 & F4 & L4 & D4).
  exists p4, (Browser.start_click random p4).
  split; [exact E4|]. split; [exact R4|]. split; [exact F4|].
  split; [exact L4|].
  split; [unfold Browser.dispatch; rewrite D4; reflexivity|].
  pose proof (start_click_ok random p4 Hok D4) as Hok5.
  assert (R5 : Browser.currentRound (Browser.start_click random p4) = 5).
  { destruct p4. cbn [Browser.startGameButtonEl Browser.currentRound] in *.
    subst. unfold Browser.start_click. page_fields.
    remember (Browser.startRound _ _) as q eqn:E. page_eval_in E. subst q.
    reflexivity. }
  split; [exact R5|]. split.
  - page_ok_split Hok5. destruct RQ as [-> _]; [lia|]. rewrite R5. reflexivity.
  - intros events p Hp.
    destruct (run_ok events _ Hok5) as (p' & E' & Hok').
    rewrite Hp in E'. injection E' as <-. page_ok_split Hok'. lia.
Qed.

Lemma browser_game_best_score_witness :
  exists p4,
    Browser.run winning_events (Browser.load blank_page) = Some p4
    /\ Browser.currentRound p4 = 4.
Proof.
  destruct (browser_game_best_score blank_page 0) as (p4 & p5 & E & R & _).
  exists p4. split; [exact E | exact R].
Defined.

(** * The two generators *)

Lemma round_requirements_target (r t t' : Z) :
  (7 <= r -> t = t') -> round_requirements r t = round_requirements r t'.
Proof.
  intros H. unfold round_requirements.
  destruct (Z.leb_spec 7 r); [rewrite H by assumption|]; reflexivity.
Qed.

Lemma round_requirements_grow (r t t' : Z) :
  1 <= r -> no_easier (round_requirements r t) (round_requirements (r + 1) t').
Proof.
  intros Hr. unfold no_easier, round_requirements.
  cbn [minLength minUppercase minLowercase minDigits minSymbols
       reqStartUpperEndSymbol reqNoConsecutiveChars reqDigitSum].
  assert (H2 : r / 2 <= (r + 1) / 2) by (apply Z.div_le_mono; lia).
  assert (H3 : r / 3 <= (r + 1) / 3) by (apply Z.div_le_mono; lia).
  assert (H3' : (r - 1) / 3 <= (r + 1 - 1) / 3) by (apply Z.div_le_mono; lia).
  assert (H0 : 0 <= (r - 1) / 3) by (apply Z.div_pos; lia).
  repeat split; rewrite ?Z.leb_le; try lia;
    destruct (Z.eqb_spec r 1), (Z.eqb_spec (r + 1) 1); lia.
Qed.

(** X24.  The generator of the browser front-end is the one of the
    terminal front-end: for the same round, and from round 7 on the same
    draw for the digit sum ([rand() % (2r + 1)] in the terminal,
    [Math.floor] of the rounded product [Math.random() * (2r + 1)] in the
    browser), both yield the same requirements; for the rounds 1 to 6 no
    draw is involved.  The same printable password then gets the same
    verdict from both front-ends.  The terminal front-end does yield
    requirements up to round 858993457. *)
Theorem generators_agree (rnd : Z) (random : Q) (r : Z) :
  1 <= r ->
  (7 <= r ->
   Z.rem rnd (r * 2 + 1)
   = JS.Math_floor (JS.times random (inject_Z (r * 2 + 1)))) ->
  (forall q, C.generate_requirements rnd r = Some q ->
     C.requirements_of q = JS.generateRequirements random r
     /\ forall pw,
          Forall (fun ch => C.isprint ch = true) (C.chars pw) ->
          C.validate_password pw q
          = JS.validatePassword (codes (C.chars pw))
                                (JS.generateRequirements random r))
  /\ (r <= c_max_round -> 0 <= rnd <= CInt.INT_MAX ->
      exists q, C.generate_requirements rnd r = Some q).
Proof.
  intros Hr Hd. split.
  - intros q Hq.
    assert (E : C.requirements_of q = JS.generateRequirements random r).
    { rewrite (c_generate_closed rnd r q Hr Hq), js_generate_closed by exact Hr.
      apply round_requirements_target. intros H7. rewrite (Hd H7).
      reflexivity. }
    split; [exact E|].
    intros pw Hp. rewrite <- E, c_validate_checks, js_validate_checks. f_equal.
    apply validate_ext. unfold codes. apply Forall_map.
    eapply Forall_impl; [|exact Hp].
    intros ch Hch. apply printable_same_classes. rewrite Hch. reflexivity.
  - intros Hmax Hrnd. apply c_generate_defined; lia.
Qed.

Lemma generators_agree_witness :
  exists q,
    C.generate_requirements 16 8 = Some q
    /\ C.requirements_of q
       = JS.generateRequirements near_sixteen_seventeenths 8
    /\ digitSumTarget (JS.generateRequirements near_sixteen_seventeenths 8)
       = 25.
Proof.
  assert (H8 : 1 <= 8) by (intro E; discriminate E).
  assert (Hc : 8 <= c_max_round) by (intro H; discriminate H).
  assert (Hi : 0 <= 16 <= CInt.INT_MAX) by (split; intro H; discriminate H).
  assert (Hd : 7 <= 8 ->
               Z.rem 16 (8 * 2 + 1)
               = JS.Math_floor
                   (JS.times near_sixteen_seventeenths (inject_Z (8 * 2 + 1))))
    by (intros _; vm_compute; reflexivity).
  destruct (generators_agree 16 near_sixteen_seventeenths 8 H8 Hd)
    as (HA & HD).
  destruct (HD Hc Hi) as [q Hq]. exists q.
  split; [exact Hq|]. split; [exact (proj1 (HA q Hq))|].
  vm_compute. reflexivity.
Defined.

(** X25.  The game gets no easier from one round to the next: no minimum
    of the next round is below that of the round, the start/end rule, the
    rule against equal neighbours and the digit sum rule stay once they
    are on, and the time limit does not grow.  (The palindrome rule is on
    in round 5 only.) *)
Theorem rounds_get_no_easier (r : Z) :
  1 <= r ->
  (forall random random',
     no_easier (JS.generateRequirements random r)
               (JS.generateRequirements random' (r + 1)))
  /\ (forall rnd rnd' q q',
        C.generate_requirements rnd r = Some q ->
        C.generate_requirements rnd' (r + 1) = Some q' ->
        no_easier (C.requirements_of q) (C.requirements_of q'))
  /\ time_limit_of_round (r + 1) <= time_limit_of_round r.
Proof.
  intros Hr. split; [|split].
  - intros u u'. rewrite !js_generate_closed by lia.
    apply round_requirements_grow, Hr.
  - intros rnd rnd' q q' Hq Hq'.
    rewrite (c_generate_closed rnd r q Hr Hq).
    rewrite (c_generate_closed rnd' (r + 1) q') by (trivial; lia).
    apply round_requirements_grow, Hr.
  - unfold time_limit_of_round, Terminal.MIN_TIME, Terminal.INITIAL_TIME,
      Terminal.TIME_DECREMENT. lia.
Qed.

Lemma rounds_get_no_easier_witness :
  time_limit_of_round (4 + 1) <= time_limit_of_round 4.
Proof.
  assert (H : 1 <= 4) by (intro E; discriminate E).
  exact (proj2 (proj2 (rounds_get_no_easier 4 H))).
Defined.
